(** * JuicyURLs: classification, statistics, deduplication and run control

    A shallow embedding of the Go sources of alwalxed/juicyurls
    ([main.go], [internal/checker/checker.go], the [processor] and
    [writer] packages and [cmd/juicyurls/main.go]) together with the
    properties its specification states about them.

    Go strings are byte sequences, so they are modelled by [string]
    (a list of 8-bit characters): [len(s)] is [String.length s].  Go's [int]
    is a 64-bit two's complement integer, modelled by [Z] with the
    wrap-around of every addition written out ([Go.int_add]).  What the
    code takes from Go's standard library ([regexp], [net/url], the
    Unicode-aware functions of [strings]) is an interface, [Go.Lib]; the
    theorems hold for every implementation of it, and [AsciiLib.lib] is a
    runnable one for ASCII text. *)

From Stdlib Require Import ZArith String Ascii List Bool Lia Sorted.
From Stdlib Require OrderedTypeEx.
From stdpp Require Import gmap strings.
Import ListNotations.

Local Open Scope string_scope.
Local Open Scope Z_scope.

(** ** The fragment of Go the sources rely on *)
Module Go.

(** The value range of [int] on the 64-bit targets. *)
Definition MinInt : Z := - 2 ^ 63.
Definition MaxInt : Z := 2 ^ 63 - 1.

(** Two's complement wrap-around of a mathematical integer into [int]. *)
Definition wrap (z : Z) : Z := (z + 2 ^ 63) mod 2 ^ 64 - 2 ^ 63.

(** [a + b], [a++] and [a += b] on [int]. *)
Definition int_add (a b : Z) : Z := wrap (a + b).

(** [a * b] on [int]. *)
Definition int_mul (a b : Z) : Z := wrap (a * b).

(** [a / b] on [int]: the quotient truncated toward zero.  The one overflow,
    [MinInt / -1], wraps. *)
Definition int_div (a b : Z) : Z := wrap (Z.quot a b).

(** [len(s)] of a string: its number of bytes. *)
Definition len (s : string) : Z := Z.of_nat (String.length s).

(** [len(l)] of a slice. *)
Definition len_slice {A} (l : list A) : Z := Z.of_nat (List.length l).

(** [strings.HasPrefix(s, prefix)]: a byte-wise comparison. *)
Definition HasPrefix (s prefix : string) : bool := String.prefix prefix s.

(** [strings.Contains(s, substr)]: [substr] occurs at some byte offset. *)
Fixpoint Contains (s substr : string) : bool :=
  String.prefix substr s ||
  match s with
  | EmptyString => false
  | String _ rest => Contains rest substr
  end.

(** [strings.Repeat(s, count)] *)
Fixpoint Repeat (s : string) (count : nat) : string :=
  match count with
  | O => EmptyString
  | S count => s ++ Repeat s count
  end.

(** [strings.Split(s, ",")]: the fields between the commas; a string
    without comma (also the empty one) is its own single field. *)
Fixpoint splitComma_aux (s field : string) : list string :=
  match s with
  | EmptyString => [field]
  | String c rest =>
      if Ascii.eqb c ","%char then field :: splitComma_aux rest EmptyString
      else splitComma_aux rest (field ++ String c EmptyString)
  end.

Definition SplitComma (s : string) : list string := splitComma_aux s EmptyString.

(** The errors the code tells apart: the two of [context], an error with
    a message only ([os], [bufio], [fmt.Errorf] without [%w]), and
    [fmt.Errorf(msg + ": %w", err)]. *)
Inductive error :=
| DeadlineExceeded
| Canceled
| New (msg : string)
| Errorf (msg : string) (wrapped : error).

(** [err == context.DeadlineExceeded] *)
Definition isDeadlineExceeded (e : error) : bool :=
  match e with DeadlineExceeded => true | _ => false end.

(** [errors.Is(err, context.DeadlineExceeded)]: the comparison along the
    chain of wrapped errors. *)
Fixpoint IsDeadlineExceeded (e : error) : bool :=
  match e with
  | DeadlineExceeded => true
  | Errorf _ wrapped => IsDeadlineExceeded wrapped
  | _ => false
  end.

(** What the sources use of [regexp], [net/url] and of the functions of
    [strings] whose result depends on Unicode tables. *)
Class Lib := {
  (** [*regexp.Regexp] *)
  Regexp : Type;
  (** [regexp.Compile(expr)]: [Some re] when [err == nil]. *)
  Compile : string -> option Regexp;
  (** [regexp.QuoteMeta(s)] *)
  QuoteMeta : string -> string;
  (** [re.MatchString(s)] *)
  MatchString : Regexp -> string -> bool;
  (** [url.Parse(rawURL)]: [true] when [err == nil]. *)
  ParseOk : string -> bool;
  (** [strings.TrimSpace(s)] *)
  TrimSpace : string -> string;
  (** [strings.ToLower(s)] *)
  ToLower : string -> string;
  (** [runtime.NumCPU()] *)
  NumCPU : Z
}.

End Go.

(** ** Package [suspicious]: the pattern tables

    They are package-level variables: [compileRegexes] reads them when it
    runs, and the tests overwrite them before the first classification.  A
    checker is therefore compiled against the tables current at that
    time, here a value of [Patterns]. *)
Module Suspicious.

Record Patterns := {
  Keywords : list string;
  Extensions : list string;
  Paths : list string;
  Hidden : list string
}.

End Suspicious.

(** ** Package [main] ([main.go], the streaming variant) *)
Module Main.
Section WithLib.
Context {L : Go.Lib}.
Variable pats : Suspicious.Patterns.

Definition maxURLLength : Z := 2048.
Definition maxWorkers : Z := 500.

(** [URLChecker].  [compiledOnce] is the [sync.Once]: [true] once its
    function has run. *)
Record URLChecker := {
  checkKeywords : bool;
  checkExtensions : bool;
  checkPaths : bool;
  checkHidden : bool;
  excludePatterns : list string;
  excludeRegexes : list Go.Regexp;
  keywordRegexes : list Go.Regexp;
  extensionRegexes : list Go.Regexp;
  pathRegexes : list Go.Regexp;
  hiddenRegexes : list Go.Regexp;
  compiledOnce : bool
}.

(** The composite literal [URLChecker{checkKeywords: .., excludePatterns: ..}]
    of [main] and of the tests: every other field has its zero value. *)
Definition newURLChecker (kw ext pa hi : bool) (excludes : list string) : URLChecker :=
  {| checkKeywords := kw; checkExtensions := ext; checkPaths := pa; checkHidden := hi;
     excludePatterns := excludes;
     excludeRegexes := []; keywordRegexes := []; extensionRegexes := [];
     pathRegexes := []; hiddenRegexes := [];
     compiledOnce := false |}.

(** One of the five compilation loops:
    [for _, p := range ps { if regex, err := regexp.Compile(mk(p)); err == nil
       { acc = append(acc, regex) } }]. *)
Definition compileInto (mk : string -> string) (ps : list string)
    (acc : list Go.Regexp) : list Go.Regexp :=
  fold_left (fun acc p =>
               match Go.Compile (mk p) with
               | Some regex => (acc ++ [regex])%list
               | None => acc
               end) ps acc.

(** ["(?i)" + regexp.QuoteMeta(p)] *)
Definition substringPattern (p : string) : string := "(?i)" ++ Go.QuoteMeta p.

(** [pattern := regexp.QuoteMeta(ext) + "$"], compiled as ["(?i)" + pattern] *)
Definition extensionPattern (ext : string) : string := "(?i)" ++ (Go.QuoteMeta ext ++ "$").

Definition compileRegexes (c : URLChecker) : URLChecker :=
  if compiledOnce c then c
  else
    {| checkKeywords := checkKeywords c;
       checkExtensions := checkExtensions c;
       checkPaths := checkPaths c;
       checkHidden := checkHidden c;
       excludePatterns := excludePatterns c;
       excludeRegexes := compileInto substringPattern (excludePatterns c) (excludeRegexes c);
       keywordRegexes :=
         if checkKeywords c
         then compileInto substringPattern (Suspicious.Keywords pats) (keywordRegexes c)
         else keywordRegexes c;
       extensionRegexes :=
         if checkExtensions c
         then compileInto extensionPattern (Suspicious.Extensions pats) (extensionRegexes c)
         else extensionRegexes c;
       pathRegexes :=
         if checkPaths c
         then compileInto substringPattern (Suspicious.Paths pats) (pathRegexes c)
         else pathRegexes c;
       hiddenRegexes :=
         if checkHidden c
         then compileInto substringPattern (Suspicious.Hidden pats) (hiddenRegexes c)
         else hiddenRegexes c;
       compiledOnce := true |}.

(** [for _, regex := range rs { if regex.MatchString(rawURL) { return .. } }]:
    whether the loop returns. *)
Definition anyMatch (rs : list Go.Regexp) (rawURL : string) : bool :=
  existsb (fun regex => Go.MatchString regex rawURL) rs.

(** The three results of [isSuspicious]. *)
Definition Verdict : Type := bool * string * string.

(** The loops of [isSuspicious] after the guards, on the compiled lists. *)
Definition matchCompiled (c : URLChecker) (rawURL : string) : Verdict :=
  if anyMatch (excludeRegexes c) rawURL then (false, "", "")
  else if anyMatch (keywordRegexes c) rawURL
       then (true, "keywords", "Contains suspicious keyword")
  else if anyMatch (extensionRegexes c) rawURL
       then (true, "extensions", "Suspicious file extension")
  else if anyMatch (pathRegexes c) rawURL
       then (true, "paths", "Suspicious path pattern")
  else if anyMatch (hiddenRegexes c) rawURL
       then (true, "hidden", "Hidden file or directory")
  else (false, "", "").

(** [(c *URLChecker) isSuspicious(rawURL)]: the checker after the call (the
    receiver is a pointer and [compileRegexes] may have filled it) and the
    three results. *)
Definition isSuspicious (c : URLChecker) (rawURL : string) : URLChecker * Verdict :=
  if String.eqb rawURL "" || (maxURLLength <? Go.len rawURL)
  then (c, (false, "", ""))
  else
    let c := compileRegexes c in
    (c, matchCompiled c rawURL).

(** [isValidURL(rawURL)] *)
Definition isValidURL (rawURL : string) : bool :=
  if (Go.len rawURL =? 0) || (maxURLLength <? Go.len rawURL) then false
  else if negb (Go.ParseOk rawURL) then false
  else Go.HasPrefix rawURL "http://" ||
       Go.HasPrefix rawURL "https://" ||
       Go.HasPrefix rawURL "ftp://" ||
       Go.Contains rawURL ".".

(** [Config]: the fields the functions below read. *)
Record Config := {
  outputPath : string;
  workers : Z;
  verbose : bool;
  validateURLs : bool
}.

(** [Result] *)
Record Result := {
  URL : string;
  Category : string;
  Reason : string
}.

(** [Stats].  [Duration] and [ProcessingRate] (wall-clock time and a
    float) and the mutex are left out: [UpdateStats] and [GetStats] hold
    the lock for their whole body, so each is one atomic step. *)
Record Stats := {
  TotalURLs : Z;
  SuspiciousURLs : Z;
  InvalidURLs : Z;
  ProcessedURLs : Z;
  SkippedURLs : Z
}.

(** [(s *Stats) UpdateStats(suspicious, invalid, processed, skipped)] *)
Definition UpdateStats (s : Stats) (suspicious invalid processed skipped : Z) : Stats :=
  {| TotalURLs := TotalURLs s;
     SuspiciousURLs := Go.int_add (SuspiciousURLs s) suspicious;
     InvalidURLs := Go.int_add (InvalidURLs s) invalid;
     ProcessedURLs := Go.int_add (ProcessedURLs s) processed;
     SkippedURLs := Go.int_add (SkippedURLs s) skipped |}.

(** [(s *Stats) GetStats()] *)
Definition GetStats (s : Stats) : Z * Z * Z * Z :=
  (SuspiciousURLs s, InvalidURLs s, ProcessedURLs s, SkippedURLs s).

(** One iteration of the loop of [removeDuplicates]: [seen] is the map
    used as a set, [unique] the slice appended to. *)
Definition dedupStep (st : gset string * list Result) (result : Result)
    : gset string * list Result :=
  let '(seen, unique) := st in
  if decide (URL result ∈ seen) then (seen, unique)
  else ({[URL result]} ∪ seen, (unique ++ [result])%list).

(** [removeDuplicates(results)] *)
Definition removeDuplicates (results : list Result) : list Result :=
  snd (fold_left dedupStep results (∅, [])).

(** [min(a, b)] *)
Definition min (a b : Z) : Z := if a <? b then a else b.

(** [numWorkers] of [processURLs], for [n = len(urls)]. *)
Definition numWorkersFor (config : Config) (n : Z) : Z :=
  let numWorkers := workers config in
  let numWorkers := if numWorkers <=? 0 then Go.NumCPU else numWorkers in
  let numWorkers := if numWorkers >? maxWorkers then maxWorkers else numWorkers in
  if n <? 1000 then min numWorkers (Go.int_add (Go.int_div n 10) 1) else numWorkers.

(** ** The pipeline of [processURLs]

    One sending goroutine, [numWorkers] workers, the goroutine that closes
    [resultsChan] and the collecting loop of [processURLs] itself run
    concurrently.  They share the two channels, the context and [*Stats],
    and [*Stats] is only touched inside [UpdateStats]/[GetStats], under its
    mutex; everything else a worker changes is private to it, and the
    checker is only written by [compileRegexes], inside its [sync.Once].
    The run is therefore modelled as an interleaving of the steps below,
    one per communication or locked update, chosen by a schedule; the
    ticker of a worker may fire at any time. *)

(** The worker's [localStats] struct. *)
Record LocalStats := {
  suspicious : Z;
  invalid : Z;
  processed : Z;
  skipped : Z
}.

Definition zeroStats : LocalStats :=
  {| suspicious := 0; invalid := 0; processed := 0; skipped := 0 |}.

(** Where a worker goroutine stands: at the [select] of its loop, at the
    inner [select] offering a result, or returned ([wg.Done()]).
    [counted] is a history variable, absent from the Go code: the URLs
    counted in [localStats] since it was last reset. *)
Inductive Worker :=
| Selecting (localStats : LocalStats) (counted : list string)
| Offering (localStats : LocalStats) (counted : list string) (result : Result)
| Returned.

(** The shared state of one call of [processURLs].  [toSend] are the URLs
    of [urls] the sending goroutine has not yet put on [urlChan] (its
    batches of 100 are sent in order, so the batching is not visible);
    [results] is the slice of the collecting loop; [accounted] is a
    history variable: the URLs whose counts have reached [stats]. *)
Record Pipeline := {
  ctxErr : option Go.error;
  toSend : list string;
  urlChan : list string;
  urlChanCap : Z;
  urlChanClosed : bool;
  resultsChan : list Result;
  resultsChanCap : Z;
  resultsChanClosed : bool;
  results : list Result;
  pool : list Worker;
  stats : Stats;
  checker : URLChecker;
  accounted : list string
}.

Definition expire (e : Go.error) (p : Pipeline) : Pipeline :=
  {| ctxErr := Some e;
     toSend := toSend p;
     urlChan := urlChan p;
     urlChanCap := urlChanCap p;
     urlChanClosed := urlChanClosed p;
     resultsChan := resultsChan p;
     resultsChanCap := resultsChanCap p;
     resultsChanClosed := resultsChanClosed p;
     results := results p;
     pool := pool p;
     stats := stats p;
     checker := checker p;
     accounted := accounted p |}.

Definition sendURL (rest : list string) (u : string) (p : Pipeline) : Pipeline :=
  {| ctxErr := ctxErr p;
     toSend := rest;
     urlChan := (urlChan p ++ [u])%list;
     urlChanCap := urlChanCap p;
     urlChanClosed := urlChanClosed p;
     resultsChan := resultsChan p;
     resultsChanCap := resultsChanCap p;
     resultsChanClosed := resultsChanClosed p;
     results := results p;
     pool := pool p;
     stats := stats p;
     checker := checker p;
     accounted := accounted p |}.

Definition closeURLs  (p : Pipeline) : Pipeline :=
  {| ctxErr := ctxErr p;
     toSend := toSend p;
     urlChan := urlChan p;
     urlChanCap := urlChanCap p;
     urlChanClosed := true;
     resultsChan := resultsChan p;
     resultsChanCap := resultsChanCap p;
     resultsChanClosed := resultsChanClosed p;
     results := results p;
     pool := pool p;
     stats := stats p;
     checker := checker p;
     accounted := accounted p |}.

Definition receiveURL (rest : list string) (p : Pipeline) : Pipeline :=
  {| ctxErr := ctxErr p;
     toSend := toSend p;
     urlChan := rest;
     urlChanCap := urlChanCap p;
     urlChanClosed := urlChanClosed p;
     resultsChan := resultsChan p;
     resultsChanCap := resultsChanCap p;
     resultsChanClosed := resultsChanClosed p;
     results := results p;
     pool := pool p;
     stats := stats p;
     checker := checker p;
     accounted := accounted p |}.

Definition setWorker (i : nat) (w : Worker) (p : Pipeline) : Pipeline :=
  {| ctxErr := ctxErr p;
     toSend := toSend p;
     urlChan := urlChan p;
     urlChanCap := urlChanCap p;
     urlChanClosed := urlChanClosed p;
     resultsChan := resultsChan p;
     resultsChanCap := resultsChanCap p;
     resultsChanClosed := resultsChanClosed p;
     results := results p;
     pool := <[i:=w]> (pool p);
     stats := stats p;
     checker := checker p;
     accounted := accounted p |}.

Definition setChecker (c : URLChecker) (p : Pipeline) : Pipeline :=
  {| ctxErr := ctxErr p;
     toSend := toSend p;
     urlChan := urlChan p;
     urlChanCap := urlChanCap p;
     urlChanClosed := urlChanClosed p;
     resultsChan := resultsChan p;
     resultsChanCap := resultsChanCap p;
     resultsChanClosed := resultsChanClosed p;
     results := results p;
     pool := pool p;
     stats := stats p;
     checker := c;
     accounted := accounted p |}.

Definition flush (l : LocalStats) (counted : list string) (p : Pipeline) : Pipeline :=
  {| ctxErr := ctxErr p;
     toSend := toSend p;
     urlChan := urlChan p;
     urlChanCap := urlChanCap p;
     urlChanClosed := urlChanClosed p;
     resultsChan := resultsChan p;
     resultsChanCap := resultsChanCap p;
     resultsChanClosed := resultsChanClosed p;
     results := results p;
     pool := pool p;
     stats := UpdateStats (stats p) (suspicious l) (invalid l) (processed l) (skipped l);
     checker := checker p;
     accounted := (accounted p ++ counted)%list |}.

Definition sendResult (r : Result) (p : Pipeline) : Pipeline :=
  {| ctxErr := ctxErr p;
     toSend := toSend p;
     urlChan := urlChan p;
     urlChanCap := urlChanCap p;
     urlChanClosed := urlChanClosed p;
     resultsChan := (resultsChan p ++ [r])%list;
     resultsChanCap := resultsChanCap p;
     resultsChanClosed := resultsChanClosed p;
     results := results p;
     pool := pool p;
     stats := stats p;
     checker := checker p;
     accounted := accounted p |}.

Definition closeResults  (p : Pipeline) : Pipeline :=
  {| ctxErr := ctxErr p;
     toSend := toSend p;
     urlChan := urlChan p;
     urlChanCap := urlChanCap p;
     urlChanClosed := urlChanClosed p;
     resultsChan := resultsChan p;
     resultsChanCap := resultsChanCap p;
     resultsChanClosed := true;
     results := results p;
     pool := pool p;
     stats := stats p;
     checker := checker p;
     accounted := accounted p |}.

Definition collect (rest : list Result) (r : Result) (p : Pipeline) : Pipeline :=
  {| ctxErr := ctxErr p;
     toSend := toSend p;
     urlChan := urlChan p;
     urlChanCap := urlChanCap p;
     urlChanClosed := urlChanClosed p;
     resultsChan := rest;
     resultsChanCap := resultsChanCap p;
     resultsChanClosed := resultsChanClosed p;
     results := (results p ++ [r])%list;
     pool := pool p;
     stats := stats p;
     checker := checker p;
     accounted := accounted p |}.


(** [localStats.skipped++] and the like. *)
Definition countSkipped (l : LocalStats) : LocalStats :=
  {| suspicious := suspicious l; invalid := invalid l; processed := processed l;
     skipped := Go.int_add (skipped l) 1 |}.

Definition countInvalid (l : LocalStats) : LocalStats :=
  {| suspicious := suspicious l; invalid := Go.int_add (invalid l) 1;
     processed := Go.int_add (processed l) 1; skipped := skipped l |}.

Definition countProcessed (l : LocalStats) : LocalStats :=
  {| suspicious := suspicious l; invalid := invalid l;
     processed := Go.int_add (processed l) 1; skipped := skipped l |}.

Definition countSuspicious (l : LocalStats) : LocalStats :=
  {| suspicious := Go.int_add (suspicious l) 1; invalid := invalid l;
     processed := processed l; skipped := skipped l |}.

(** The body of [case rawURL, ok := <-urls] for [ok], up to the inner
    [select] or the end of the iteration. *)
Definition handleURL (config : Config) (i : nat) (l : LocalStats) (counted : list string)
    (rawURL : string) (p : Pipeline) : Pipeline :=
  if String.eqb (Go.TrimSpace rawURL) "" then
    setWorker i (Selecting (countSkipped l) (counted ++ [rawURL])%list) p
  else if validateURLs config && negb (isValidURL rawURL) then
    setWorker i (Selecting (countInvalid l) (counted ++ [rawURL])%list) p
  else
    let '(c, (matched, category, reason)) := isSuspicious (checker p) rawURL in
    let p := setChecker c p in
    if matched then
      setWorker i (Offering l counted
                     {| URL := rawURL; Category := category; Reason := reason |}) p
    else
      setWorker i (Selecting (countProcessed l) (counted ++ [rawURL])%list) p.

(** The steps of the goroutines, and the deadline passing. *)
Inductive Event :=
| Deadline               (* the context's timer fires *)
| SenderSend             (* sender: [case urlChan <- batchURL] *)
| SenderReturn           (* sender: [case <-ctx.Done(): return], or the range
                            is over; the deferred [close(urlChan)] *)
| WorkerReceive (i : nat) (* worker [i]: [case rawURL, ok := <-urls], [ok] *)
| WorkerClosed (i : nat)  (* worker [i]: the same case, [!ok] *)
| WorkerTick (i : nat)    (* worker [i]: [case <-ticker.C] *)
| WorkerDone (i : nat)    (* worker [i]: [case <-ctx.Done()] of the loop *)
| WorkerSend (i : nat)    (* worker [i]: [case results <- Result{..}] *)
| WorkerAbort (i : nat)   (* worker [i]: [case <-ctx.Done()] of the inner select *)
| CloseResults           (* [wg.Wait(); close(resultsChan)] *)
| Collect.               (* [for result := range resultsChan]: one append *)

Definition isReturned (w : Worker) : bool :=
  match w with Returned => true | _ => false end.

Definition isDone (p : Pipeline) : bool :=
  match ctxErr p with Some _ => true | None => false end.

(** One step; [None] when the goroutine cannot take it in this state. *)
Definition step (config : Config) (e : Event) (p : Pipeline) : option Pipeline :=
  match e with
  | Deadline =>
      if isDone p then None else Some (expire Go.DeadlineExceeded p)
  | SenderSend =>
      match toSend p with
      | u :: rest =>
          if negb (urlChanClosed p) && (Go.len_slice (urlChan p) <? urlChanCap p)
          then Some (sendURL rest u p) else None
      | [] => None
      end
  | SenderReturn =>
      if negb (urlChanClosed p) && (isDone p || match toSend p with [] => true | _ => false end)
      then Some (closeURLs p) else None
  | WorkerReceive i =>
      match pool p !! i, urlChan p with
      | Some (Selecting l counted), u :: rest =>
          Some (handleURL config i l counted u (receiveURL rest p))
      | _, _ => None
      end
  | WorkerClosed i =>
      match pool p !! i, urlChan p with
      | Some (Selecting l counted), [] =>
          if urlChanClosed p then Some (setWorker i Returned (flush l counted p)) else None
      | _, _ => None
      end
  | WorkerTick i =>
      match pool p !! i with
      | Some (Selecting l counted) =>
          Some (setWorker i (Selecting zeroStats []) (flush l counted p))
      | _ => None
      end
  | WorkerDone i =>
      match pool p !! i with
      | Some (Selecting l counted) =>
          if isDone p then Some (setWorker i Returned (flush l counted p)) else None
      | _ => None
      end
  | WorkerSend i =>
      match pool p !! i with
      | Some (Offering l counted r) =>
          if negb (resultsChanClosed p) && (Go.len_slice (resultsChan p) <? resultsChanCap p)
          then Some (setWorker i (Selecting (countProcessed (countSuspicious l))
                                            (counted ++ [URL r])%list)
                               (sendResult r p))
          else None
      | _ => None
      end
  | WorkerAbort i =>
      match pool p !! i with
      | Some (Offering l counted r) =>
          if isDone p then Some (setWorker i Returned (flush l counted p)) else None
      | _ => None
      end
  | CloseResults =>
      if negb (resultsChanClosed p) && forallb isReturned (pool p)
      then Some (closeResults p) else None
  | Collect =>
      match resultsChan p with
      | r :: rest => Some (collect rest r p)
      | [] => None
      end
  end.

(** A schedule: the steps in the order they happen. *)
Fixpoint run (config : Config) (schedule : list Event) (p : Pipeline) : option Pipeline :=
  match schedule with
  | [] => Some p
  | e :: schedule =>
      match step config e p with
      | Some p => run config schedule p
      | None => None
      end
  end.

(** [processURLs] up to the start of its goroutines, for a non-empty
    [urls]; [ctx] is the state of the context it is called with. *)
Definition spawn (config : Config) (c : URLChecker) (ctx : option Go.error)
    (urls : list string) : Pipeline :=
  let numWorkers := numWorkersFor config (Go.len_slice urls) in
  {| ctxErr := ctx;
     toSend := urls;
     urlChan := [];
     urlChanCap := Go.int_mul numWorkers 4;
     urlChanClosed := false;
     resultsChan := [];
     resultsChanCap := Go.int_mul numWorkers 2;
     resultsChanClosed := false;
     results := [];
     pool := replicate (Z.to_nat numWorkers) (Selecting zeroStats []);
     stats := {| TotalURLs := Go.len_slice urls; SuspiciousURLs := 0; InvalidURLs := 0;
                 ProcessedURLs := 0; SkippedURLs := 0 |};
     checker := c;
     accounted := [] |}.

(** The number of worker goroutines [processURLs] starts: none for an
    empty [urls], where it returns at once, and otherwise the number of
    iterations of [for i := 0; i < numWorkers; i++]. *)
Definition workersStarted (config : Config) (urls : list string) : Z :=
  if Go.len_slice urls =? 0 then 0
  else Z.of_nat (Z.to_nat (numWorkersFor config (Go.len_slice urls))).

(** What [processURLs] returns once the range over [resultsChan] has ended:
    in verbose mode [progressWG.Wait()] then waits for the progress
    goroutine, which only returns on [<-ctx.Done()]. *)
Definition returned (config : Config) (p : Pipeline)
    : option (list Result * Stats * option Go.error) :=
  if resultsChanClosed p
     && match resultsChan p with [] => true | _ => false end
     && (negb (verbose config) || isDone p)
  then Some (results p, stats p, ctxErr p)
  else None.

(** [processURLs(ctx, urls, checker, config)] under a schedule: the checker
    after the call and the three results, or [None] when the schedule is
    not a complete run. *)
Definition processURLs (config : Config) (c : URLChecker) (ctx : option Go.error)
    (urls : list string) (schedule : list Event)
    : option (URLChecker * (list Result * Stats * option Go.error)) :=
  if Go.len_slice urls =? 0 then
    Some (c, ([], {| TotalURLs := 0; SuspiciousURLs := 0; InvalidURLs := 0;
                     ProcessedURLs := 0; SkippedURLs := 0 |}, None))
  else
    match run config schedule (spawn config c ctx urls) with
    | Some p =>
        match returned config p with
        | Some r => Some (checker p, r)
        | None => None
        end
    | None => None
    end.

(** ** Reading the file and delivering the results *)

Definition maxFileSize : Z := 500 * 1024 * 1024.
Definition progressInterval : Z := 10000.

(** What the operating system answers about the input file:
    [fileLines] are the values of [scanner.Text()] at the successive
    [scanner.Scan()], [scanErr] is [scanner.Err()] after the loop. *)
Record File := {
  statErr : option Go.error;
  fileSize : Z;
  openErr : option Go.error;
  fileLines : list string;
  scanErr : option Go.error
}.

(** What a run of [processFile] depends on besides its arguments: the
    interleaving of the [k]-th call of [processURLs] (with the moment the
    deadline passes during it), whether the deadline has passed when the
    [k]-th [select { case <-ctx.Done(): .. default: }] of the reading loops is
    reached, and the result of [os.OpenFile] on the output path. *)
Record World := {
  schedules : nat -> list Event;
  expiredAtPoll : nat -> bool;
  createErr : option Go.error
}.

(** What a call of [writeResults] that returns [nil] has put out.
    [NoneFound]: the slice is empty; it has printed the line
    [No suspicious URLs found.] on standard output and returned before
    it chose a writer, so the output file, if one is named, is neither
    created nor truncated.  [ToStdout lines]: no output file is named
    and the lines of the results are written to [os.Stdout].
    [ToFile lines]: the output file is created or truncated, the lines
    are written to it, and the line [Results written to: <outputPath>]
    is printed on standard output. *)
Inductive Output :=
| NoneFound
| ToStdout (lines : list string)
| ToFile (lines : list string).

(** The lines written to the writer of [writeResults]. *)
Definition resultLines (o : Output) : list string :=
  match o with
  | NoneFound => []
  | ToStdout lines | ToFile lines => lines
  end.

(** The lines [writeResults] leaves on standard output. *)
Definition stdout (outputPath : string) (o : Output) : list string :=
  match o with
  | NoneFound => ["No suspicious URLs found."]
  | ToStdout lines => lines
  | ToFile _ => ["Results written to: " ++ outputPath]
  end.


(** What a run does: the error [processFile] returns, what
    [writeResults] has put out ([None]: it was not called, or could not
    open the output file) and the statistics [printStats] printed. *)
Record Report := {
  err : option Go.error;
  written : option Output;
  printed : option Stats
}.

(** [select { case <-ctx.Done(): return ctx.Err(); default: }], the [k]-th
    one, with the context in state [ctx] before: [ctx.Err()] at that time. *)
Definition poll (w : World) (k : nat) (ctx : option Go.error) : option Go.error :=
  match ctx with
  | Some e => Some e
  | None => if expiredAtPoll w k then Some Go.DeadlineExceeded else None
  end.

(** [validateFile(filePath)] *)
Definition validateFile (f : File) : option Go.error :=
  match statErr f with
  | Some e => Some (Go.Errorf "error accessing file" e)
  | None => if fileSize f >? maxFileSize then Some (Go.New "file too large") else None
  end.

(** [sort.Slice(results, func(i, j) bool { return results[i].URL < results[j].URL })]:
    the comparison is byte-wise.  [sort.Slice] is not stable; on results
    with pairwise distinct URLs, as [removeDuplicates] returns them, every
    sorting algorithm gives the same slice. *)
Fixpoint insertByURL (r : Result) (sorted : list Result) : list Result :=
  match sorted with
  | [] => [r]
  | r' :: rest =>
      if String.ltb (URL r') (URL r) then r' :: insertByURL r rest
      else r :: sorted
  end.

Definition sortByURL (results : list Result) : list Result :=
  fold_right insertByURL [] results.

(** One line of output, without its newline. *)
Definition formatResult (verbose : bool) (result : Result) : string :=
  if verbose
  then URL result ++ " [" ++ Category result ++ ": " ++ Reason result ++ "]"
  else URL result.

(** [writeResults(results, outputPath, verbose)]: the error returned and
    what it has put out. *)
Definition writeResults (w : World) (results : list Result) (outputPath : string)
    (verbose : bool) : option Go.error * option Output :=
  if Go.len_slice results =? 0 then (None, Some NoneFound)
  else if String.eqb outputPath "" then
    (None, Some (ToStdout (map (formatResult verbose) (sortByURL results))))
  else
    match createErr w with
    | Some e => (Some (Go.Errorf "error creating output file" e), None)
    | None => (None, Some (ToFile (map (formatResult verbose) (sortByURL results))))
    end.

(** [line == "" || strings.HasPrefix(line, "#") || strings.HasPrefix(line, "//")] *)
Definition isSkippedLine (line : string) : bool :=
  String.eqb line "" || Go.HasPrefix line "#" || Go.HasPrefix line "//".

(** The end of [processFile] and of [processLargeFile]: deduplicate,
    print the statistics in verbose mode, write. *)
Definition deliver (w : World) (config : Config) (results : list Result) (stats : Stats)
    : Report :=
  let results := removeDuplicates results in
  let '(e, lines) := writeResults w results (outputPath config) (verbose config) in
  {| err := e;
     written := lines;
     printed := if verbose config then Some stats else None |}.

Definition failed (e : Go.error) : Report :=
  {| err := Some e; written := None; printed := None |}.

(** The reading loop of [processFile]: [inl] is an early [return ctx.Err()],
    [inr] the loaded [urls] with the number of polls made. *)
Fixpoint loadURLs (w : World) (lines : list string) (lineCount : Z) (polls : nat)
    (ctx : option Go.error) (urls : list string) : Go.error + (list string * option Go.error) :=
  match lines with
  | [] => inr (urls, ctx)
  | text :: lines =>
      let lineCount := Go.int_add lineCount 1 in
      let line := Go.TrimSpace text in
      if isSkippedLine line then loadURLs w lines lineCount polls ctx urls
      else
        let urls := (urls ++ [line])%list in
        if Z.rem lineCount progressInterval =? 0 then
          match poll w polls ctx with
          | Some e => inl e
          | None => loadURLs w lines lineCount (S polls) None urls
          end
        else loadURLs w lines lineCount polls ctx urls
  end.

(** [chunkSize := 50000] *)
Definition chunkSize : Z := 50000.

(** [totalStats.TotalURLs += stats.TotalURLs] and the three lines after it. *)
Definition addStats (totalStats stats : Stats) : Stats :=
  {| TotalURLs := Go.int_add (TotalURLs totalStats) (TotalURLs stats);
     SuspiciousURLs := Go.int_add (SuspiciousURLs totalStats) (SuspiciousURLs stats);
     InvalidURLs := Go.int_add (InvalidURLs totalStats) (InvalidURLs stats);
     ProcessedURLs := Go.int_add (ProcessedURLs totalStats) (ProcessedURLs stats);
     SkippedURLs := SkippedURLs totalStats |}.

Definition noStats : Stats :=
  {| TotalURLs := 0; SuspiciousURLs := 0; InvalidURLs := 0; ProcessedURLs := 0;
     SkippedURLs := 0 |}.

(** The variables of [processLargeFile] that live across its reading loop;
    [calls] counts the calls of [processURLs]; the poll that follows the
    [k]-th call is the [k]-th. *)
Record Chunking := {
  chunk : list string;
  allResults : list Result;
  totalStats : Stats;
  calls : nat;
  context : option Go.error;
  urlChecker : URLChecker
}.

(** [results, stats, err := processURLs(ctx, chunk, ..)] with the test on
    [err] and the accumulation that follow it, in the loop and after it:
    [Some (inl e)] is [return fmt.Errorf(msg + ": %w", err)]; [None] when the
    world's schedule for this call is not a complete run. *)
Definition processChunk (w : World) (config : Config) (msg : string) (st : Chunking)
    : option (Go.error + Chunking) :=
  match processURLs config (urlChecker st) (context st) (chunk st) (schedules w (calls st)) with
  | None => None
  | Some (c, (results, stats, e)) =>
      let st' := {| chunk := chunk st;
                    allResults := (allResults st ++ results)%list;
                    totalStats := addStats (totalStats st) stats;
                    calls := S (calls st);
                    context := e;
                    urlChecker := c |} in
      match e with
      | Some e' =>
          if negb (Go.isDeadlineExceeded e') then Some (inl (Go.Errorf msg e'))
          else Some (inr st')
      | None => Some (inr st')
      end
  end.

Definition setChunk (chunk' : list string) (st : Chunking) : Chunking :=
  {| chunk := chunk'; allResults := allResults st; totalStats := totalStats st;
     calls := calls st; context := context st; urlChecker := urlChecker st |}.

Definition setContext (ctx : option Go.error) (st : Chunking) : Chunking :=
  {| chunk := chunk st; allResults := allResults st; totalStats := totalStats st;
     calls := calls st; context := ctx; urlChecker := urlChecker st |}.

(** The reading loop of [processLargeFile]. *)
Fixpoint chunkLoop (w : World) (config : Config) (lines : list string) (lineCount : Z)
    (st : Chunking) : option (Go.error + Chunking) :=
  match lines with
  | [] => Some (inr st)
  | text :: lines =>
      let lineCount := Go.int_add lineCount 1 in
      let line := Go.TrimSpace text in
      if isSkippedLine line then chunkLoop w config lines lineCount st
      else
        let st := setChunk (chunk st ++ [line])%list st in
        if Go.len_slice (chunk st) >=? chunkSize then
          match processChunk w config "error processing chunk" st with
          | None => None
          | Some (inl e) => Some (inl e)
          | Some (inr st) =>
              let st := setChunk [] st in
              match poll w (calls st) (context st) with
              | Some e => Some (inl e)
              | None => chunkLoop w config lines lineCount (setContext None st)
              end
          end
        else chunkLoop w config lines lineCount st
  end.

(** [processLargeFile(ctx, file, config)] *)
Definition processLargeFile (w : World) (config : Config) (c : URLChecker)
    (ctx : option Go.error) (f : File) : option Report :=
  let st := {| chunk := []; allResults := []; totalStats := noStats; calls := 0%nat;
               context := ctx; urlChecker := c |} in
  match chunkLoop w config (fileLines f) 0 st with
  | None => None
  | Some (inl e) => Some (failed e)
  | Some (inr st) =>
      let remaining :=
        if Go.len_slice (chunk st) >? 0
        then processChunk w config "error processing final chunk" st
        else Some (inr st) in
      match remaining with
      | None => None
      | Some (inl e) => Some (failed e)
      | Some (inr st) =>
          match scanErr f with
          | Some e => Some (failed (Go.Errorf "error reading file" e))
          | None => Some (deliver w config (allResults st) (totalStats st))
          end
      end
  end.

(** [processFile(ctx, config)]; [ctx] is the state of the context at the
    call.  [None] when a schedule of the world is not a complete run. *)
Definition processFile (w : World) (config : Config) (c : URLChecker)
    (ctx : option Go.error) (f : File) : option Report :=
  match validateFile f with
  | Some e => Some (failed e)
  | None =>
      match openErr f with
      | Some e => Some (failed (Go.Errorf "error opening file" e))
      | None =>
          if fileSize f >? 50 * 1024 * 1024 then processLargeFile w config c ctx f
          else
            match loadURLs w (fileLines f) 0 0 ctx [] with
            | inl e => Some (failed e)
            | inr (urls, ctx) =>
                match scanErr f with
                | Some e => Some (failed (Go.Errorf "error reading file" e))
                | None =>
                    match processURLs config c ctx urls (schedules w 0) with
                    | None => None
                    | Some (_, (results, stats, e)) =>
                        match e with
                        | Some e' =>
                            if negb (Go.isDeadlineExceeded e')
                            then Some (failed (Go.Errorf "error processing URLs" e'))
                            else Some (deliver w config results stats)
                        | None => Some (deliver w config results stats)
                        end
                    end
                end
            end
      end
  end.

(** The end of [main]: [log.Fatalf] (exit status 1) on an error. *)
Definition exitStatus (r : Report) : Z :=
  match err r with Some _ => 1 | None => 0 end.

(** ** The flags [-m] and [-e] in [main] *)

(** [config.urlChecker.excludePatterns] after the block
    [if config.excludes != "" { .. }]: the fields between the commas,
    each trimmed in place. *)
Definition excludesOfFlag (excludes : string) : list string :=
  if negb (String.eqb excludes "") then map Go.TrimSpace (Go.SplitComma excludes) else [].

(** The assignments [config.urlChecker.checkKeywords = true] and the like. *)
Definition setFlags (kw ext pa hi : bool) (c : URLChecker) : URLChecker :=
  {| checkKeywords := kw; checkExtensions := ext; checkPaths := pa; checkHidden := hi;
     excludePatterns := excludePatterns c;
     excludeRegexes := excludeRegexes c; keywordRegexes := keywordRegexes c;
     extensionRegexes := extensionRegexes c; pathRegexes := pathRegexes c;
     hiddenRegexes := hiddenRegexes c; compiledOnce := compiledOnce c |}.

(** One iteration of [for _, category := range categories { switch .. }]:
    [inl category] is [log.Fatalf("Invalid category: %s", category)]. *)
Definition enableCategory (c : URLChecker) (category : string) : string + URLChecker :=
  let name := Go.TrimSpace (Go.ToLower category) in
  if String.eqb name "keywords" then
    inr (setFlags true (checkExtensions c) (checkPaths c) (checkHidden c) c)
  else if String.eqb name "extensions" then
    inr (setFlags (checkKeywords c) true (checkPaths c) (checkHidden c) c)
  else if String.eqb name "paths" then
    inr (setFlags (checkKeywords c) (checkExtensions c) true (checkHidden c) c)
  else if String.eqb name "hidden" then
    inr (setFlags (checkKeywords c) (checkExtensions c) (checkPaths c) true c)
  else inl category.

Fixpoint enableCategories (categories : list string) (c : URLChecker) : string + URLChecker :=
  match categories with
  | [] => inr c
  | category :: categories =>
      match enableCategory c category with
      | inl invalid => inl invalid
      | inr c => enableCategories categories c
      end
  end.

(** [config.urlChecker] as [main] leaves it for [processFile], from the
    values of the flags [-m] and [-e]; [inl category] when [main] exits
    on an invalid category. *)
Definition checkerOfFlags (categories excludes : string) : string + URLChecker :=
  let patterns := excludesOfFlag excludes in
  if negb (String.eqb categories "") then
    enableCategories (Go.SplitComma categories) (newURLChecker false false false false patterns)
  else inr (newURLChecker true true true true patterns).

End WithLib.
End Main.

(** ** Package [checker] ([internal/checker/checker.go]) *)
Module Checker.
Section WithLib.
Context {L : Go.Lib}.
Variable pats : Suspicious.Patterns.

Record URLChecker := {
  checkKeywords : bool;
  checkExtensions : bool;
  checkPaths : bool;
  checkHidden : bool;
  excludePatterns : list string;
  excludeRegexes : list Go.Regexp;
  keywordRegexes : list Go.Regexp;
  extensionRegexes : list Go.Regexp;
  pathRegexes : list Go.Regexp;
  hiddenRegexes : list Go.Regexp;
  compiledOnce : bool
}.

(** [&URLChecker{}] *)
Definition zero : URLChecker :=
  {| checkKeywords := false; checkExtensions := false; checkPaths := false;
     checkHidden := false; excludePatterns := [];
     excludeRegexes := []; keywordRegexes := []; extensionRegexes := [];
     pathRegexes := []; hiddenRegexes := [];
     compiledOnce := false |}.

Definition compileInto (mk : string -> string) (ps : list string)
    (acc : list Go.Regexp) : list Go.Regexp :=
  fold_left (fun acc p =>
               match Go.Compile (mk p) with
               | Some regex => (acc ++ [regex])%list
               | None => acc
               end) ps acc.

Definition substringPattern (p : string) : string := "(?i)" ++ Go.QuoteMeta p.

Definition extensionPattern (ext : string) : string := "(?i)" ++ (Go.QuoteMeta ext ++ "$").

Definition compileRegexes (c : URLChecker) : URLChecker :=
  if compiledOnce c then c
  else
    {| checkKeywords := checkKeywords c;
       checkExtensions := checkExtensions c;
       checkPaths := checkPaths c;
       checkHidden := checkHidden c;
       excludePatterns := excludePatterns c;
       excludeRegexes := compileInto substringPattern (excludePatterns c) (excludeRegexes c);
       keywordRegexes :=
         if checkKeywords c
         then compileInto substringPattern (Suspicious.Keywords pats) (keywordRegexes c)
         else keywordRegexes c;
       extensionRegexes :=
         if checkExtensions c
         then compileInto extensionPattern (Suspicious.Extensions pats) (extensionRegexes c)
         else extensionRegexes c;
       pathRegexes :=
         if checkPaths c
         then compileInto substringPattern (Suspicious.Paths pats) (pathRegexes c)
         else pathRegexes c;
       hiddenRegexes :=
         if checkHidden c
         then compileInto substringPattern (Suspicious.Hidden pats) (hiddenRegexes c)
         else hiddenRegexes c;
       compiledOnce := true |}.

(** [uc.excludePatterns = strings.Split(excludes, ",")] and the loop that
    trims every pattern in place. *)
Definition setExcludes (uc : URLChecker) (excludes : string) : URLChecker :=
  {| checkKeywords := checkKeywords uc; checkExtensions := checkExtensions uc;
     checkPaths := checkPaths uc; checkHidden := checkHidden uc;
     excludePatterns := map Go.TrimSpace (Go.SplitComma excludes);
     excludeRegexes := excludeRegexes uc; keywordRegexes := keywordRegexes uc;
     extensionRegexes := extensionRegexes uc; pathRegexes := pathRegexes uc;
     hiddenRegexes := hiddenRegexes uc; compiledOnce := compiledOnce uc |}.

(** The four assignments of the [switch]. *)
Definition setFlags (kw ext pa hi : bool) (uc : URLChecker) : URLChecker :=
  {| checkKeywords := kw; checkExtensions := ext; checkPaths := pa; checkHidden := hi;
     excludePatterns := excludePatterns uc;
     excludeRegexes := excludeRegexes uc; keywordRegexes := keywordRegexes uc;
     extensionRegexes := extensionRegexes uc; pathRegexes := pathRegexes uc;
     hiddenRegexes := hiddenRegexes uc; compiledOnce := compiledOnce uc |}.

(** [switch strings.TrimSpace(strings.ToLower(category)) { case .. }] *)
Definition enable (uc : URLChecker) (category : string) : URLChecker :=
  let name := Go.TrimSpace (Go.ToLower category) in
  if String.eqb name "keywords" then
    setFlags true (checkExtensions uc) (checkPaths uc) (checkHidden uc) uc
  else if String.eqb name "extensions" then
    setFlags (checkKeywords uc) true (checkPaths uc) (checkHidden uc) uc
  else if String.eqb name "paths" then
    setFlags (checkKeywords uc) (checkExtensions uc) true (checkHidden uc) uc
  else if String.eqb name "hidden" then
    setFlags (checkKeywords uc) (checkExtensions uc) (checkPaths uc) true uc
  else uc.

(** [NewURLChecker(categories, excludes)] *)
Definition NewURLChecker (categories excludes : string) : URLChecker :=
  let uc := zero in
  let uc := if negb (String.eqb excludes "") then setExcludes uc excludes else uc in
  let uc :=
    if negb (String.eqb categories "")
    then fold_left enable (Go.SplitComma categories) uc
    else setFlags true true true true uc in
  compileRegexes uc.

Definition anyMatch (rs : list Go.Regexp) (rawURL : string) : bool :=
  existsb (fun regex => Go.MatchString regex rawURL) rs.

(** [(c *URLChecker) IsSuspicious(rawURL)]; it does not compile. *)
Definition IsSuspicious (c : URLChecker) (rawURL : string) : bool * string * string :=
  if String.eqb rawURL "" then (false, "", "")
  else if anyMatch (excludeRegexes c) rawURL then (false, "", "")
  else if anyMatch (keywordRegexes c) rawURL
       then (true, "keywords", "Contains suspicious keyword")
  else if anyMatch (extensionRegexes c) rawURL
       then (true, "extensions", "Suspicious file extension")
  else if anyMatch (pathRegexes c) rawURL
       then (true, "paths", "Suspicious path pattern")
  else if anyMatch (hiddenRegexes c) rawURL
       then (true, "hidden", "Hidden file or directory")
  else (false, "", "").

(** [IsValidURL(rawURL)] *)
Definition IsValidURL (rawURL : string) : bool :=
  if Go.len rawURL =? 0 then false
  else if negb (Go.ParseOk rawURL) then false
  else Go.HasPrefix rawURL "http://" ||
       Go.HasPrefix rawURL "https://" ||
       Go.HasPrefix rawURL "ftp://" ||
       Go.Contains rawURL ".".

End WithLib.
End Checker.

(** ** Package [config]: its constants *)
Module Config.

Definition MaxURLLength : Z := 2048.
Definition MaxWorkers : Z := 500.

End Config.

(** ** Packages [writer] and [processor], and [cmd/juicyurls]

    [ProcessFile] streams: its writer takes the results from the channel
    one by one and writes each at once.  Which results it has taken when
    its loop ends, and how the loop ends, depends on the interleaving and
    is an argument here. *)
Module Processor.

(** A result of package [types]. *)
Record Result := {
  URL : string;
  Category : string;
  Reason : string
}.

Definition formatResult (verbose : bool) (r : Result) : string :=
  if verbose
  then URL r ++ " [" ++ Category r ++ ": " ++ Reason r ++ "]"
  else URL r.

(** [writer.WriteStream(ctx, in, outputPath, verbose)]: [received] are the
    results taken from [in] before the loop ended, [stop] is [ctx.Err()]
    when it ended by [case <-ctx.Done()] and [None] when [in] was closed.
    The error returned and the lines written. *)
Definition WriteStream (createErr : option Go.error) (outputPath : string) (verbose : bool)
    (received : list Result) (stop : option Go.error) : option Go.error * list string :=
  match (if String.eqb outputPath "" then None else createErr) with
  | Some e => (Some e, [])
  | None => (stop, map (formatResult verbose) received)
  end.

(** [ProcessFile(ctx, cfg)]: the error returned and the lines written. *)
Definition ProcessFile (openErr createErr : option Go.error) (outputPath : string)
    (verbose : bool) (received : list Result) (stop : option Go.error)
    : option Go.error * list string :=
  match openErr with
  | Some e => (Some e, [])
  | None =>
      let '(e, lines) := WriteStream createErr outputPath verbose received stop in
      match e with
      | Some Go.DeadlineExceeded => (None, lines)
      | _ => (e, lines)
      end
  end.

(** The end of [main] in [cmd/juicyurls]: [os.Exit(0)] on a deadline,
    [log.Fatalf] (exit status 1) on another error. *)
Definition exitStatus (e : option Go.error) : Z :=
  match e with
  | Some e => if Go.IsDeadlineExceeded e then 0 else 1
  | None => 0
  end.

End Processor.

(** ** Package [processor], in detail: the streaming pipeline

    [ProcessFile] of [internal/processor] starts a reader goroutine, the
    goroutine that closes [urlChan], the workers and the goroutine that
    closes [resultsChan], and then runs [writer.WriteStream] itself; it
    returns when [WriteStream] does.  The counters are only touched by
    [atomic.AddUint64].  As for [processURLs] of [main.go], a run is an
    interleaving of steps chosen by a schedule. *)
Module Stream.

(** A buffered channel. *)
Record Chan (A : Type) := {
  buf : list A;
  cap : Z;
  closed : bool
}.
Arguments buf {A}.
Arguments cap {A}.
Arguments closed {A}.

Definition make {A} (size : Z) : Chan A := {| buf := []; cap := size; closed := false |}.

(** Whether [ch <- x] can proceed. *)
Definition hasRoom {A} (ch : Chan A) : bool :=
  negb (closed ch) && (Go.len_slice (buf ch) <? cap ch).

Definition push {A} (x : A) (ch : Chan A) : Chan A :=
  {| buf := (buf ch ++ [x])%list; cap := cap ch; closed := closed ch |}.

Definition setBuf {A} (rest : list A) (ch : Chan A) : Chan A :=
  {| buf := rest; cap := cap ch; closed := closed ch |}.

Definition close {A} (ch : Chan A) : Chan A :=
  {| buf := buf ch; cap := cap ch; closed := true |}.

Section WithLib.
Context {L : Go.Lib}.

(** [*config.Config]: the fields [ProcessFile] reads. *)
Record Config := {
  OutputPath : string;
  Workers : Z;
  Verbose : bool;
  ValidateURLs : bool;
  URLChecker : Checker.URLChecker
}.

(** [atomic.AddUint64(&x, delta)] *)
Definition AddUint64 (x delta : Z) : Z := (x + delta) mod 2 ^ 64.

(** [line == "" || line[0] == '#' || line[0] == '/'] *)
Definition skipped (line : string) : bool :=
  match line with
  | EmptyString => true
  | String c _ => Ascii.eqb c "#"%char || Ascii.eqb c "/"%char
  end.

(** The body of the worker's loop after [atomic.AddUint64(&processed, 1)]:
    the result it offers, if any. *)
Definition classify (cfg : Config) (u : string) : option Processor.Result :=
  if ValidateURLs cfg && negb (Checker.IsValidURL u) then None
  else
    let '(sus, cat, why) := Checker.IsSuspicious (URLChecker cfg) u in
    if sus then Some {| Processor.URL := u; Processor.Category := cat;
                        Processor.Reason := why |}
    else None.

(** Where the goroutines stand.  The reader is at [scanner.Scan()], at
    its [select] with a line to send, or has returned; a worker is at the
    [select] of its loop, at the inner [select] with a result to send, or
    has returned; [WriteStream] is about to create the output file, in
    its loop, or has returned an error. *)
Inductive Reader := Scanning | Sending (line : string) | ReaderReturned.

Inductive Worker := Receiving | Offering (r : Processor.Result) | WorkerReturned.

Inductive Writer := Creating | Writing | WriterReturned (err : option Go.error).

(** The three counters of [ProcessFile]. *)
Record Counters := {
  total : Z;
  processed : Z;
  suspicious : Z
}.

(** History variables, absent from the Go code: the lines the reader has
    counted, the URLs the workers have received, the results they have
    had to offer. *)
Record History := {
  read : list string;
  received : list string;
  offered : list Processor.Result
}.

(** The shared state of one call of [ProcessFile]: [lines] are the values
    [scanner.Text()] has yet to give, [written] the results whose lines
    [WriteStream] has written. *)
Record State := {
  ctxErr : option Go.error;
  lines : list string;
  reader : Reader;
  urlChan : Chan string;
  pool : list Worker;
  counters : Counters;
  resultsChan : Chan Processor.Result;
  writer : Writer;
  written : list Processor.Result;
  history : History
}.

Definition setCtxErr (e : option Go.error) (s : State) : State :=
  {| ctxErr := e; lines := lines s; reader := reader s; urlChan := urlChan s;
     pool := pool s; counters := counters s; resultsChan := resultsChan s;
     writer := writer s; written := written s; history := history s |}.

Definition setLines (rest : list string) (s : State) : State :=
  {| ctxErr := ctxErr s; lines := rest; reader := reader s; urlChan := urlChan s;
     pool := pool s; counters := counters s; resultsChan := resultsChan s;
     writer := writer s; written := written s; history := history s |}.

Definition setReader (r : Reader) (s : State) : State :=
  {| ctxErr := ctxErr s; lines := lines s; reader := r; urlChan := urlChan s;
     pool := pool s; counters := counters s; resultsChan := resultsChan s;
     writer := writer s; written := written s; history := history s |}.

Definition setURLChan (ch : Chan string) (s : State) : State :=
  {| ctxErr := ctxErr s; lines := lines s; reader := reader s; urlChan := ch;
     pool := pool s; counters := counters s; resultsChan := resultsChan s;
     writer := writer s; written := written s; history := history s |}.

Definition setWorker (i : nat) (w : Worker) (s : State) : State :=
  {| ctxErr := ctxErr s; lines := lines s; reader := reader s; urlChan := urlChan s;
     pool := <[i:=w]> (pool s); counters := counters s; resultsChan := resultsChan s;
     writer := writer s; written := written s; history := history s |}.

Definition setCounters (c : Counters) (s : State) : State :=
  {| ctxErr := ctxErr s; lines := lines s; reader := reader s; urlChan := urlChan s;
     pool := pool s; counters := c; resultsChan := resultsChan s;
     writer := writer s; written := written s; history := history s |}.

Definition setResultsChan (ch : Chan Processor.Result) (s : State) : State :=
  {| ctxErr := ctxErr s; lines := lines s; reader := reader s; urlChan := urlChan s;
     pool := pool s; counters := counters s; resultsChan := ch;
     writer := writer s; written := written s; history := history s |}.

Definition setWriter (w : Writer) (s : State) : State :=
  {| ctxErr := ctxErr s; lines := lines s; reader := reader s; urlChan := urlChan s;
     pool := pool s; counters := counters s; resultsChan := resultsChan s;
     writer := w; written := written s; history := history s |}.

Definition setWritten (rs : list Processor.Result) (s : State) : State :=
  {| ctxErr := ctxErr s; lines := lines s; reader := reader s; urlChan := urlChan s;
     pool := pool s; counters := counters s; resultsChan := resultsChan s;
     writer := writer s; written := rs; history := history s |}.

Definition setHistory (h : History) (s : State) : State :=
  {| ctxErr := ctxErr s; lines := lines s; reader := reader s; urlChan := urlChan s;
     pool := pool s; counters := counters s; resultsChan := resultsChan s;
     writer := writer s; written := written s; history := h |}.

(** [atomic.AddUint64(&total, 1)] and the like, with their history. *)
Definition countTotal (line : string) (s : State) : State :=
  let c := counters s in
  let h := history s in
  setHistory {| read := (read h ++ [line])%list; received := received h;
                offered := offered h |}
    (setCounters {| total := AddUint64 (total c) 1; processed := processed c;
                    suspicious := suspicious c |} s).

Definition countProcessed (u : string) (s : State) : State :=
  let c := counters s in
  let h := history s in
  setHistory {| read := read h; received := (received h ++ [u])%list;
                offered := offered h |}
    (setCounters {| total := total c; processed := AddUint64 (processed c) 1;
                    suspicious := suspicious c |} s).

Definition countSuspicious (r : Processor.Result) (s : State) : State :=
  let c := counters s in
  let h := history s in
  setHistory {| read := read h; received := received h;
                offered := (offered h ++ [r])%list |}
    (setCounters {| total := total c; processed := processed c;
                    suspicious := AddUint64 (suspicious c) 1 |} s).

(** The steps of the goroutines, and the deadline passing. *)
Inductive Event :=
| Deadline                (* the context's timer fires *)
| ReaderScan              (* reader: [scanner.Scan()] and the body up to the [select] *)
| ReaderSend              (* reader: [case urlChan <- line] *)
| ReaderAbort             (* reader: [case <-ctx.Done(): return] *)
| CloseURLs               (* [readerWG.Wait(); close(urlChan)] *)
| WorkerReceive (i : nat) (* worker [i]: [case u, ok := <-urlChan], [ok] *)
| WorkerClosed (i : nat)  (* worker [i]: the same case, [!ok] *)
| WorkerDone (i : nat)    (* worker [i]: [case <-ctx.Done()] of the loop *)
| WorkerSend (i : nat)    (* worker [i]: [case resultsChan <- types.Result{..}] *)
| WorkerAbort (i : nat)   (* worker [i]: [case <-ctx.Done()] of the inner select *)
| CloseResults            (* [workerWG.Wait(); close(resultsChan)] *)
| WriterCreate            (* [WriteStream]: [os.Create(outputPath)], if any *)
| WriterReceive           (* [WriteStream]: [case r, ok := <-in], [ok], and the write *)
| WriterClosed            (* [WriteStream]: the same case, [!ok]: [return nil] *)
| WriterDone.             (* [WriteStream]: [case <-ctx.Done(): return ctx.Err()] *)

Definition isDone (s : State) : bool :=
  match ctxErr s with Some _ => true | None => false end.

Definition isReturned (w : Worker) : bool :=
  match w with WorkerReturned => true | _ => false end.

(** One step; [None] when the goroutine cannot take it in this state.
    [createErr] is the error of [os.Create] on the output path. *)
Definition step (cfg : Config) (createErr : option Go.error) (e : Event) (s : State)
    : option State :=
  match e with
  | Deadline =>
      if isDone s then None else Some (setCtxErr (Some Go.DeadlineExceeded) s)
  | ReaderScan =>
      match reader s, lines s with
      | Scanning, [] => Some (setReader ReaderReturned s)
      | Scanning, line :: rest =>
          if skipped line then Some (setLines rest s)
          else Some (setReader (Sending line) (countTotal line (setLines rest s)))
      | _, _ => None
      end
  | ReaderSend =>
      match reader s with
      | Sending line =>
          if hasRoom (urlChan s)
          then Some (setReader Scanning (setURLChan (push line (urlChan s)) s))
          else None
      | _ => None
      end
  | ReaderAbort =>
      match reader s with
      | Sending line => if isDone s then Some (setReader ReaderReturned s) else None
      | _ => None
      end
  | CloseURLs =>
      match reader s with
      | ReaderReturned =>
          if closed (urlChan s) then None else Some (setURLChan (close (urlChan s)) s)
      | _ => None
      end
  | WorkerReceive i =>
      match pool s !! i, buf (urlChan s) with
      | Some Receiving, u :: rest =>
          let s := countProcessed u (setURLChan (setBuf rest (urlChan s)) s) in
          match classify cfg u with
          | Some r => Some (setWorker i (Offering r) (countSuspicious r s))
          | None => Some s
          end
      | _, _ => None
      end
  | WorkerClosed i =>
      match pool s !! i, buf (urlChan s) with
      | Some Receiving, [] =>
          if closed (urlChan s) then Some (setWorker i WorkerReturned s) else None
      | _, _ => None
      end
  | WorkerDone i =>
      match pool s !! i with
      | Some Receiving => if isDone s then Some (setWorker i WorkerReturned s) else None
      | _ => None
      end
  | WorkerSend i =>
      match pool s !! i with
      | Some (Offering r) =>
          if hasRoom (resultsChan s)
          then Some (setWorker i Receiving (setResultsChan (push r (resultsChan s)) s))
          else None
      | _ => None
      end
  | WorkerAbort i =>
      match pool s !! i with
      | Some (Offering r) => if isDone s then Some (setWorker i WorkerReturned s) else None
      | _ => None
      end
  | CloseResults =>
      if negb (closed (resultsChan s)) && forallb isReturned (pool s)
      then Some (setResultsChan (close (resultsChan s)) s) else None
  | WriterCreate =>
      match writer s with
      | Creating =>
          match (if String.eqb (OutputPath cfg) "" then None else createErr) with
          | Some err => Some (setWriter (WriterReturned (Some err)) s)
          | None => Some (setWriter Writing s)
          end
      | _ => None
      end
  | WriterReceive =>
      match writer s, buf (resultsChan s) with
      | Writing, r :: rest =>
          Some (setWritten (written s ++ [r])%list
                  (setResultsChan (setBuf rest (resultsChan s)) s))
      | _, _ => None
      end
  | WriterClosed =>
      match writer s, buf (resultsChan s) with
      | Writing, [] =>
          if closed (resultsChan s) then Some (setWriter (WriterReturned None) s) else None
      | _, _ => None
      end
  | WriterDone =>
      match writer s with
      | Writing => if isDone s then Some (setWriter (WriterReturned (ctxErr s)) s) else None
      | _ => None
      end
  end.

(** A schedule: the steps in the order they happen. *)
Fixpoint run (cfg : Config) (createErr : option Go.error) (schedule : list Event)
    (s : State) : option State :=
  match schedule with
  | [] => Some s
  | e :: schedule =>
      match step cfg createErr e s with
      | Some s => run cfg createErr schedule s
      | None => None
      end
  end.

(** [workers] of [ProcessFile]: no cap, no scaling. *)
Definition numWorkers (cfg : Config) : Z :=
  if Workers cfg <=? 0 then Go.NumCPU else Workers cfg.

(** [ProcessFile] up to the call of [WriteStream]; [fileLines] are the
    lines the scanner will give ([scanner.Err()] is never looked at, so
    a read error is the end of the file). *)
Definition spawn (cfg : Config) (ctx : option Go.error) (fileLines : list string) : State :=
  let workers := numWorkers cfg in
  {| ctxErr := ctx;
     lines := fileLines;
     reader := Scanning;
     urlChan := make (Go.int_mul workers 100);
     pool := replicate (Z.to_nat workers) Receiving;
     counters := {| total := 0; processed := 0; suspicious := 0 |};
     resultsChan := make (Go.int_mul workers 10);
     writer := Creating;
     written := [];
     history := {| read := []; received := []; offered := [] |} |}.

(** What [ProcessFile] returns and has done when [WriteStream] has
    returned: the error, the lines written, and the three counters
    printed in verbose mode unless the deadline has passed.  The
    counters are read here in one state; when [WriteStream] returned an
    error the goroutines may still be counting, and the three reads of
    the Go code (not atomic) may then see different states. *)
Definition Outcome : Type := option Go.error * list string * option (Z * Z * Z).

Definition returned (cfg : Config) (s : State) : option Outcome :=
  match writer s with
  | WriterReturned err =>
      let out := map (Processor.formatResult (Verbose cfg)) (written s) in
      let stats :=
        if Verbose cfg
        then Some (total (counters s), processed (counters s), suspicious (counters s))
        else None in
      match err with
      | Some Go.DeadlineExceeded => Some (None, out, None)
      | _ => Some (err, out, stats)
      end
  | _ => None
  end.

(** [ProcessFile(ctx, cfg)] under a schedule; [None] when the schedule
    does not get [WriteStream] to return, when [make] panics on a
    negative size, and for a size 0: the channel is then unbuffered,
    which the steps above do not cover (it takes [1 << 62] workers). *)
Definition ProcessFile (cfg : Config) (openErr createErr ctx : option Go.error)
    (fileLines : list string) (schedule : list Event) : option Outcome :=
  match openErr with
  | Some err => Some (Some err, [], None)
  | None =>
      if (Go.int_mul (numWorkers cfg) 100 <=? 0) || (Go.int_mul (numWorkers cfg) 10 <=? 0)
      then None
      else
        match run cfg createErr schedule (spawn cfg ctx fileLines) with
        | Some s => returned cfg s
        | None => None
        end
  end.

End WithLib.
End Stream.

(** ** An implementation of [Go.Lib] for ASCII text

    It runs inside Rocq and serves the examples below.  It agrees with Go
    where patterns and subjects are ASCII: the expressions compiled are
    the ones [compileRegexes] builds ([(?i)], a quoted literal, an optional
    final [$]); case folding, lowering and trimming treat the ASCII
    letters and blanks; [ParseOk] makes the checks of [url.Parse] on control
    bytes, on the scheme, on the first path segment and on percent
    escapes, and accepts every authority. *)
Module AsciiLib.

Definition code (c : ascii) : N := N_of_ascii c.

Definition between (lo hi : N) (c : ascii) : bool :=
  ((lo <=? code c) && (code c <=? hi))%N.

Definition lower (c : ascii) : ascii :=
  if between 65 90 c then ascii_of_N (code c + 32) else c.

Fixpoint ToLower (s : string) : string :=
  match s with
  | EmptyString => EmptyString
  | String c rest => String (lower c) (ToLower rest)
  end.

Definition isSpace (c : ascii) : bool := between 9 13 c || (code c =? 32)%N.

Fixpoint trimLeft (s : string) : string :=
  match s with
  | EmptyString => EmptyString
  | String c rest => if isSpace c then trimLeft rest else s
  end.

Fixpoint trimRight (s : string) : string :=
  match s with
  | EmptyString => EmptyString
  | String c rest =>
      let rest := trimRight rest in
      if isSpace c && String.eqb rest "" then EmptyString else String c rest
  end.

Definition TrimSpace (s : string) : string := trimRight (trimLeft s).

(** The bytes [regexp.QuoteMeta] escapes. *)
Definition special (c : ascii) : bool := Go.Contains "\.+*?()|[]{}^$" (String c EmptyString).

Fixpoint QuoteMeta (s : string) : string :=
  match s with
  | EmptyString => EmptyString
  | String c rest =>
      if special c then String "\"%char (String c (QuoteMeta rest))
      else String c (QuoteMeta rest)
  end.

(** A compiled expression of the fragment. *)
Record Regexp := {
  foldCase : bool;
  literal : string;
  atEnd : bool
}.

(** The literal of an expression and whether it ends in [$]. *)
Fixpoint parseLiteral (expr acc : string) : option (string * bool) :=
  match expr with
  | EmptyString => Some (acc, false)
  | String c rest =>
      if Ascii.eqb c "\"%char then
        match rest with
        | String c' rest' =>
            if special c' then parseLiteral rest' (acc ++ String c' EmptyString) else None
        | EmptyString => None
        end
      else if Ascii.eqb c "$"%char then
        match rest with
        | EmptyString => Some (acc, true)
        | _ => None
        end
      else if special c || (128 <=? code c)%N then None
      else parseLiteral rest (acc ++ String c EmptyString)
  end.

Definition Compile (expr : string) : option Regexp :=
  let '(fold, body) :=
    if String.prefix "(?i)" expr
    then (true, String.substring 4 (String.length expr - 4) expr)
    else (false, expr) in
  match parseLiteral body EmptyString with
  | Some (lit, anchored) => Some {| foldCase := fold; literal := lit; atEnd := anchored |}
  | None => None
  end.

Definition HasSuffix (s suffix : string) : bool :=
  (String.length suffix <=? String.length s)%nat &&
  String.eqb (String.substring (String.length s - String.length suffix)
                               (String.length suffix) s) suffix.

Definition MatchString (re : Regexp) (s : string) : bool :=
  let s := if foldCase re then ToLower s else s in
  let lit := if foldCase re then ToLower (literal re) else literal re in
  if atEnd re then HasSuffix s lit else Go.Contains s lit.

(** [strings.Cut(s, sep)] for a one-byte separator: the text before its
    first occurrence and the text after it. *)
Fixpoint cut (sep : ascii) (s : string) : string * string :=
  match s with
  | EmptyString => (EmptyString, EmptyString)
  | String c rest =>
      if Ascii.eqb c sep then (EmptyString, rest)
      else let '(before, after) := cut sep rest in (String c before, after)
  end.

Definition isCTL (c : ascii) : bool := (code c <? 32)%N || (code c =? 127)%N.

Fixpoint containsCTL (s : string) : bool :=
  match s with
  | EmptyString => false
  | String c rest => isCTL c || containsCTL rest
  end.

Definition isLetter (c : ascii) : bool := between 97 122 c || between 65 90 c.

Definition isSchemeMark (c : ascii) : bool :=
  between 48 57 c || Go.Contains "+-." (String c EmptyString).

(** [getScheme(rawURL)]: [None] is the error, else the scheme and the rest. *)
Fixpoint getScheme (s : string) (first : bool) (scheme whole : string)
    : option (string * string) :=
  match s with
  | EmptyString => Some (EmptyString, whole)
  | String c rest =>
      if isLetter c then getScheme rest false (scheme ++ String c EmptyString) whole
      else if isSchemeMark c then
        if first then Some (EmptyString, whole)
        else getScheme rest false (scheme ++ String c EmptyString) whole
      else if Ascii.eqb c ":"%char then
        if first then None else Some (scheme, rest)
      else Some (EmptyString, whole)
  end.

Definition isHex (c : ascii) : bool :=
  between 48 57 c || between 97 102 c || between 65 70 c.

Fixpoint validEscapes (s : string) : bool :=
  match s with
  | EmptyString => true
  | String c rest =>
      if Ascii.eqb c "%"%char then
        match rest with
        | String h1 (String h2 rest') => isHex h1 && isHex h2 && validEscapes rest'
        | _ => false
        end
      else validEscapes rest
  end.

Definition ParseOk (rawURL : string) : bool :=
  let '(u, frag) := cut "#" rawURL in
  if containsCTL u then false
  else if String.eqb u "*" then validEscapes frag
  else
    match getScheme u true EmptyString u with
    | None => false
    | Some (scheme, rest) =>
        let '(rest, _) := cut "?" rest in
        if negb (Go.HasPrefix rest "/") && negb (String.eqb scheme "") then validEscapes frag
        else if negb (Go.HasPrefix rest "/") && Go.Contains (fst (cut "/" rest)) ":" then false
        else validEscapes rest && validEscapes frag
    end.

#[export] Instance lib : Go.Lib := {|
  Go.Regexp := Regexp;
  Go.Compile := Compile;
  Go.QuoteMeta := QuoteMeta;
  Go.MatchString := MatchString;
  Go.ParseOk := ParseOk;
  Go.TrimSpace := TrimSpace;
  Go.ToLower := ToLower;
  Go.NumCPU := 8
|}.

(** The tables the tests install. *)
Definition testPatterns : Suspicious.Patterns :=
  {| Suspicious.Keywords := ["badword"];
     Suspicious.Extensions := [".exe"];
     Suspicious.Paths := ["/evil"];
     Suspicious.Hidden := [".git"] |}.

End AsciiLib.

(** ** The specification's own notions

    Definitions that follow the wording of the specification, to compare
    the code with. *)
Module Spec.

(** The four categories, and their fixed order of precedence. *)
Inductive Category := keywords | extensions | paths | hidden.

Definition precedence : list Category := [keywords; extensions; paths; hidden].

Definition name (cat : Category) : string :=
  match cat with
  | keywords => "keywords"
  | extensions => "extensions"
  | paths => "paths"
  | hidden => "hidden"
  end.

Definition reason (cat : Category) : string :=
  match cat with
  | keywords => "Contains suspicious keyword"
  | extensions => "Suspicious file extension"
  | paths => "Suspicious path pattern"
  | hidden => "Hidden file or directory"
  end.

(** The classification result for the first matching category, if any. *)
Definition verdict (first : option Category) : bool * string * string :=
  match first with
  | Some cat => (true, name cat, reason cat)
  | None => (false, "", "")
  end.

(** The enabled categories of a classifier. *)
Definition Enabled : Type := Category -> bool.

Definition enabled (kw ext pa hi : bool) : Enabled :=
  fun cat =>
    match cat with
    | keywords => kw
    | extensions => ext
    | paths => pa
    | hidden => hi
    end.

(** A category name that is one of the enabled categories. *)
Definition namesEnabled (en : Enabled) (category : string) : Prop :=
  exists cat, category = name cat /\ en cat = true.

(** The coupling of the three results: matched exactly when the category
    is not empty and exactly when the reason is not empty; not matched
    goes with both empty, matched with one of the four category names. *)
Definition coupled (v : bool * string * string) : Prop :=
  let '(matched, category, reason) := v in
  (matched = true <-> category <> "") /\
  (matched = true <-> reason <> "") /\
  (matched = false -> category = "" /\ reason = "") /\
  (matched = true -> exists cat, category = name cat).

Section WithLib.
Context {L : Go.Lib}.
Variable pats : Suspicious.Patterns.

Definition patternList (cat : Category) : list string :=
  match cat with
  | keywords => Suspicious.Keywords pats
  | extensions => Suspicious.Extensions pats
  | paths => Suspicious.Paths pats
  | hidden => Suspicious.Hidden pats
  end.

(** The expression a pattern of the category is matched by: a
    case-insensitive literal, for an extension followed by end-of-string. *)
Definition expression (cat : Category) (p : string) : string :=
  match cat with
  | extensions => "(?i)" ++ (Go.QuoteMeta p ++ "$")
  | _ => "(?i)" ++ Go.QuoteMeta p
  end.

(** A pattern matches the URL: its expression compiles and matches. *)
Definition patternMatches (expr : string) (url : string) : bool :=
  match Go.Compile expr with
  | Some regex => Go.MatchString regex url
  | None => false
  end.

(** The pattern list of the category matches the URL. *)
Definition categoryMatches (cat : Category) (url : string) : bool :=
  existsb (fun p => patternMatches (expression cat p) url) (patternList cat).

(** The URL matches an exclusion pattern. *)
Definition excluded (excludes : list string) (url : string) : bool :=
  existsb (fun p => patternMatches ("(?i)" ++ Go.QuoteMeta p) url) excludes.

(** The first of keywords, extensions, paths, hidden, restricted to the
    enabled categories, whose pattern list matches the URL. *)
Definition firstMatch (en : Enabled) (url : string) : option Category :=
  find (fun cat => en cat && categoryMatches cat url) precedence.

(** The checker of [main] after it has classified the URLs [earlier]. *)
Definition after (c : Main.URLChecker) (earlier : list string) : Main.URLChecker :=
  fold_left (fun c url => fst (Main.isSuspicious pats c url)) earlier c.

(** The enabled categories of a checker of package [checker]. *)
Definition flags (uc : Checker.URLChecker) : Enabled :=
  enabled (Checker.checkKeywords uc) (Checker.checkExtensions uc)
          (Checker.checkPaths uc) (Checker.checkHidden uc).

(** A checker of package [checker] as [NewURLChecker] holds it before it
    compiles: no loop has filled a list yet. *)
Definition pristine (uc : Checker.URLChecker) : Prop :=
  Checker.excludeRegexes uc = [] /\ Checker.keywordRegexes uc = [] /\
  Checker.extensionRegexes uc = [] /\ Checker.pathRegexes uc = [] /\
  Checker.hiddenRegexes uc = [] /\ Checker.compiledOnce uc = false.

(** What happens to one URL a worker takes. *)
Inductive Outcome := Skipped | Invalid | Suspicious | Clean.

Definition Outcome_eqb (a b : Outcome) : bool :=
  match a, b with
  | Skipped, Skipped | Invalid, Invalid | Suspicious, Suspicious | Clean, Clean => true
  | _, _ => false
  end.

(** Blank: skipped.  Failing the validation, when it is on: invalid, not
    clean.  Else suspicious or clean by the classification. *)
Definition outcome (config : Main.Config) (c : Main.URLChecker) (url : string) : Outcome :=
  if String.eqb (Go.TrimSpace url) "" then Skipped
  else if Main.validateURLs config && negb (Main.isValidURL url) then Invalid
  else if fst (fst (snd (Main.isSuspicious pats c url))) then Suspicious
  else Clean.

(** How many URLs of a log had the outcome. *)
Definition count (o : Outcome) (config : Main.Config) (c : Main.URLChecker)
    (log : list string) : Z :=
  Z.of_nat (List.length (List.filter (fun url => Outcome_eqb (outcome config c url) o) log)).

(** Counters that are the tally of a log of URLs. *)
Definition tallied (config : Main.Config) (c : Main.URLChecker) (log : list string)
    (suspicious invalid processed skipped : Z) : Prop :=
  suspicious = count Suspicious config c log /\
  invalid = count Invalid config c log /\
  processed = count Suspicious config c log + count Invalid config c log
              + count Clean config c log /\
  skipped = count Skipped config c log.

(** The [localStats] of a worker are the tally of the URLs it has counted
    since it last reset them, and the result it offers is suspicious. *)
Definition workerTallied (config : Main.Config) (c : Main.URLChecker) (w : Main.Worker)
    : Prop :=
  match w with
  | Main.Selecting l counted =>
      tallied config c counted (Main.suspicious l) (Main.invalid l)
              (Main.processed l) (Main.skipped l)
  | Main.Offering l counted r =>
      tallied config c counted (Main.suspicious l) (Main.invalid l)
              (Main.processed l) (Main.skipped l) /\
      outcome config c (Main.URL r) = Suspicious
  | Main.Returned => True
  end.

(** The URLs a worker holds: those it has counted and the one it offers. *)
Definition load (w : Main.Worker) : nat :=
  match w with
  | Main.Selecting _ counted => List.length counted
  | Main.Offering _ counted _ => S (List.length counted)
  | Main.Returned => 0
  end.

(** The invariant of the pipeline: the shared statistics are the tally of
    the accounted URLs, every worker's are the tally of what it counted,
    and the URLs accounted, held by workers, in the channel and still to
    send are no more than the total, which is an [int]. *)
Definition consistent (config : Main.Config) (p : Main.Pipeline) : Prop :=
  let s := Main.stats p in
  tallied config (Main.checker p) (Main.accounted p)
          (Main.SuspiciousURLs s) (Main.InvalidURLs s)
          (Main.ProcessedURLs s) (Main.SkippedURLs s) /\
  Forall (workerTallied config (Main.checker p)) (Main.pool p) /\
  Z.of_nat (List.length (Main.accounted p) + sum_list_with load (Main.pool p)
            + List.length (Main.urlChan p) + List.length (Main.toSend p))
  <= Main.TotalURLs s /\
  Main.TotalURLs s <= Go.MaxInt.

(** The invariant with room for [k] more URLs in the hands of workers. *)
Definition roomy (config : Main.Config) (k : nat) (p : Main.Pipeline) : Prop :=
  let s := Main.stats p in
  tallied config (Main.checker p) (Main.accounted p)
          (Main.SuspiciousURLs s) (Main.InvalidURLs s)
          (Main.ProcessedURLs s) (Main.SkippedURLs s) /\
  Forall (workerTallied config (Main.checker p)) (Main.pool p) /\
  Z.of_nat (List.length (Main.accounted p) + sum_list_with load (Main.pool p)
            + List.length (Main.urlChan p) + List.length (Main.toSend p) + k)
  <= Main.TotalURLs s /\
  Main.TotalURLs s <= Go.MaxInt.

(** The valid-but-clean URLs among those the statistics account for. *)
Definition validButClean (config : Main.Config) (p : Main.Pipeline) : Z :=
  count Clean config (Main.checker p) (Main.accounted p).

(** The inequalities of RunStats, on a value of [Stats] alone. *)
Definition bounded (s : Main.Stats) : Prop :=
  0 <= Main.SuspiciousURLs s /\ 0 <= Main.InvalidURLs s /\
  Main.SuspiciousURLs s + Main.InvalidURLs s <= Main.ProcessedURLs s /\
  Main.ProcessedURLs s <= Main.TotalURLs s.

(** The invariant of RunStats as the specification states it. *)
Definition statsInvariantAsStated (config : Main.Config) (p : Main.Pipeline) : Prop :=
  let s := Main.stats p in
  Main.ProcessedURLs s = Main.SuspiciousURLs s + validButClean config p /\
  Main.SuspiciousURLs s <= Main.ProcessedURLs s /\
  Main.ProcessedURLs s <= Main.TotalURLs s.

(** The invariant with the invalid URLs, which the code counts as
    processed. *)
Definition statsInvariant (config : Main.Config) (p : Main.Pipeline) : Prop :=
  let s := Main.stats p in
  Main.ProcessedURLs s
    = Main.SuspiciousURLs s + Main.InvalidURLs s + validButClean config p /\
  Main.SuspiciousURLs s <= Main.ProcessedURLs s /\
  Main.ProcessedURLs s <= Main.TotalURLs s.

End WithLib.

(** A result with another URL than [r]. *)
Definition differs (r r' : Main.Result) : bool :=
  negb (String.eqb (Main.URL r') (Main.URL r)).

(** No result of [unique] has the URL of [r]. *)
Definition fresh (unique : list Main.Result) (r : Main.Result) : bool :=
  negb (existsb (fun r' => String.eqb (Main.URL r') (Main.URL r)) unique).

(** Deduplication in the specification's words: each distinct URL once,
    carried by its first result, in the order of first occurrence. *)
Fixpoint firstOccurrences (results : list Main.Result) : list Main.Result :=
  match results with
  | [] => []
  | r :: rest => r :: List.filter (differs r) (firstOccurrences rest)
  end.

(** The position of the first result with the URL. *)
Fixpoint firstIndex (url : string) (results : list Main.Result) : nat :=
  match results with
  | [] => 0
  | r :: rest => if String.eqb (Main.URL r) url then 0 else S (firstIndex url rest)
  end.

End Spec.

(** ** Inputs of the examples *)
Module Inputs.

(** [longURL] of [TestIsValidURL]: longer than [maxURLLength]. *)
Definition longURL : string := "http://" ++ Go.Repeat "x" 2048.

(** An overlong URL with a keyword and an extension of the test tables. *)
Definition longBadURL : string :=
  "http://example.com/badword/" ++ Go.Repeat "x" 2048 ++ ".exe".

(** The checker of [TestURLCheckerIsSuspicious]. *)
Definition testChecker : Main.URLChecker (L := AsciiLib.lib) :=
  Main.newURLChecker true true true true ["safe.com"].

(** The run of [TestProcessURLs]: its URLs, its checker and its
    configuration (two workers configured, validation on). *)
Definition testURLs : list string :=
  ["http://clean.com"; "http://bad.com/evil"; "http://bad.com/evil.exe"; "://invalid-url"].

Definition processChecker : Main.URLChecker (L := AsciiLib.lib) :=
  Main.newURLChecker false true true false [].

Definition testConfig : Main.Config :=
  {| Main.outputPath := ""; Main.workers := 2; Main.verbose := false;
     Main.validateURLs := true |}.

(** One interleaving of that run, to its end: the four URLs are sent, the
    single worker the pipeline starts for four URLs handles them in turn,
    then everything is closed and collected. *)
Definition testSchedule : list Main.Event :=
  [Main.SenderSend; Main.SenderSend; Main.SenderSend; Main.SenderSend;
   Main.WorkerReceive 0;
   Main.WorkerReceive 0; Main.WorkerSend 0;
   Main.WorkerReceive 0; Main.WorkerSend 0;
   Main.WorkerReceive 0;
   Main.SenderReturn; Main.WorkerClosed 0; Main.CloseResults;
   Main.Collect; Main.Collect].

(** A run on a large file that the deadline interrupts during its first
    chunk: the file starts with [chunkSize] lines holding a suspicious
    URL and goes on with any lines [rest]; one worker is configured. *)
Definition evilURL : string := "http://bad.com/evil".

Definition largeFile (rest : list string) : Main.File :=
  {| Main.statErr := None;
     Main.fileSize := 60 * 1024 * 1024;
     Main.openErr := None;
     Main.fileLines := (replicate (Z.to_nat Main.chunkSize) evilURL ++ rest)%list;
     Main.scanErr := None |}.

Definition timeoutConfig : Main.Config :=
  {| Main.outputPath := ""; Main.workers := 1; Main.verbose := false;
     Main.validateURLs := false |}.

(** The first call of [processURLs]: one URL is sent, classified and
    collected, then the deadline passes and every goroutine returns. *)
Definition timeoutSchedule : list Main.Event :=
  [Main.SenderSend; Main.WorkerReceive 0; Main.WorkerSend 0; Main.Collect;
   Main.Deadline;
   Main.SenderReturn; Main.WorkerDone 0; Main.CloseResults].

Definition timeoutWorld : Main.World :=
  {| Main.schedules := fun _ => timeoutSchedule;
     Main.expiredAtPoll := fun _ => true;
     Main.createErr := None |}.

(** The result collected before the deadline. *)
Definition evilResult : Main.Result :=
  {| Main.URL := evilURL; Main.Category := "paths"; Main.Reason := "Suspicious path pattern" |}.

(** Two URLs for a call of [processURLs] that [timeoutSchedule] cuts short:
    the second is never sent. *)
Definition deadlineURLs : list string := [evilURL; "http://late.com/evil"].

(** A small file with the URLs of [TestProcessURLs] among a comment, a
    blank line and padded lines, and a world in which the deadline never
    passes and the call of [processURLs] runs as in [testSchedule]. *)
Definition smallFile : Main.File :=
  {| Main.statErr := None;
     Main.fileSize := 1024;
     Main.openErr := None;
     Main.fileLines := ["# urls"; "  http://clean.com"; "http://bad.com/evil.exe "; "";
                        "http://bad.com/evil"; "// more"; "://invalid-url"];
     Main.scanErr := None |}.

Definition smallSchedule : list Main.Event :=
  [Main.SenderSend; Main.SenderSend; Main.SenderSend; Main.SenderSend;
   Main.WorkerReceive 0;
   Main.WorkerReceive 0; Main.WorkerSend 0;
   Main.WorkerReceive 0; Main.WorkerSend 0;
   Main.WorkerReceive 0;
   Main.SenderReturn; Main.WorkerClosed 0; Main.CloseResults;
   Main.Collect; Main.Collect].

Definition smallWorld : Main.World :=
  {| Main.schedules := fun _ => smallSchedule;
     Main.expiredAtPoll := fun _ => false;
     Main.createErr := None |}.




(** Verbose mode, on the large file: the world is [timeoutWorld]. *)
Definition verboseConfig : Main.Config :=
  {| Main.outputPath := ""; Main.workers := 1; Main.verbose := true;
     Main.validateURLs := false |}.

(** A call of [ProcessFile] of package [processor]: one worker, verbose,
    validation on, the categories extensions and paths; a file with the
    URLs of [TestProcessURLs] among lines the reader skips. *)
Definition streamConfig : Stream.Config (L := AsciiLib.lib) :=
  {| Stream.OutputPath := ""; Stream.Workers := 1; Stream.Verbose := true;
     Stream.ValidateURLs := true;
     Stream.URLChecker := Checker.NewURLChecker AsciiLib.testPatterns "extensions,paths" "" |}.

Definition streamLines : list string :=
  ["# urls"; "http://clean.com"; "http://bad.com/evil.exe"; ""; "/skipped";
   "http://bad.com/evil"; "://invalid-url"].

(** The pipeline handles the lines one after the other, to the end. *)
Definition streamSchedule : list Stream.Event :=
  [Stream.WriterCreate;
   Stream.ReaderScan;
   Stream.ReaderScan; Stream.ReaderSend; Stream.WorkerReceive 0;
   Stream.ReaderScan; Stream.ReaderSend; Stream.WorkerReceive 0;
   Stream.WorkerSend 0; Stream.WriterReceive;
   Stream.ReaderScan; Stream.ReaderScan;
   Stream.ReaderScan; Stream.ReaderSend; Stream.WorkerReceive 0;
   Stream.WorkerSend 0; Stream.WriterReceive;
   Stream.ReaderScan; Stream.ReaderSend; Stream.WorkerReceive 0;
   Stream.ReaderScan; Stream.CloseURLs; Stream.WorkerClosed 0;
   Stream.CloseResults; Stream.WriterClosed].

(** The deadline passes when one result is written and one line is in
    the channel. *)
Definition streamCutSchedule : list Stream.Event :=
  [Stream.WriterCreate;
   Stream.ReaderScan;
   Stream.ReaderScan; Stream.ReaderSend; Stream.WorkerReceive 0;
   Stream.ReaderScan; Stream.ReaderSend; Stream.WorkerReceive 0;
   Stream.WorkerSend 0; Stream.WriterReceive;
   Stream.ReaderScan; Stream.ReaderScan;
   Stream.ReaderScan; Stream.ReaderSend;
   Stream.Deadline; Stream.WriterDone].

(** The context is cancelled before the call, and [WriteStream] sees it
    at once. *)
Definition streamCancelledSchedule : list Stream.Event :=
  [Stream.WriterCreate; Stream.ReaderScan; Stream.WriterDone].

End Inputs.

(** ** Where the URLs of a run are

    Notions to follow the URLs of one call of [processURLs] through the
    pipeline: [urls] is the slice it is called with, [c0] the checker. *)
Module Trace.

Definition Result_eq_dec (r r' : Main.Result) : {r = r'} + {r <> r'}.
Proof. decide equality; apply string_dec. Defined.

Definition isDeadline (e : Main.Event) : bool :=
  match e with Main.Deadline => true | _ => false end.

(** Where the lines of the results go when [writeResults] returns
    [nil]: without a line there is only the notice on standard output;
    otherwise they go to standard output or to the output file,
    according to the path. *)
Definition put (outputPath : string) (lines : list string) : Main.Output :=
  match lines with
  | [] => Main.NoneFound
  | _ => if String.eqb outputPath "" then Main.ToStdout lines else Main.ToFile lines
  end.

Section WithLib.
Context {L : Go.Lib}.
Variable pats : Suspicious.Patterns.
Variable config : Main.Config.
Variable urls : list string.
Variable c0 : Main.URLChecker.

(** The URLs of a file: its lines trimmed, without the blank ones and the
    comments. *)
Definition unskipped (lines : list string) : list string :=
  List.filter (fun line => negb (Main.isSkippedLine line)) (map Go.TrimSpace lines).

(** Results in strictly ascending order of their URLs, compared byte-wise. *)
Definition byURL (r r' : Main.Result) : Prop :=
  String.ltb (Main.URL r) (Main.URL r') = true.

Definition ascending (a b : string) : Prop := String.ltb a b = true.

(** A checker of [main.go] and one of package [checker] with the same
    flags and exclusion patterns. *)
Definition sameSetup (c : Main.URLChecker) (uc : Checker.URLChecker) : Prop :=
  Main.checkKeywords c = Checker.checkKeywords uc /\
  Main.checkExtensions c = Checker.checkExtensions uc /\
  Main.checkPaths c = Checker.checkPaths uc /\
  Main.checkHidden c = Checker.checkHidden uc /\
  Main.excludePatterns c = Checker.excludePatterns uc.

(** A checker of [main.go] as a composite literal leaves it: no list is
    compiled yet. *)
Definition literal (c : Main.URLChecker) : Prop :=
  Main.excludeRegexes c = [] /\ Main.keywordRegexes c = [] /\
  Main.extensionRegexes c = [] /\ Main.pathRegexes c = [] /\
  Main.hiddenRegexes c = [] /\ Main.compiledOnce c = false.

(** The URLs a worker has counted since it last reset its counters. *)
Definition counted (w : Main.Worker) : list string :=
  match w with
  | Main.Selecting _ log => log
  | Main.Offering _ log _ => log
  | Main.Returned => []
  end.

(** The URLs in the hands of a worker: the counted ones and the one whose
    result it offers. *)
Definition held (w : Main.Worker) : list string :=
  match w with
  | Main.Selecting _ log => log
  | Main.Offering _ log r => Main.URL r :: log
  | Main.Returned => []
  end.

(** The results sent so far: collected, or still in the channel. *)
Definition emitted (p : Main.Pipeline) : list Main.Result :=
  (Main.results p ++ Main.resultsChan p)%list.

(** Every place a URL of the input can be in. *)
Definition somewhere (p : Main.Pipeline) : list string :=
  (Main.accounted p ++ flat_map held (Main.pool p) ++ Main.urlChan p ++ Main.toSend p)%list.

(** The URL has the outcome suspicious. *)
Definition suspicious (c : Main.URLChecker) (url : string) : bool :=
  Spec.Outcome_eqb (Spec.outcome pats config c url) Spec.Suspicious.

(** A result the classifier stands behind: its URL is one of the input,
    is neither blank nor (when validation is on) invalid, and
    [isSuspicious] returns matched with the result's category and reason. *)
Definition genuine (c : Main.URLChecker) (r : Main.Result) : Prop :=
  In (Main.URL r) urls /\
  Spec.outcome pats config c (Main.URL r) = Spec.Suspicious /\
  snd (Main.isSuspicious pats c (Main.URL r)) = (true, Main.Category r, Main.Reason r).

Definition offersGenuine (c : Main.URLChecker) (w : Main.Worker) : Prop :=
  match w with
  | Main.Offering _ _ r => genuine c r
  | _ => True
  end.

(** The result a URL is reported with: none unless it is suspicious. *)
Definition report (c : Main.URLChecker) (url : string) : list Main.Result :=
  if suspicious c url then
    let '(_, category, reason) := snd (Main.isSuspicious pats c url) in
    [{| Main.URL := url; Main.Category := category; Main.Reason := reason |}]
  else [].

(** The results of a list of URLs, in their order. *)
Definition expected (c : Main.URLChecker) (log : list string) : list Main.Result :=
  flat_map (report c) log.

(** Nothing is made up: the checker is the one of the call, compiled or
    not; every result sent or offered is genuine; every URL in the
    pipeline is one of the input. *)
Record Sound (p : Main.Pipeline) : Prop := {
  checker_stage :
    Main.checker p = c0 \/ Main.checker p = Main.compileRegexes pats c0;
  emitted_genuine : Forall (genuine (Main.checker p)) (emitted p);
  offered_genuine : Forall (offersGenuine (Main.checker p)) (Main.pool p);
  from_input : forall url, In url (somewhere p) -> In url urls
}.

(** The results sent are those of the URLs counted, each as often as it
    was counted; and once [resultsChan] is closed every worker has
    returned. *)
Record Answered (p : Main.Pipeline) : Prop := {
  answered :
    Permutation (emitted p)
      (expected (Main.checker p) (Main.accounted p ++ flat_map counted (Main.pool p)));
  closed_late :
    Main.resultsChanClosed p = true -> Forall (fun w => w = Main.Returned) (Main.pool p)
}.

(** No URL is in the pipeline more often than in the input.  As long as
    the context is not done nothing is lost: the URLs in the pipeline are
    those of the input, [urlChan] is only closed when everything is sent,
    and a worker has only returned when [urlChan] was closed and empty. *)
Record Lossless (p : Main.Pipeline) : Prop := {
  never_more :
    forall url,
      (count_occ string_dec (somewhere p) url <= count_occ string_dec urls url)%nat;
  all_there : Main.ctxErr p = None -> Permutation (somewhere p) urls;
  closed_when_sent :
    Main.ctxErr p = None -> Main.urlChanClosed p = true -> Main.toSend p = [];
  returned_when_drained :
    Main.ctxErr p = None ->
    Exists (fun w => w = Main.Returned) (Main.pool p) ->
    Main.urlChan p = [] /\ Main.urlChanClosed p = true
}.

(** The three together. *)
Definition Traced (p : Main.Pipeline) : Prop := Sound p /\ Answered p /\ Lossless p.

(** The schedule in which the first worker handles the URLs one at a
    time: each URL is sent and received, and its result, if any, is sent
    and collected before the next URL is sent; then the sender closes
    [urlChan], every worker finds it closed and [resultsChan] is closed. *)
Definition serve (c : Main.URLChecker) (url : string) : list Main.Event :=
  Main.SenderSend :: Main.WorkerReceive 0 ::
  (if suspicious c url then [Main.WorkerSend 0; Main.Collect] else []).

Definition sequential (c : Main.URLChecker) : list Main.Event :=
  (flat_map (serve c) urls
   ++ Main.SenderReturn
      :: map Main.WorkerClosed
           (seq 0 (Z.to_nat (Main.numWorkersFor config (Go.len_slice urls))))
   ++ [Main.CloseResults])%list.

(** A worker at the [select] of its loop. *)
Definition selecting (w : Main.Worker) : Prop :=
  exists l log, w = Main.Selecting l log.

(** The pipeline between two URLs of that schedule: the URLs [rest] are
    still to send, the results [done] are collected, both channels are
    empty and open, and every worker is at its [select]. *)
Definition Idle (rest : list string) (done : list Main.Result) (p : Main.Pipeline) : Prop :=
  Main.ctxErr p = None /\ Main.toSend p = rest /\
  Main.urlChan p = [] /\ Main.urlChanClosed p = false /\
  Main.resultsChan p = [] /\ Main.resultsChanClosed p = false /\
  Main.results p = done /\
  (exists w others, Main.pool p = w :: others) /\ Forall selecting (Main.pool p) /\
  0 < Main.urlChanCap p /\ 0 < Main.resultsChanCap p /\
  (Main.checker p = c0 \/ Main.checker p = Main.compileRegexes pats c0).

End WithLib.
End Trace.

(** ** Where the lines of a streaming run are

    Notions to follow the lines of one call of [ProcessFile] of package
    [processor] through its pipeline: [fileLines] are the lines of the
    file, [createErr] is the error of [os.Create] on the output path. *)
Module Flow.

Definition Result_eq_dec (r r' : Processor.Result) : {r = r'} + {r <> r'}.
Proof. decide equality; apply string_dec. Defined.

Definition isDeadline (e : Stream.Event) : bool :=
  match e with Stream.Deadline => true | _ => false end.

Section WithLib.
Context {L : Go.Lib}.
Variable cfg : Stream.Config.
Variable createErr : option Go.error.
Variable fileLines : list string.

(** The lines the reader does not skip. *)
Definition unskipped (lines : list string) : list string :=
  List.filter (fun line => negb (Stream.skipped line)) lines.

(** The result a URL is written with, if any, and those of a list of
    URLs, in their order. *)
Definition report (u : string) : list Processor.Result :=
  match Stream.classify cfg u with
  | Some r => [r]
  | None => []
  end.

Definition expected (urls : list string) : list Processor.Result :=
  flat_map report urls.

(** The line in the hands of the reader, the result in the hands of a
    worker. *)
Definition pending (r : Stream.Reader) : list string :=
  match r with
  | Stream.Sending line => [line]
  | _ => []
  end.

Definition offering (w : Stream.Worker) : list Processor.Result :=
  match w with
  | Stream.Offering r => [r]
  | _ => []
  end.

(** The lines counted that are with the workers, in [urlChan] or with
    the reader; the results offered that are written, in [resultsChan]
    or with a worker. *)
Definition lineFlow (s : Stream.State) : list string :=
  (Stream.received (Stream.history s) ++ Stream.buf (Stream.urlChan s)
   ++ pending (Stream.reader s))%list.

Definition resultFlow (s : Stream.State) : list Processor.Result :=
  (Stream.written s ++ Stream.buf (Stream.resultsChan s)
   ++ flat_map offering (Stream.pool s))%list.

(** The error of [os.Create], if [WriteStream] calls it and it fails. *)
Definition createFailure : option Go.error :=
  if String.eqb (Stream.OutputPath cfg) "" then None else createErr.

(** The counter is the length of the list, as a [uint64]. *)
Definition counts {A} (n : Z) (l : list A) : Prop :=
  n = Z.of_nat (List.length l) mod 2 ^ 64.

(** The invariant of the pipeline.  The reader has counted the unskipped
    lines up to where it is; the workers have offered the results of the
    URLs they received; no line and no result is anywhere more often
    than it was counted or offered, and while the context is live none
    is lost; the channels are closed and the goroutines return in
    order; [WriteStream] returns no error when [resultsChan] is closed
    and drained, the error of the context, or that of [os.Create] before
    it has written anything; the counters count. *)
Record Invariant (s : Stream.State) : Prop := {
  read_so_far :
    unskipped fileLines
    = (Stream.read (Stream.history s) ++ unskipped (Stream.lines s))%list;
  offered_received :
    Stream.offered (Stream.history s) = expected (Stream.received (Stream.history s));
  lines_bounded :
    forall u, (count_occ string_dec (lineFlow s) u
               <= count_occ string_dec (Stream.read (Stream.history s)) u)%nat;
  lines_kept :
    Stream.ctxErr s = None ->
    forall u, count_occ string_dec (lineFlow s) u
              = count_occ string_dec (Stream.read (Stream.history s)) u;
  results_bounded :
    forall r, (count_occ Result_eq_dec (resultFlow s) r
               <= count_occ Result_eq_dec (Stream.offered (Stream.history s)) r)%nat;
  results_kept :
    Stream.ctxErr s = None ->
    forall r, count_occ Result_eq_dec (resultFlow s) r
              = count_occ Result_eq_dec (Stream.offered (Stream.history s)) r;
  closed_after_reader :
    Stream.closed (Stream.urlChan s) = true -> Stream.reader s = Stream.ReaderReturned;
  reader_at_end :
    Stream.ctxErr s = None -> Stream.reader s = Stream.ReaderReturned ->
    Stream.lines s = [];
  worker_at_end :
    Stream.ctxErr s = None ->
    Exists (fun w => w = Stream.WorkerReturned) (Stream.pool s) ->
    Stream.buf (Stream.urlChan s) = [] /\ Stream.closed (Stream.urlChan s) = true;
  closed_after_workers :
    Stream.closed (Stream.resultsChan s) = true ->
    Forall (fun w => w = Stream.WorkerReturned) (Stream.pool s);
  writer_at_end :
    Stream.writer s = Stream.WriterReturned None ->
    Stream.buf (Stream.resultsChan s) = [] /\ Stream.closed (Stream.resultsChan s) = true /\
    createFailure = None;
  writer_error :
    forall err, Stream.writer s = Stream.WriterReturned (Some err) ->
                (createFailure = None /\ Stream.ctxErr s = Some err) \/
                (createFailure = Some err /\ Stream.written s = []);
  written_after_create :
    Stream.writer s = Stream.Creating -> Stream.written s = [];
  writing_created :
    Stream.writer s = Stream.Writing -> createFailure = None;
  counted :
    counts (Stream.total (Stream.counters s)) (Stream.read (Stream.history s)) /\
    counts (Stream.processed (Stream.counters s)) (Stream.received (Stream.history s)) /\
    counts (Stream.suspicious (Stream.counters s)) (Stream.offered (Stream.history s))
}.

(** A result the pipeline stands behind: its URL is an unskipped line of
    the file, valid when validation is on, and [IsSuspicious] returns
    matched with the result's category and reason. *)
Definition genuine (r : Processor.Result) : Prop :=
  In (Processor.URL r) (unskipped fileLines) /\
  (Stream.ValidateURLs cfg = true -> Checker.IsValidURL (Processor.URL r) = true) /\
  Checker.IsSuspicious (Stream.URLChecker cfg) (Processor.URL r)
  = (true, Processor.Category r, Processor.Reason r).

(** A schedule without the deadline that takes the lines through the
    pipeline one after the other: the reader scans a line and sends it
    unless it skips it, worker 0 receives it and sends its result, if
    any, and [WriteStream] writes it; at the end of the file the
    channels are closed in turn. *)
Definition serve (line : string) : list Stream.Event :=
  if Stream.skipped line then [Stream.ReaderScan]
  else
    ([Stream.ReaderScan; Stream.ReaderSend; Stream.WorkerReceive 0]
     ++ match Stream.classify cfg line with
        | Some _ => [Stream.WorkerSend 0; Stream.WriterReceive]
        | None => []
        end)%list.

Definition sequential (lines : list string) : list Stream.Event :=
  (Stream.WriterCreate :: flat_map serve lines
   ++ [Stream.ReaderScan; Stream.CloseURLs]
   ++ map Stream.WorkerClosed (seq 0 (Z.to_nat (Stream.numWorkers cfg)))
   ++ [Stream.CloseResults; Stream.WriterClosed])%list.

(** The pipeline between two lines of that schedule: the lines [rest]
    are to be read, the results [done] are written, the channels are
    open and empty and everyone waits. *)
Definition Idle (rest : list string) (done : list Processor.Result) (s : Stream.State)
    : Prop :=
  Stream.ctxErr s = None /\ Stream.lines s = rest /\ Stream.reader s = Stream.Scanning /\
  Stream.buf (Stream.urlChan s) = [] /\ Stream.closed (Stream.urlChan s) = false /\
  0 < Stream.cap (Stream.urlChan s) /\
  Stream.buf (Stream.resultsChan s) = [] /\ Stream.closed (Stream.resultsChan s) = false /\
  0 < Stream.cap (Stream.resultsChan s) /\
  Stream.writer s = Stream.Writing /\ Stream.written s = done /\
  exists k, Stream.pool s = replicate (S k) Stream.Receiving.

End WithLib.
End Flow.

(** * Properties *)

(** ** Arithmetic of [int] *)

Lemma wrap_small (z : Z) : Go.MinInt <= z <= Go.MaxInt -> Go.wrap z = z.
Proof.
  unfold Go.wrap, Go.MinInt, Go.MaxInt. intros H.
  rewrite Z.mod_small by lia. lia.
Qed.

Lemma int_add_small (a b : Z) :
  Go.MinInt <= a + b <= Go.MaxInt -> Go.int_add a b = a + b.
Proof. apply wrap_small. Qed.

(** ** The classifier *)
Section Classifier.
Context {L : Go.Lib}.
Variable pats : Suspicious.Patterns.

Lemma anyMatch_app (rs rs' : list Go.Regexp) (url : string) :
  Main.anyMatch (rs ++ rs') url = Main.anyMatch rs url || Main.anyMatch rs' url.
Proof. apply existsb_app. Qed.

(** A compilation loop keeps what the list held and adds, in order, the
    expressions that compile. *)
Lemma anyMatch_compileInto (mk : string -> string) (ps : list string)
    (acc : list Go.Regexp) (url : string) :
  Main.anyMatch (Main.compileInto mk ps acc) url
  = Main.anyMatch acc url || existsb (fun p => Spec.patternMatches (mk p) url) ps.
Proof.
  unfold Main.compileInto. revert acc.
  induction ps as [|p ps IH]; intros acc; simpl.
  - now rewrite orb_false_r.
  - rewrite IH. unfold Spec.patternMatches at 2.
    destruct (Go.Compile (mk p)) as [regex|].
    + rewrite anyMatch_app. simpl. rewrite orb_false_r. now rewrite orb_assoc.
    + reflexivity.
Qed.

Lemma compileRegexes_compiled (c : Main.URLChecker) :
  Main.compiledOnce (Main.compileRegexes pats c) = true.
Proof. unfold Main.compileRegexes. destruct (Main.compiledOnce c) eqn:E; [exact E | reflexivity]. Qed.

(** [sync.Once]: compiling again changes nothing. *)
Lemma compileRegexes_idempotent (c : Main.URLChecker) :
  Main.compileRegexes pats (Main.compileRegexes pats c) = Main.compileRegexes pats c.
Proof.
  unfold Main.compileRegexes at 1. now rewrite compileRegexes_compiled.
Qed.

(** The checker after a call is the checker itself or its compilation. *)
Lemma isSuspicious_checker (c : Main.URLChecker) (url : string) :
  fst (Main.isSuspicious pats c url) = c \/
  fst (Main.isSuspicious pats c url) = Main.compileRegexes pats c.
Proof.
  unfold Main.isSuspicious.
  destruct (String.eqb url "" || (Main.maxURLLength <? Go.len url)); [left | right]; reflexivity.
Qed.

(** The results of a call only depend on the compilation of the checker. *)
Lemma isSuspicious_compiled (c : Main.URLChecker) (url : string) :
  snd (Main.isSuspicious pats (Main.compileRegexes pats c) url)
  = snd (Main.isSuspicious pats c url).
Proof.
  unfold Main.isSuspicious.
  destruct (String.eqb url "" || (Main.maxURLLength <? Go.len url)); [reflexivity |].
  simpl. now rewrite compileRegexes_idempotent.
Qed.

Lemma isSuspicious_after (c : Main.URLChecker) (url' url : string) :
  snd (Main.isSuspicious pats (fst (Main.isSuspicious pats c url')) url)
  = snd (Main.isSuspicious pats c url).
Proof.
  destruct (isSuspicious_checker c url') as [-> | ->];
    [reflexivity | apply isSuspicious_compiled].
Qed.

Lemma matchCompiled_excluded (c : Main.URLChecker) (url : string) :
  Main.anyMatch (Main.excludeRegexes c) url = true ->
  Main.matchCompiled c url = (false, "", "").
Proof. unfold Main.matchCompiled. now intros ->. Qed.

(** The loops return not-matched or the verdict of a category. *)
Lemma matchCompiled_cases (c : Main.URLChecker) (url : string) :
  Main.matchCompiled c url = (false, "", "") \/
  exists cat, Main.matchCompiled c url = Spec.verdict (Some cat).
Proof.
  unfold Main.matchCompiled.
  destruct (Main.anyMatch (Main.excludeRegexes c) url); [now left |].
  destruct (Main.anyMatch (Main.keywordRegexes c) url);
    [right; now exists Spec.keywords |].
  destruct (Main.anyMatch (Main.extensionRegexes c) url);
    [right; now exists Spec.extensions |].
  destruct (Main.anyMatch (Main.pathRegexes c) url);
    [right; now exists Spec.paths |].
  destruct (Main.anyMatch (Main.hiddenRegexes c) url);
    [right; now exists Spec.hidden | now left].
Qed.

Lemma isSuspicious_cases (c : Main.URLChecker) (url : string) :
  snd (Main.isSuspicious pats c url) = (false, "", "") \/
  exists cat, snd (Main.isSuspicious pats c url) = Spec.verdict (Some cat).
Proof.
  unfold Main.isSuspicious.
  destruct (String.eqb url "" || (Main.maxURLLength <? Go.len url)); [now left |].
  apply matchCompiled_cases.
Qed.

Lemma IsSuspicious_cases (c : Checker.URLChecker) (url : string) :
  Checker.IsSuspicious c url = (false, "", "") \/
  exists cat, Checker.IsSuspicious c url = Spec.verdict (Some cat).
Proof.
  unfold Checker.IsSuspicious.
  destruct (String.eqb url ""); [now left |].
  destruct (Checker.anyMatch (Checker.excludeRegexes c) url); [now left |].
  destruct (Checker.anyMatch (Checker.keywordRegexes c) url);
    [right; now exists Spec.keywords |].
  destruct (Checker.anyMatch (Checker.extensionRegexes c) url);
    [right; now exists Spec.extensions |].
  destruct (Checker.anyMatch (Checker.pathRegexes c) url);
    [right; now exists Spec.paths |].
  destruct (Checker.anyMatch (Checker.hiddenRegexes c) url);
    [right; now exists Spec.hidden | now left].
Qed.

Lemma coupled_notMatched : Spec.coupled (false, "", "").
Proof. repeat split; intros; congruence. Qed.

Lemma coupled_verdict (cat : Spec.Category) : Spec.coupled (Spec.verdict (Some cat)).
Proof.
  simpl. repeat split; intros; try congruence; try (now destruct cat); now exists cat.
Qed.

End Classifier.

(** C1.  A URL that matches one of the compiled exclusion expressions is
    not matched: [isSuspicious] of [main.go] and [IsSuspicious] of package
    [checker] both return [(false, "", "")], whatever the flags and the
    other compiled lists of the checker are. *)
Theorem exclusion_always_wins (L : Go.Lib) (pats : Suspicious.Patterns)
    (c : Main.URLChecker) (c' : Checker.URLChecker) (url : string) :
  ((exists regex, In regex (Main.excludeRegexes (Main.compileRegexes pats c)) /\
                  Go.MatchString regex url = true) ->
   snd (Main.isSuspicious pats c url) = (false, "", "")) /\
  ((exists regex, In regex (Checker.excludeRegexes c') /\
                  Go.MatchString regex url = true) ->
   Checker.IsSuspicious c' url = (false, "", "")).
Proof.
  split; intros H.
  - apply existsb_exists in H.
    unfold Main.isSuspicious.
    destruct (String.eqb url "" || (Main.maxURLLength <? Go.len url)); [reflexivity |].
    simpl. now apply matchCompiled_excluded.
  - apply existsb_exists in H.
    unfold Checker.IsSuspicious.
    destruct (String.eqb url ""); [reflexivity |].
    unfold Checker.anyMatch at 1. now rewrite H.
Qed.

(** C10.  The three results are coupled, for every checker and every URL:
    matched exactly when the category is not empty and exactly when the
    reason is not empty; when not matched both are empty; when matched the
    category is one of keywords, extensions, paths, hidden. *)
Theorem verdict_coupling (L : Go.Lib) (pats : Suspicious.Patterns)
    (c : Main.URLChecker) (c' : Checker.URLChecker) (url : string) :
  Spec.coupled (snd (Main.isSuspicious pats c url)) /\
  Spec.coupled (Checker.IsSuspicious c' url).
Proof.
  split.
  - destruct (isSuspicious_cases pats c url) as [-> | [cat ->]];
      [apply coupled_notMatched | apply coupled_verdict].
  - destruct (IsSuspicious_cases c' url) as [-> | [cat ->]];
      [apply coupled_notMatched | apply coupled_verdict].
Qed.

(** ** What a newly built checker answers *)
Section Fresh.
Context {L : Go.Lib}.
Variable pats : Suspicious.Patterns.

(** A category's compiled list matches exactly when its pattern list
    does. *)
Lemma compiled_category (cat : Spec.Category) (url : string) :
  Main.anyMatch
    (Main.compileInto (Spec.expression cat) (Spec.patternList pats cat) []) url
  = Spec.categoryMatches pats cat url.
Proof. now rewrite anyMatch_compileInto. Qed.

Lemma compiled_excludes (excludes : list string) (url : string) :
  Main.anyMatch (Main.compileInto Main.substringPattern excludes []) url
  = Spec.excluded excludes url.
Proof. now rewrite anyMatch_compileInto. Qed.

Ltac by_precedence :=
  change (Main.compileInto Main.substringPattern (Suspicious.Keywords pats) [])
    with (Main.compileInto (Spec.expression Spec.keywords)
            (Spec.patternList pats Spec.keywords) []);
  change (Main.compileInto Main.extensionPattern (Suspicious.Extensions pats) [])
    with (Main.compileInto (Spec.expression Spec.extensions)
            (Spec.patternList pats Spec.extensions) []);
  change (Main.compileInto Main.substringPattern (Suspicious.Paths pats) [])
    with (Main.compileInto (Spec.expression Spec.paths)
            (Spec.patternList pats Spec.paths) []);
  change (Main.compileInto Main.substringPattern (Suspicious.Hidden pats) [])
    with (Main.compileInto (Spec.expression Spec.hidden)
            (Spec.patternList pats Spec.hidden) []);
  rewrite ?compiled_category;
  unfold Spec.firstMatch, Spec.precedence; simpl;
  repeat match goal with
         | |- context [Spec.categoryMatches pats ?cat ?url] =>
             destruct (Spec.categoryMatches pats cat url); simpl
         end;
  reflexivity.

(** The loops on the compilation of a checker literal: exclusion first,
    then the first enabled category, in the order of precedence, whose
    pattern list matches. *)
Lemma matchCompiled_fresh (kw ext pa hi : bool) (excludes : list string) (url : string) :
  Main.matchCompiled
    (Main.compileRegexes pats (Main.newURLChecker kw ext pa hi excludes)) url
  = if Spec.excluded excludes url then (false, "", "")
    else Spec.verdict (Spec.firstMatch pats (Spec.enabled kw ext pa hi) url).
Proof.
  unfold Main.matchCompiled, Main.compileRegexes, Main.newURLChecker; simpl.
  rewrite compiled_excludes.
  destruct (Spec.excluded excludes url); [reflexivity |].
  destruct kw, ext, pa, hi; simpl; by_precedence.
Qed.

Lemma after_stage (c : Main.URLChecker) (earlier : list string) :
  Spec.after pats c earlier = c \/ Spec.after pats c earlier = Main.compileRegexes pats c.
Proof.
  unfold Spec.after. revert c. induction earlier as [|u earlier IH]; intros c; simpl.
  - now left.
  - destruct (isSuspicious_checker pats c u) as [-> | ->]; [apply IH |].
    destruct (IH (Main.compileRegexes pats c)) as [-> | ->]; right;
      [reflexivity | apply compileRegexes_idempotent].
Qed.

Lemma isSuspicious_after_all (c : Main.URLChecker) (earlier : list string) (url : string) :
  snd (Main.isSuspicious pats (Spec.after pats c earlier) url) = snd (Main.isSuspicious pats c url).
Proof.
  destruct (after_stage c earlier) as [-> | ->];
    [reflexivity | apply isSuspicious_compiled].
Qed.

(** [isSuspicious] on a checker literal, in the specification's terms. *)
Lemma isSuspicious_fresh (kw ext pa hi : bool) (excludes : list string) (url : string) :
  snd (Main.isSuspicious pats (Main.newURLChecker kw ext pa hi excludes) url)
  = if String.eqb url "" || (Main.maxURLLength <? Go.len url) then (false, "", "")
    else if Spec.excluded excludes url then (false, "", "")
    else Spec.verdict (Spec.firstMatch pats (Spec.enabled kw ext pa hi) url).
Proof.
  unfold Main.isSuspicious.
  destruct (String.eqb url "" || (Main.maxURLLength <? Go.len url)); [reflexivity |].
  apply matchCompiled_fresh.
Qed.

Lemma enable_pristine (uc : Checker.URLChecker) (category : string) :
  Spec.pristine uc -> Spec.pristine (Checker.enable uc category).
Proof.
  unfold Checker.enable.
  repeat match goal with
         | |- context [if ?b then _ else _] => destruct b
         end; trivial.
Qed.

Lemma enable_excludes (uc : Checker.URLChecker) (category : string) :
  Checker.excludePatterns (Checker.enable uc category) = Checker.excludePatterns uc.
Proof.
  unfold Checker.enable.
  repeat match goal with
         | |- context [if ?b then _ else _] => destruct b
         end; reflexivity.
Qed.

Lemma enable_all_pristine (categories : list string) (uc : Checker.URLChecker) :
  Spec.pristine uc -> Spec.pristine (fold_left Checker.enable categories uc).
Proof.
  revert uc. induction categories as [|cat cats IH]; intros uc H; simpl; [exact H |].
  apply IH, enable_pristine, H.
Qed.

Lemma compileRegexes_flags (uc : Checker.URLChecker) :
  Spec.flags (Checker.compileRegexes pats uc) = Spec.flags uc.
Proof. unfold Checker.compileRegexes. now destruct (Checker.compiledOnce uc). Qed.

Lemma compileRegexes_excludes (uc : Checker.URLChecker) :
  Checker.excludePatterns (Checker.compileRegexes pats uc) = Checker.excludePatterns uc.
Proof. unfold Checker.compileRegexes. now destruct (Checker.compiledOnce uc). Qed.

(** [IsSuspicious] on the compilation of a pristine checker. *)
Lemma IsSuspicious_pristine (uc : Checker.URLChecker) (url : string) :
  Spec.pristine uc ->
  Checker.IsSuspicious (Checker.compileRegexes pats uc) url
  = if String.eqb url "" then (false, "", "")
    else if Spec.excluded (Checker.excludePatterns uc) url then (false, "", "")
    else Spec.verdict (Spec.firstMatch pats (Spec.flags uc) url).
Proof.
  intros (He & Hk & Hx & Hp & Hh & Hc).
  unfold Checker.IsSuspicious, Checker.compileRegexes. rewrite Hc; simpl.
  destruct (String.eqb url ""); [reflexivity |].
  rewrite He, Hk, Hx, Hp, Hh.
  change Checker.anyMatch with Main.anyMatch.
  change Checker.compileInto with Main.compileInto.
  change Checker.substringPattern with Main.substringPattern.
  change Checker.extensionPattern with Main.extensionPattern.
  rewrite compiled_excludes.
  destruct (Spec.excluded (Checker.excludePatterns uc) url); [reflexivity |].
  unfold Spec.flags.
  destruct (Checker.checkKeywords uc), (Checker.checkExtensions uc),
    (Checker.checkPaths uc), (Checker.checkHidden uc); simpl; by_precedence.
Qed.

(** [NewURLChecker] compiles a pristine checker. *)
Lemma NewURLChecker_pristine (categories excludes : string) :
  exists uc, Spec.pristine uc /\
             Checker.NewURLChecker pats categories excludes = Checker.compileRegexes pats uc.
Proof.
  unfold Checker.NewURLChecker. eexists; split; [| reflexivity].
  assert (Spec.pristine Checker.zero) as Hz by (repeat split).
  assert (Spec.pristine (if negb (String.eqb excludes "")
                    then Checker.setExcludes Checker.zero excludes else Checker.zero)) as H0
    by (destruct (negb (String.eqb excludes "")); repeat split).
  destruct (negb (String.eqb categories "")).
  - now apply enable_all_pristine.
  - destruct H0 as (? & ? & ? & ? & ? & ?). repeat split; assumption.
Qed.

(** [IsSuspicious] on a checker of [NewURLChecker], in the specification's
    terms; the enabled categories are the flags of the checker. *)
Lemma IsSuspicious_New (categories excludes : string) (url : string) :
  let c := Checker.NewURLChecker pats categories excludes in
  Checker.IsSuspicious c url
  = if String.eqb url "" then (false, "", "")
    else if Spec.excluded (Checker.excludePatterns c) url then (false, "", "")
    else Spec.verdict (Spec.firstMatch pats (Spec.flags c) url).
Proof.
  destruct (NewURLChecker_pristine categories excludes) as (uc & Hp & E).
  simpl. rewrite E, compileRegexes_flags, compileRegexes_excludes.
  now apply IsSuspicious_pristine.
Qed.

Lemma firstMatch_enabled (en : Spec.Enabled) (url : string) (cat : Spec.Category) :
  Spec.firstMatch pats en url = Some cat -> en cat = true.
Proof.
  unfold Spec.firstMatch. intros H. apply find_some in H as [_ H].
  now apply andb_true_iff in H.
Qed.

Lemma verdict_category (en : Spec.Enabled) (url : string) :
  let category := snd (fst (Spec.verdict (Spec.firstMatch pats en url))) in
  category = "" \/ Spec.namesEnabled en category.
Proof.
  simpl. destruct (Spec.firstMatch pats en url) as [cat|] eqn:E; simpl; [right | now left].
  exists cat. split; [reflexivity | now apply firstMatch_enabled in E].
Qed.

End Fresh.

(** C6.  A category disabled when the classifier is built labels no
    result: for every choice of the four flags, every exclusion list and
    every URL, also after the checker has classified other URLs, the
    category [isSuspicious] returns is empty or names an enabled category;
    likewise for a checker of [NewURLChecker], whose flags are read off
    the checker. *)
Theorem disabled_category_never_reported (L : Go.Lib) (pats : Suspicious.Patterns) :
  (forall (kw ext pa hi : bool) (excludes earlier : list string) (url : string),
     let c := Spec.after pats (Main.newURLChecker kw ext pa hi excludes) earlier in
     let category := snd (fst (snd (Main.isSuspicious pats c url))) in
     category = "" \/ Spec.namesEnabled (Spec.enabled kw ext pa hi) category) /\
  (forall (categories excludes : string) (url : string),
     let c := Checker.NewURLChecker pats categories excludes in
     let category := snd (fst (Checker.IsSuspicious c url)) in
     category = "" \/ Spec.namesEnabled (Spec.flags c) category).
Proof.
  split.
  - intros kw ext pa hi excludes earlier url. simpl.
    rewrite isSuspicious_after_all, isSuspicious_fresh.
    destruct (String.eqb url "" || (Main.maxURLLength <? Go.len url)); [now left |].
    destruct (Spec.excluded excludes url); [now left |].
    apply verdict_category.
  - intros categories excludes url. simpl.
    rewrite IsSuspicious_New.
    destruct (String.eqb url ""); [now left |].
    destruct (Spec.excluded _ url); [now left |].
    apply verdict_category.
Qed.

(** C2.  The precedence of the categories, for the URLs the
    specification has classified: a classification request is a line
    the producer dispatches, so it is not blank, and it is at most
    [maxURLLength] bytes long.  For every such URL that matches no
    exclusion pattern, the result is the verdict of the first of
    keywords, extensions, paths, hidden, restricted to the enabled
    categories, whose pattern list matches; in particular a URL that
    matches an enabled keyword is reported under "keywords" whatever
    else it matches.  For package [checker] the equation holds at every
    length; that it classifies overlong URLs at all is the subject of
    C5. *)
Theorem precedence_of_categories (L : Go.Lib) (pats : Suspicious.Patterns) :
  (forall (kw ext pa hi : bool) (excludes earlier : list string) (url : string),
     url <> "" -> Go.len url <= Main.maxURLLength ->
     Spec.excluded excludes url = false ->
     let c := Spec.after pats (Main.newURLChecker kw ext pa hi excludes) earlier in
     snd (Main.isSuspicious pats c url)
     = Spec.verdict (Spec.firstMatch pats (Spec.enabled kw ext pa hi) url) /\
     (kw = true -> Spec.categoryMatches pats Spec.keywords url = true ->
      snd (Main.isSuspicious pats c url)
      = (true, "keywords", "Contains suspicious keyword"))) /\
  (forall (categories excludes : string) (url : string),
     let c := Checker.NewURLChecker pats categories excludes in
     url <> "" ->
     Spec.excluded (Checker.excludePatterns c) url = false ->
     Checker.IsSuspicious c url
     = Spec.verdict (Spec.firstMatch pats (Spec.flags c) url) /\
     (Checker.checkKeywords c = true ->
      Spec.categoryMatches pats Spec.keywords url = true ->
      Checker.IsSuspicious c url = (true, "keywords", "Contains suspicious keyword"))).
Proof.
  split.
  - intros kw ext pa hi excludes earlier url Hne Hlen Hex. simpl.
    rewrite isSuspicious_after_all, isSuspicious_fresh, Hex.
    apply String.eqb_neq in Hne. rewrite Hne.
    apply Z.ltb_ge in Hlen. rewrite Hlen. simpl.
    split; [reflexivity |].
    intros -> Hk. unfold Spec.firstMatch, Spec.precedence. simpl. now rewrite Hk.
  - intros categories excludes url c Hne Hex. subst c.
    rewrite IsSuspicious_New, Hex.
    apply String.eqb_neq in Hne. rewrite Hne.
    split; [reflexivity |].
    intros Hkw Hk. unfold Spec.firstMatch, Spec.precedence, Spec.flags. simpl.
    now rewrite Hkw, Hk.
Qed.

(** A URL with the keyword and the extension of the test tables is
    reported under "keywords", by both classifiers. *)
Lemma precedence_of_categories_witness :
  snd (Main.isSuspicious AsciiLib.testPatterns Inputs.testChecker
         "https://example.com/badword.exe")
  = (true, "keywords", "Contains suspicious keyword") /\
  Checker.IsSuspicious (L := AsciiLib.lib)
    (Checker.NewURLChecker AsciiLib.testPatterns "" "safe.com")
    "https://example.com/badword.exe"
  = (true, "keywords", "Contains suspicious keyword").
Proof.
  destruct (precedence_of_categories AsciiLib.lib AsciiLib.testPatterns) as [Hm Hc].
  split.
  - destruct (Hm true true true true ["safe.com"] [] "https://example.com/badword.exe")
      as [_ H]; [discriminate | vm_compute; discriminate | reflexivity |].
    apply H; reflexivity.
  - destruct (Hc "" "safe.com" "https://example.com/badword.exe")
      as [_ H]; [discriminate | reflexivity |].
    apply H; reflexivity.
Defined.

(** A URL excluded by "safe.com" is not matched although it contains a
    keyword. *)
Lemma exclusion_always_wins_witness :
  snd (Main.isSuspicious AsciiLib.testPatterns Inputs.testChecker "http://safe.com/badword")
  = (false, "", "") /\
  Checker.IsSuspicious (L := AsciiLib.lib)
    (Checker.NewURLChecker AsciiLib.testPatterns "" "safe.com")
    "http://safe.com/badword"
  = (false, "", "").
Proof.
  destruct (exclusion_always_wins AsciiLib.lib AsciiLib.testPatterns Inputs.testChecker
              (Checker.NewURLChecker AsciiLib.testPatterns "" "safe.com")
              "http://safe.com/badword") as [Hm Hc].
  split; [apply Hm | apply Hc];
    (eexists; split; [left; reflexivity | reflexivity]).
Defined.

(** ** Overlong URLs *)

(** [isSuspicious] of [main.go] rejects every overlong URL. *)
Lemma isSuspicious_overlong (L : Go.Lib) (pats : Suspicious.Patterns)
    (c : Main.URLChecker) (url : string) :
  Main.maxURLLength < Go.len url ->
  snd (Main.isSuspicious pats c url) = (false, "", "").
Proof.
  intros H. unfold Main.isSuspicious.
  apply Z.ltb_lt in H. rewrite H. now rewrite orb_true_r.
Qed.

(** C5, at the failing input.  [IsSuspicious] of package [checker] has no
    length guard: [longBadURL], longer than [MaxURLLength], is reported
    under "keywords" by a checker of [NewURLChecker] with every category
    enabled. *)
Theorem IsSuspicious_matches_overlong :
  Config.MaxURLLength < Go.len Inputs.longBadURL /\
  Checker.IsSuspicious (L := AsciiLib.lib)
    (Checker.NewURLChecker AsciiLib.testPatterns "" "") Inputs.longBadURL
  = (true, "keywords", "Contains suspicious keyword").
Proof. split; vm_compute; reflexivity. Qed.

(** [isValidURL] of [main.go] on the cases of [TestIsValidURL], for every
    [url.Parse] that accepts the two well-formed ones. *)
Lemma isValidURL_cases (L : Go.Lib) :
  Go.ParseOk "http://example.com" = true ->
  Go.ParseOk "no-scheme.com" = true ->
  Main.isValidURL "http://example.com" = true /\
  Main.isValidURL "no-scheme.com" = true /\
  Main.isValidURL "justtext" = false /\
  Main.isValidURL "" = false /\
  (forall url, Main.maxURLLength < Go.len url -> Main.isValidURL url = false).
Proof.
  intros H1 H2. unfold Main.isValidURL. rewrite H1, H2.
  repeat split; try reflexivity.
  - simpl. now destruct (Go.ParseOk "justtext").
  - intros url H. apply Z.ltb_lt in H. rewrite H. now rewrite orb_true_r.
Qed.

(** [IsValidURL] of package [checker] on the other cases of the test. *)
Lemma IsValidURL_cases (L : Go.Lib) :
  Go.ParseOk "http://example.com" = true ->
  Go.ParseOk "no-scheme.com" = true ->
  Checker.IsValidURL "http://example.com" = true /\
  Checker.IsValidURL "no-scheme.com" = true /\
  Checker.IsValidURL "justtext" = false /\
  Checker.IsValidURL "" = false.
Proof.
  intros H1 H2. unfold Checker.IsValidURL. rewrite H1, H2.
  repeat split; try reflexivity.
  simpl. now destruct (Go.ParseOk "justtext").
Qed.

(** C4, at the failing input.  [IsValidURL] of package [checker] has no
    length guard: for every [url.Parse] that accepts it, [longURL] of
    [TestIsValidURL], longer than [MaxURLLength], is valid. *)
Theorem IsValidURL_accepts_overlong (L : Go.Lib) :
  Go.ParseOk Inputs.longURL = true ->
  Config.MaxURLLength < Go.len Inputs.longURL /\
  Checker.IsValidURL Inputs.longURL = true.
Proof.
  intros H. split; [vm_compute; reflexivity |].
  assert ((Go.len Inputs.longURL =? 0) = false) as E1 by (vm_compute; reflexivity).
  assert (Go.HasPrefix Inputs.longURL "http://" = true) as E2 by (vm_compute; reflexivity).
  unfold Checker.IsValidURL. rewrite E1, H, E2. reflexivity.
Qed.

Lemma IsValidURL_accepts_overlong_witness :
  Config.MaxURLLength < Go.len Inputs.longURL /\
  Checker.IsValidURL (L := AsciiLib.lib) Inputs.longURL = true.
Proof.
  apply (IsValidURL_accepts_overlong AsciiLib.lib). vm_compute. reflexivity.
Defined.

(** ** The cases of the repository's tests *)

Example TestIsValidURL :
  map (Main.isValidURL (L := AsciiLib.lib))
      ["http://example.com"; "https://foo.bar/baz"; "ftp://fileserver.local";
       "no-scheme.com"; "justtext"; ""; Inputs.longURL]
  = [true; true; true; true; false; false; false].
Proof. vm_compute. reflexivity. Qed.

Example TestURLCheckerIsSuspicious :
  map (fun url => fst (snd (Main.isSuspicious AsciiLib.testPatterns Inputs.testChecker url)))
      ["http://safe.com/badword"; "http://example.com/badword";
       "https://example.com/malware.exe"; "https://example.com/evil/path";
       "https://example.com/.git/config"; "https://example.com/clean"]
  = [(false, ""); (true, "keywords"); (true, "extensions"); (true, "paths");
     (true, "hidden"); (false, "")].
Proof. vm_compute. reflexivity. Qed.

(** ** The number of workers *)

Lemma int_div_small (n : Z) : 0 <= n < 1000 -> Go.int_div n 10 = n / 10.
Proof.
  intros H. unfold Go.int_div.
  rewrite Z.quot_div_nonneg by lia.
  apply wrap_small. unfold Go.MinInt, Go.MaxInt.
  assert (0 <= n / 10 <= n) by (split; [apply Z.div_pos | apply Z.div_le_upper_bound]; lia).
  lia.
Qed.

Lemma numWorkersFor_small (L : Go.Lib) (config : Main.Config) (n : Z) :
  0 <= n < 1000 -> Main.numWorkersFor config n <= n / 10 + 1.
Proof.
  intros H. unfold Main.numWorkersFor.
  assert (0 <= n / 10 <= n) by (split; [apply Z.div_pos | apply Z.div_le_upper_bound]; lia).
  destruct (Z.ltb_spec n 1000) as [_ | ?]; [| lia].
  rewrite int_div_small by exact H.
  rewrite int_add_small by (unfold Go.MinInt, Go.MaxInt; lia).
  unfold Main.min.
  match goal with |- context [if ?a <? ?b then _ else _] => destruct (Z.ltb_spec a b) end; lia.
Qed.

(** C9.  For fewer than 1000 URLs and every configured worker count (and
    every number of CPUs), [processURLs] starts at most [len(urls)/10 + 1]
    workers: that bounds [numWorkers], the number of worker goroutines
    started and the size of the pool of the pipeline. *)
Theorem workers_bounded_for_small_inputs (L : Go.Lib) (config : Main.Config)
    (c : Main.URLChecker) (ctx : option Go.error) (urls : list string) :
  Go.len_slice urls < 1000 ->
  Main.numWorkersFor config (Go.len_slice urls) <= Go.len_slice urls / 10 + 1 /\
  Main.workersStarted config urls <= Go.len_slice urls / 10 + 1 /\
  Go.len_slice (Main.pool (Main.spawn config c ctx urls)) <= Go.len_slice urls / 10 + 1.
Proof.
  intros H.
  assert (0 <= Go.len_slice urls) as H0 by (unfold Go.len_slice; lia).
  assert (0 <= Go.len_slice urls / 10) by (apply Z.div_pos; lia).
  pose proof (numWorkersFor_small L config (Go.len_slice urls) (conj H0 H)) as Hn.
  split; [exact Hn |]. split.
  - unfold Main.workersStarted. destruct (Go.len_slice urls =? 0); lia.
  - unfold Main.spawn; simpl. unfold Go.len_slice at 1.
    rewrite length_replicate. lia.
Qed.

(** Four URLs and 64 configured workers: one worker. *)
Lemma workers_bounded_for_small_inputs_witness :
  Main.workersStarted (L := AsciiLib.lib)
    {| Main.outputPath := ""; Main.workers := 64; Main.verbose := false;
       Main.validateURLs := true |}
    ["http://clean.com"; "http://bad.com/evil"; "http://bad.com/evil.exe"; "://invalid-url"]
  <= 1.
Proof.
  apply (workers_bounded_for_small_inputs AsciiLib.lib
           {| Main.outputPath := ""; Main.workers := 64; Main.verbose := false;
              Main.validateURLs := true |}
           Inputs.testChecker None
           ["http://clean.com"; "http://bad.com/evil"; "http://bad.com/evil.exe";
            "://invalid-url"]).
  vm_compute. reflexivity.
Defined.

(** ** Deduplication *)
Section Dedup.

Implicit Types (r : Main.Result) (results unique : list Main.Result).

Lemma filter_filter_implied {A} (f g : A -> bool) (l : list A) :
  (forall x, f x = true -> g x = true) ->
  List.filter f (List.filter g l) = List.filter f l.
Proof.
  intros H. induction l as [|x l IH]; simpl; [reflexivity |].
  destruct (g x) eqn:Eg; simpl.
  - destruct (f x); now rewrite IH.
  - destruct (f x) eqn:Ef; [apply H in Ef; congruence | exact IH].
Qed.

Lemma filter_andb {A} (f g : A -> bool) (l : list A) :
  List.filter (fun x => f x && g x) l = List.filter f (List.filter g l).
Proof.
  induction l as [|x l IH]; simpl; [reflexivity |].
  destruct (g x); simpl.
  - rewrite andb_true_r. destruct (f x); now rewrite IH.
  - rewrite andb_false_r. exact IH.
Qed.

Lemma fresh_snoc unique r x :
  Spec.fresh (unique ++ [r]) x = Spec.fresh unique x && Spec.differs r x.
Proof.
  unfold Spec.fresh, Spec.differs. rewrite existsb_app. simpl.
  rewrite orb_false_r, (String.eqb_sym (Main.URL x)). apply negb_orb.
Qed.

Lemma fresh_differs unique r x :
  Spec.fresh unique r = false -> Spec.fresh unique x = true -> Spec.differs r x = true.
Proof.
  unfold Spec.fresh, Spec.differs. intros Hr Hx.
  apply negb_false_iff, existsb_exists in Hr as (r' & Hin & Hr').
  apply String.eqb_eq in Hr'.
  apply negb_true_iff. apply String.eqb_neq. intros E.
  apply negb_true_iff in Hx.
  assert (existsb (fun r'0 => String.eqb (Main.URL r'0) (Main.URL x)) unique = true) as C.
  { apply existsb_exists. exists r'. split; [exact Hin |].
    apply String.eqb_eq. congruence. }
  congruence.
Qed.

(** The loop of [removeDuplicates], from any of its states in which [seen]
    holds the URLs of [unique]. *)
Lemma dedup_loop results : forall (seen : gset string) unique,
  (forall url, url ∈ seen <->
               existsb (fun r' => String.eqb (Main.URL r') url) unique = true) ->
  snd (fold_left Main.dedupStep results (seen, unique))
  = (unique ++ List.filter (Spec.fresh unique) (Spec.firstOccurrences results))%list.
Proof.
  induction results as [|r results IH]; intros seen unique Hseen; simpl.
  - now rewrite app_nil_r.
  - destruct (decide (Main.URL r ∈ seen)) as [Hin | Hout].
    + assert (Spec.fresh unique r = false) as Hr
        by (unfold Spec.fresh; apply Hseen in Hin; now rewrite Hin).
      rewrite Hr, (IH seen unique Hseen).
      f_equal. symmetry. apply filter_filter_implied.
      intros x Hx. exact (fresh_differs unique r x Hr Hx).
    + assert (Spec.fresh unique r = true) as Hr.
      { unfold Spec.fresh. apply negb_true_iff.
        destruct (existsb _ unique) eqn:E; [| reflexivity].
        now apply Hseen in E. }
      rewrite Hr. rewrite (IH ({[Main.URL r]} ∪ seen) (unique ++ [r])%list).
      * rewrite <- app_assoc. simpl. do 2 f_equal.
        rewrite <- filter_andb. apply filter_ext. intros x. apply fresh_snoc.
      * intros url. rewrite existsb_app. simpl. rewrite orb_false_r.
        rewrite elem_of_union, elem_of_singleton, (Hseen url), orb_true_iff.
        rewrite String.eqb_eq. intuition congruence.
Qed.

Lemma removeDuplicates_firstOccurrences results :
  Main.removeDuplicates results = Spec.firstOccurrences results.
Proof.
  unfold Main.removeDuplicates.
  rewrite dedup_loop.
  - simpl. clear. induction (Spec.firstOccurrences results) as [|x l IH];
      simpl; [reflexivity | now rewrite IH].
  - intros url. simpl. split; [intros H; now apply not_elem_of_empty in H | discriminate].
Qed.

Lemma firstOccurrences_urls results (url : string) :
  In url (map Main.URL (Spec.firstOccurrences results)) <-> In url (map Main.URL results).
Proof.
  induction results as [|r results IH]; simpl; [reflexivity |].
  rewrite <- IH. clear IH. rewrite !in_map_iff. split.
  - intros [E | (x & Ex & Hin)]; [now left |].
    apply filter_In in Hin as [Hin _]. right. now exists x.
  - intros [E | (x & Ex & Hin)]; [now left |].
    destruct (String.eqb (Main.URL x) (Main.URL r)) eqn:Exr.
    + apply String.eqb_eq in Exr. left. congruence.
    + right. exists x. split; [exact Ex |].
      apply filter_In. split; [exact Hin | unfold Spec.differs; now rewrite Exr].
Qed.

Lemma firstOccurrences_NoDup results :
  NoDup (map Main.URL (Spec.firstOccurrences results)).
Proof.
  induction results as [|r results IH]; simpl; [constructor |].
  apply NoDup_cons_2.
  - rewrite list_elem_of_In, in_map_iff. intros (x & Ex & Hin).
    apply filter_In in Hin as [_ Hne]. unfold Spec.differs in Hne.
    apply negb_true_iff, String.eqb_neq in Hne. congruence.
  - clear -IH. induction (Spec.firstOccurrences results) as [|x l IHl]; simpl; [constructor |].
    apply NoDup_cons in IH as [Hx Hl].
    destruct (Spec.differs r x); simpl; [| now apply IHl].
    apply NoDup_cons_2; [| now apply IHl].
    rewrite list_elem_of_In in *. intros Hin. apply Hx.
    apply in_map_iff in Hin as (y & Ey & Hy). apply filter_In in Hy as [Hy _].
    apply in_map_iff. now exists y.
Qed.

Lemma firstOccurrences_first results r :
  In r (Spec.firstOccurrences results) ->
  find (fun r' => String.eqb (Main.URL r') (Main.URL r)) results = Some r.
Proof.
  induction results as [|r0 results IH]; simpl; [tauto |].
  intros [-> | Hin].
  - now rewrite String.eqb_refl.
  - apply filter_In in Hin as [Hin Hne]. unfold Spec.differs in Hne.
    apply negb_true_iff in Hne. rewrite String.eqb_sym in Hne. rewrite Hne. now apply IH.
Qed.

Lemma StronglySorted_map_filter {A} (f : A -> nat) (g : A -> bool) (l : list A) :
  StronglySorted lt (map f l) -> StronglySorted lt (map f (List.filter g l)).
Proof.
  induction l as [|x l IH]; simpl; intros H; [constructor |].
  apply StronglySorted_inv in H as [Hl Hx].
  destruct (g x); simpl; [| now apply IH].
  constructor; [now apply IH |].
  rewrite List.Forall_forall in *. intros y Hy. apply Hx.
  apply in_map_iff in Hy as (z & Ez & Hz). apply filter_In in Hz as [Hz _].
  apply in_map_iff. now exists z.
Qed.

Lemma StronglySorted_map_S (l : list nat) :
  StronglySorted lt l -> StronglySorted lt (map S l).
Proof.
  induction 1 as [|x l Hl IH Hx]; simpl; constructor; [exact IH |].
  rewrite List.Forall_forall in *. intros y Hy.
  apply in_map_iff in Hy as (z & <- & Hz). apply Hx in Hz. lia.
Qed.

Lemma firstOccurrences_order results :
  StronglySorted lt
    (map (fun r => Spec.firstIndex (Main.URL r) results) (Spec.firstOccurrences results)).
Proof.
  induction results as [|r results IH]; simpl; [constructor |].
  rewrite String.eqb_refl.
  rewrite (map_ext_in _ (fun x => S (Spec.firstIndex (Main.URL x) results))).
  - rewrite <- (map_map (fun x => Spec.firstIndex (Main.URL x) results) S).
    constructor.
    + apply StronglySorted_map_S, StronglySorted_map_filter, IH.
    + apply List.Forall_forall. intros y Hy.
      apply in_map_iff in Hy as (z & <- & _). lia.
  - intros x Hx. apply filter_In in Hx as [_ Hne]. unfold Spec.differs in Hne.
    apply negb_true_iff in Hne. rewrite String.eqb_sym in Hne. now rewrite Hne.
Qed.

End Dedup.

(** C7.  [removeDuplicates] keeps the first occurrence of each URL, in the
    order of first occurrence.  On [[{a,k,""},{b,k,""},{a,k,""},{c,k,""}]]
    it returns [[{a,k,""},{b,k,""},{c,k,""}]].  For every list of results
    the output is the list of first occurrences; its URLs are pairwise
    distinct and are the URLs of the input; each of its results is the
    first result of the input with that URL; and the positions in the
    input of the first occurrences of its URLs increase along it. *)
Theorem removeDuplicates_keeps_first_occurrences (results : list Main.Result) :
  let a := {| Main.URL := "a"; Main.Category := "k"; Main.Reason := "" |} in
  let b := {| Main.URL := "b"; Main.Category := "k"; Main.Reason := "" |} in
  let c := {| Main.URL := "c"; Main.Category := "k"; Main.Reason := "" |} in
  Main.removeDuplicates [a; b; a; c] = [a; b; c] /\
  let unique := Main.removeDuplicates results in
  unique = Spec.firstOccurrences results /\
  NoDup (map Main.URL unique) /\
  (forall url, In url (map Main.URL unique) <-> In url (map Main.URL results)) /\
  (forall r, In r unique ->
             find (fun r' => String.eqb (Main.URL r') (Main.URL r)) results = Some r) /\
  StronglySorted lt (map (fun r => Spec.firstIndex (Main.URL r) results) unique).
Proof.
  simpl. split; [now rewrite removeDuplicates_firstOccurrences |].
  rewrite removeDuplicates_firstOccurrences.
  split; [reflexivity |].
  split; [apply firstOccurrences_NoDup |].
  split; [apply firstOccurrences_urls |].
  split; [apply firstOccurrences_first | apply firstOccurrences_order].
Qed.

(** In the list of the test, the result kept for "a" is the first one. *)
Lemma removeDuplicates_keeps_first_occurrences_witness :
  let a := {| Main.URL := "a"; Main.Category := "k"; Main.Reason := "" |} in
  let a' := {| Main.URL := "a"; Main.Category := "later"; Main.Reason := "" |} in
  let b := {| Main.URL := "b"; Main.Category := "k"; Main.Reason := "" |} in
  find (fun r' => String.eqb (Main.URL r') "a") [a; b; a'] = Some a.
Proof.
  intros a a' b.
  destruct (removeDuplicates_keeps_first_occurrences [a; b; a'])
    as (_ & E & _ & _ & H & _).
  apply (H a). rewrite E. left. reflexivity.
Defined.

(** ** The statistics of the pipeline *)
Section Statistics.
Context {L : Go.Lib}.
Variable pats : Suspicious.Patterns.
Variable config : Main.Config.

Implicit Types (c : Main.URLChecker) (p : Main.Pipeline) (log : list string)
  (w : Main.Worker) (o : Spec.Outcome).

Lemma count_nil o c : Spec.count pats o config c [] = 0.
Proof. reflexivity. Qed.

Lemma count_app o c log log' :
  Spec.count pats o config c (log ++ log')
  = Spec.count pats o config c log + Spec.count pats o config c log'.
Proof. unfold Spec.count. rewrite List.filter_app, length_app. lia. Qed.

Lemma count_one o c (url : string) :
  Spec.count pats o config c [url]
  = if Spec.Outcome_eqb (Spec.outcome pats config c url) o then 1 else 0.
Proof. unfold Spec.count. simpl. now destruct (Spec.Outcome_eqb _ o). Qed.

Lemma count_nonneg o c log : 0 <= Spec.count pats o config c log.
Proof. unfold Spec.count. lia. Qed.

(** Every URL of a log has exactly one of the four outcomes. *)
Lemma count_total c log :
  Spec.count pats Spec.Skipped config c log + Spec.count pats Spec.Invalid config c log
  + Spec.count pats Spec.Suspicious config c log + Spec.count pats Spec.Clean config c log
  = Z.of_nat (List.length log).
Proof.
  induction log as [|url log IH]; [reflexivity |].
  change (url :: log) with ([url] ++ log)%list.
  rewrite !count_app, !count_one, length_app. simpl List.length.
  destruct (Spec.outcome pats config c url); simpl; lia.
Qed.

(** Compiling, or a call of [isSuspicious], does not change an outcome. *)
Lemma outcome_after c (url' url : string) :
  Spec.outcome pats config (fst (Main.isSuspicious pats c url')) url
  = Spec.outcome pats config c url.
Proof. unfold Spec.outcome. now rewrite isSuspicious_after. Qed.

Lemma count_after o c (url' : string) log :
  Spec.count pats o config (fst (Main.isSuspicious pats c url')) log
  = Spec.count pats o config c log.
Proof.
  unfold Spec.count. do 2 f_equal. apply filter_ext.
  intros url. now rewrite outcome_after.
Qed.

Lemma tallied_after c (url' : string) log (a b d e : Z) :
  Spec.tallied pats config c log a b d e ->
  Spec.tallied pats config (fst (Main.isSuspicious pats c url')) log a b d e.
Proof. unfold Spec.tallied. now rewrite !count_after. Qed.

Lemma workerTallied_after c (url' : string) w :
  Spec.workerTallied pats config c w ->
  Spec.workerTallied pats config (fst (Main.isSuspicious pats c url')) w.
Proof.
  destruct w as [l counted | l counted r |]; simpl; [apply tallied_after | | trivial].
  intros [H E]. split; [now apply tallied_after | now rewrite outcome_after].
Qed.

(** Replacing a worker of the pool changes the load by the difference. *)
Lemma load_insert (pool : list Main.Worker) (i : nat) w w' :
  pool !! i = Some w ->
  (sum_list_with Spec.load (<[i:=w']> pool) + Spec.load w
   = sum_list_with Spec.load pool + Spec.load w')%nat.
Proof.
  revert i. induction pool as [|x pool IH]; intros [|i] H; simpl in *; try discriminate.
  - injection H as ->. lia.
  - specialize (IH i H). lia.
Qed.

Lemma tallied_bound c log (a b d e : Z) :
  Spec.tallied pats config c log a b d e ->
  0 <= a /\ 0 <= b /\ 0 <= e /\ a <= d /\ a + b <= d /\
  d + e = Z.of_nat (List.length log).
Proof.
  intros (-> & -> & -> & ->).
  pose proof (count_total c log).
  pose proof (count_nonneg Spec.Skipped c log).
  pose proof (count_nonneg Spec.Invalid c log).
  pose proof (count_nonneg Spec.Suspicious c log).
  pose proof (count_nonneg Spec.Clean c log).
  lia.
Qed.

Lemma int_add_counts (a b : Z) :
  0 <= a -> 0 <= b -> a + b <= Go.MaxInt -> Go.int_add a b = a + b.
Proof. intros. apply int_add_small. unfold Go.MinInt. lia. Qed.

Lemma consistent_roomy p : Spec.consistent pats config p <-> Spec.roomy pats config 0 p.
Proof. unfold Spec.consistent, Spec.roomy. now rewrite Nat.add_0_r. Qed.

Lemma worker_load p (i k : nat) w :
  Main.pool p !! i = Some w -> Spec.roomy pats config k p ->
  Z.of_nat (Spec.load w + k) <= Go.MaxInt.
Proof.
  intros Hi (_ & _ & Hn & Hmax).
  pose proof (load_insert (Main.pool p) i w Main.Returned Hi) as E. simpl in E.
  lia.
Qed.

(** A worker takes up to [k] more URLs. *)
Lemma roomy_setWorker p (i k : nat) w w' :
  Main.pool p !! i = Some w ->
  Spec.workerTallied pats config (Main.checker p) w' ->
  (Spec.load w' <= Spec.load w + k)%nat ->
  Spec.roomy pats config k p ->
  Spec.consistent pats config (Main.setWorker i w' p).
Proof.
  intros Hi Hw' Hload (Hs & Hw & Hn & Hmax).
  unfold Spec.consistent; simpl.
  split; [exact Hs |]. split; [now apply Forall_insert |]. split; [| exact Hmax].
  pose proof (load_insert (Main.pool p) i w w' Hi). lia.
Qed.

(** A worker moves its counts to the shared statistics and keeps no URL. *)
Lemma consistent_flush p (i : nat) w w' (l : Main.LocalStats) (counted : list string) :
  Main.pool p !! i = Some w ->
  Spec.tallied pats config (Main.checker p) counted (Main.suspicious l) (Main.invalid l)
    (Main.processed l) (Main.skipped l) ->
  (List.length counted <= Spec.load w)%nat ->
  Spec.workerTallied pats config (Main.checker p) w' ->
  Spec.load w' = 0%nat ->
  Spec.consistent pats config p ->
  Spec.consistent pats config (Main.setWorker i w' (Main.flush l counted p)).
Proof.
  intros Hi Hl Hlen Hw' Hload (Hs & Hw & Hn & Hmax).
  pose proof (load_insert (Main.pool p) i w w' Hi) as E.
  pose proof (tallied_bound _ _ _ _ _ _ Hs) as Bs.
  pose proof (tallied_bound _ _ _ _ _ _ Hl) as Bl.
  unfold Spec.consistent; simpl.
  split; [| split; [now apply Forall_insert | split; [| exact Hmax]]].
  - destruct Hs as (Hs1 & Hs2 & Hs3 & Hs4), Hl as (Hl1 & Hl2 & Hl3 & Hl4).
    unfold Spec.tallied. rewrite !count_app.
    rewrite !int_add_counts by lia. lia.
  - rewrite length_app. lia.
Qed.

(** Steps that touch neither the statistics nor the workers. *)
Lemma consistent_frame p p' :
  Main.stats p' = Main.stats p -> Main.checker p' = Main.checker p ->
  Main.accounted p' = Main.accounted p -> Main.pool p' = Main.pool p ->
  (List.length (Main.urlChan p') + List.length (Main.toSend p')
   = List.length (Main.urlChan p) + List.length (Main.toSend p))%nat ->
  Spec.consistent pats config p -> Spec.consistent pats config p'.
Proof.
  unfold Spec.consistent. intros -> -> -> -> E H.
  destruct H as (Hs & Hw & Hn & Hmax). repeat split; try assumption; try apply Hs. lia.
Qed.

(** Taking a URL from the channel leaves room for it. *)
Lemma roomy_receive p (url : string) (rest : list string) :
  Main.urlChan p = url :: rest ->
  Spec.consistent pats config p ->
  Spec.roomy pats config 1 (Main.receiveURL rest p).
Proof.
  intros E (Hs & Hw & Hn & Hmax). unfold Spec.roomy; simpl.
  rewrite E in Hn. simpl in Hn. repeat split; try assumption; try apply Hs. lia.
Qed.

Lemma roomy_setChecker p (k : nat) (url : string) :
  Spec.roomy pats config k p ->
  Spec.roomy pats config k
    (Main.setChecker (fst (Main.isSuspicious pats (Main.checker p) url)) p).
Proof.
  intros (Hs & Hw & Hn & Hmax). unfold Spec.roomy; simpl.
  split; [now apply tallied_after |]. split; [| split; assumption].
  eapply Forall_impl; [exact Hw |]. intros w. apply workerTallied_after.
Qed.

(** Counting one more URL keeps the local counters a tally. *)
Lemma tallied_snoc c (l l' : Main.LocalStats) (counted : list string) (url : string) o :
  Spec.tallied pats config c counted (Main.suspicious l) (Main.invalid l)
    (Main.processed l) (Main.skipped l) ->
  Z.of_nat (List.length counted) + 1 <= Go.MaxInt ->
  Spec.outcome pats config c url = o ->
  l' = match o with
       | Spec.Skipped => Main.countSkipped l
       | Spec.Invalid => Main.countInvalid l
       | Spec.Suspicious => Main.countProcessed (Main.countSuspicious l)
       | Spec.Clean => Main.countProcessed l
       end ->
  Spec.tallied pats config c (counted ++ [url]) (Main.suspicious l') (Main.invalid l')
    (Main.processed l') (Main.skipped l').
Proof.
  intros Hl Hmax Ho ->.
  pose proof (tallied_bound _ _ _ _ _ _ Hl) as B.
  destruct Hl as (H1 & H2 & H3 & H4).
  unfold Spec.tallied. rewrite !count_app, !count_one, Ho.
  destruct o; simpl; rewrite ?int_add_counts by lia; lia.
Qed.

(** The body of the loop of a worker keeps the invariant. *)
Lemma consistent_handleURL p (i : nat) (l : Main.LocalStats) (counted : list string)
    (url : string) (rest : list string) :
  Main.pool p !! i = Some (Main.Selecting l counted) ->
  Main.urlChan p = url :: rest ->
  Spec.consistent pats config p ->
  Spec.consistent pats config
    (Main.handleURL pats config i l counted url (Main.receiveURL rest p)).
Proof.
  intros Hi E H.
  pose proof (roomy_receive p url rest E H) as R.
  assert (Main.pool (Main.receiveURL rest p) !! i = Some (Main.Selecting l counted)) as Hi'
    by exact Hi.
  pose proof (worker_load _ _ _ _ Hi' R) as Hroom. simpl in Hroom.
  assert (Spec.tallied pats config (Main.checker p) counted (Main.suspicious l)
            (Main.invalid l) (Main.processed l) (Main.skipped l)) as Hl.
  { destruct H as (_ & Hw & _). rewrite Forall_lookup in Hw. exact (Hw i _ Hi). }
  unfold Main.handleURL.
  destruct (String.eqb (Go.TrimSpace url) "") eqn:Eblank.
  { eapply roomy_setWorker; [exact Hi' | | | exact R].
    - cbn [Spec.workerTallied].
      apply (tallied_snoc _ l _ _ _ Spec.Skipped); [exact Hl | lia | | reflexivity].
      unfold Spec.outcome. now rewrite Eblank.
    - simpl. rewrite length_app. simpl. lia. }
  destruct (Main.validateURLs config && negb (Main.isValidURL url)) eqn:Einvalid.
  { eapply roomy_setWorker; [exact Hi' | | | exact R].
    - cbn [Spec.workerTallied].
      apply (tallied_snoc _ l _ _ _ Spec.Invalid); [exact Hl | lia | | reflexivity].
      unfold Spec.outcome. now rewrite Eblank, Einvalid.
    - simpl. rewrite length_app. simpl. lia. }
  change (Main.checker (Main.receiveURL rest p)) with (Main.checker p).
  pose proof (roomy_setChecker _ 1 url R) as R'.
  change (Main.checker (Main.receiveURL rest p)) with (Main.checker p) in R'.
  destruct (Main.isSuspicious pats (Main.checker p) url) as [c' [[matched category] reason]]
    eqn:Esus.
  simpl in R'.
  assert (Spec.outcome pats config c' url
          = if matched then Spec.Suspicious else Spec.Clean) as Ho.
  { replace c' with (fst (Main.isSuspicious pats (Main.checker p) url)) by now rewrite Esus.
    rewrite outcome_after. unfold Spec.outcome. now rewrite Eblank, Einvalid, Esus. }
  assert (Spec.tallied pats config c' counted (Main.suspicious l)
            (Main.invalid l) (Main.processed l) (Main.skipped l)) as Hl'.
  { replace c' with (fst (Main.isSuspicious pats (Main.checker p) url)) by now rewrite Esus.
    now apply tallied_after. }
  destruct matched.
  - eapply roomy_setWorker; [exact Hi' | | | exact R'].
    + simpl. split; [exact Hl' | exact Ho].
    + simpl. lia.
  - eapply roomy_setWorker; [exact Hi' | | | exact R'].
    + cbn [Spec.workerTallied].
      apply (tallied_snoc _ l _ _ _ Spec.Clean); [exact Hl' | lia | exact Ho | reflexivity].
    + simpl. rewrite length_app. simpl. lia.
Qed.

(** Every step keeps the invariant. *)
Lemma step_consistent (e : Main.Event) p p' :
  Main.step pats config e p = Some p' ->
  Spec.consistent pats config p -> Spec.consistent pats config p'.
Proof.
  intros Hstep H.
  destruct e as [| | | i | i | i | i | i | i | |]; simpl in Hstep.
  - (* Deadline *)
    destruct (Main.isDone p); [discriminate |]. injection Hstep as <-.
    now apply (consistent_frame p).
  - (* SenderSend *)
    destruct (Main.toSend p) as [|u rest] eqn:E; [discriminate |].
    destruct (negb (Main.urlChanClosed p) && _); [| discriminate]. injection Hstep as <-.
    apply (consistent_frame p); try reflexivity; [| exact H].
    simpl. rewrite E, length_app. simpl. lia.
  - (* SenderReturn *)
    destruct (negb (Main.urlChanClosed p) && _); [| discriminate]. injection Hstep as <-.
    now apply (consistent_frame p).
  - (* WorkerReceive *)
    destruct (Main.pool p !! i) as [[l counted | |]|] eqn:Hi; try discriminate.
    destruct (Main.urlChan p) as [|u rest] eqn:E; [discriminate |]. injection Hstep as <-.
    now apply consistent_handleURL.
  - (* WorkerClosed *)
    destruct (Main.pool p !! i) as [[l counted | |]|] eqn:Hi; try discriminate.
    destruct (Main.urlChan p); [| discriminate].
    destruct (Main.urlChanClosed p); [| discriminate]. injection Hstep as <-.
    eapply consistent_flush; [exact Hi | | | | | exact H]; simpl; trivial.
    destruct H as (_ & Hw & _). rewrite Forall_lookup in Hw. exact (Hw i _ Hi).
  - (* WorkerTick *)
    destruct (Main.pool p !! i) as [[l counted | |]|] eqn:Hi; try discriminate.
    injection Hstep as <-.
    eapply consistent_flush; [exact Hi | | | | | exact H]; simpl; trivial.
    + destruct H as (_ & Hw & _). rewrite Forall_lookup in Hw. exact (Hw i _ Hi).
    + repeat split.
  - (* WorkerDone *)
    destruct (Main.pool p !! i) as [[l counted | |]|] eqn:Hi; try discriminate.
    destruct (Main.isDone p); [| discriminate]. injection Hstep as <-.
    eapply consistent_flush; [exact Hi | | | | | exact H]; simpl; trivial.
    destruct H as (_ & Hw & _). rewrite Forall_lookup in Hw. exact (Hw i _ Hi).
  - (* WorkerSend *)
    destruct (Main.pool p !! i) as [[| l counted r |]|] eqn:Hi; try discriminate.
    destruct (negb (Main.resultsChanClosed p) && _); [| discriminate]. injection Hstep as <-.
    assert (Spec.consistent pats config (Main.sendResult r p)) as H'
      by now apply (consistent_frame p).
    apply consistent_roomy in H'.
    assert (Main.pool (Main.sendResult r p) !! i = Some (Main.Offering l counted r)) as Hi'
      by exact Hi.
    pose proof (worker_load _ _ _ _ Hi' H') as Hroom. simpl in Hroom.
    eapply roomy_setWorker; [exact Hi' | | | exact H'].
    + destruct H as (_ & Hw & _). rewrite Forall_lookup in Hw.
      destruct (Hw i _ Hi) as [Hl Ho]. cbn [Spec.workerTallied].
      apply (tallied_snoc _ l _ _ _ Spec.Suspicious);
        [exact Hl | lia | exact Ho | reflexivity].
    + simpl. rewrite length_app. simpl. lia.
  - (* WorkerAbort *)
    destruct (Main.pool p !! i) as [[| l counted r |]|] eqn:Hi; try discriminate.
    destruct (Main.isDone p); [| discriminate]. injection Hstep as <-.
    eapply consistent_flush; [exact Hi | | | | | exact H]; simpl; trivial; [| lia].
    destruct H as (_ & Hw & _). rewrite Forall_lookup in Hw. exact (proj1 (Hw i _ Hi)).
  - (* CloseResults *)
    destruct (negb (Main.resultsChanClosed p) && _); [| discriminate]. injection Hstep as <-.
    now apply (consistent_frame p).
  - (* Collect *)
    destruct (Main.resultsChan p) as [|r rest]; [discriminate |]. injection Hstep as <-.
    now apply (consistent_frame p).
Qed.

Lemma run_consistent (schedule : list Main.Event) p p' :
  Main.run pats config schedule p = Some p' ->
  Spec.consistent pats config p -> Spec.consistent pats config p'.
Proof.
  revert p. induction schedule as [|e schedule IH]; intros p Hrun H; simpl in Hrun.
  - now injection Hrun as <-.
  - destruct (Main.step pats config e p) as [p1|] eqn:E; [| discriminate].
    apply (IH p1 Hrun). exact (step_consistent e p p1 E H).
Qed.

(** No step changes the total. *)
Lemma step_total (e : Main.Event) p p' :
  Main.step pats config e p = Some p' ->
  Main.TotalURLs (Main.stats p') = Main.TotalURLs (Main.stats p).
Proof.
  intros Hstep.
  destruct e; simpl in Hstep;
    repeat match type of Hstep with
           | context [match ?x with _ => _ end] => destruct x; try discriminate
           end;
    injection Hstep as <-; try reflexivity.
  unfold Main.handleURL.
  repeat match goal with
         | |- context [match ?x with _ => _ end] => destruct x
         end; reflexivity.
Qed.

Lemma run_total (schedule : list Main.Event) p p' :
  Main.run pats config schedule p = Some p' ->
  Main.TotalURLs (Main.stats p') = Main.TotalURLs (Main.stats p).
Proof.
  revert p. induction schedule as [|e schedule IH]; intros p Hrun; simpl in Hrun.
  - now injection Hrun as <-.
  - destruct (Main.step pats config e p) as [p1|] eqn:E; [| discriminate].
    rewrite (IH p1 Hrun). exact (step_total e p p1 E).
Qed.

(** The pipeline starts in a consistent state. *)
Lemma spawn_consistent c (ctx : option Go.error) (urls : list string) :
  Go.len_slice urls <= Go.MaxInt ->
  Spec.consistent pats config (Main.spawn config c ctx urls).
Proof.
  intros Hmax. unfold Spec.consistent, Main.spawn; simpl.
  split; [repeat split |]. split; [| split; [| exact Hmax]].
  - apply Forall_replicate. repeat split.
  - assert (sum_list_with Spec.load
              (replicate (Z.to_nat (Main.numWorkersFor config (Go.len_slice urls)))
                         (Main.Selecting Main.zeroStats [])) = 0%nat) as ->.
    { induction (Z.to_nat _) as [|n IH]; simpl; [reflexivity | exact IH]. }
    unfold Go.len_slice. lia.
Qed.

(** A consistent state satisfies the invariant of the statistics. *)
Lemma consistent_statsInvariant p :
  Spec.consistent pats config p -> Spec.statsInvariant pats config p.
Proof.
  intros (Hs & _ & Hn & _).
  pose proof (tallied_bound _ _ _ _ _ _ Hs) as B.
  destruct Hs as (H1 & H2 & H3 & H4).
  unfold Spec.statsInvariant, Spec.validButClean; simpl.
  pose proof (count_nonneg Spec.Clean (Main.checker p) (Main.accounted p)).
  repeat split; lia.
Qed.

End Statistics.

(** Runs a closed schedule inside the virtual machine and takes the state
    it ends in as the witness. *)
Ltac exists_run :=
  match goal with
  | |- exists p, ?l = Some p /\ _ =>
      let v := eval vm_compute in l in
      match v with
      | Some ?p => exists p; split; [exact (@eq_refl _ v <: l = v) |]
      end
  end.

(** [TestProcessURLs]: one invalid and two suspicious URLs, the two with
    "/evil"; here also four processed, and no error. *)
Example TestProcessURLs :
  match Main.processURLs AsciiLib.testPatterns Inputs.testConfig Inputs.processChecker
          None Inputs.testURLs Inputs.testSchedule with
  | Some (_, (results, stats, e)) =>
      map Main.URL results = ["http://bad.com/evil"; "http://bad.com/evil.exe"] /\
      Main.GetStats stats = (2, 1, 4, 0) /\ e = None
  | None => False
  end.
Proof. vm_compute. repeat split. Qed.

(** C3, as stated, fails when a URL is invalid: at the end of the run of
    [TestProcessURLs] four URLs are processed, two are suspicious and one is
    valid but clean. *)
Lemma stats_invariant_invalid_counterexample :
  exists p,
    Main.run AsciiLib.testPatterns Inputs.testConfig Inputs.testSchedule
      (Main.spawn Inputs.testConfig Inputs.processChecker None Inputs.testURLs) = Some p /\
    ~ Spec.statsInvariantAsStated AsciiLib.testPatterns Inputs.testConfig p.
Proof.
  exists_run.
  unfold Spec.statsInvariantAsStated. intros [H _]. vm_compute in H. discriminate H.
Qed.

(** The statistics [processURLs] returns. *)
Lemma processURLs_stats (L : Go.Lib) (pats : Suspicious.Patterns) (config : Main.Config)
    (c c' : Main.URLChecker) (ctx e : option Go.error) (urls : list string)
    (schedule : list Main.Event) (results : list Main.Result) (stats : Main.Stats) :
  Go.len_slice urls <= Go.MaxInt ->
  Main.processURLs pats config c ctx urls schedule = Some (c', (results, stats, e)) ->
  Spec.bounded stats /\ Main.TotalURLs stats = Go.len_slice urls.
Proof.
  intros Hmax. unfold Main.processURLs, Spec.bounded.
  destruct (Go.len_slice urls =? 0) eqn:E0.
  - intros [= _ _ <- _]. simpl. apply Z.eqb_eq in E0. lia.
  - destruct (Main.run pats config schedule _) as [p|] eqn:Hrun; [| discriminate].
    unfold Main.returned.
    destruct (_ && _); [| discriminate]. intros [= _ _ <- _].
    pose proof (run_consistent pats config schedule _ p Hrun
                  (spawn_consistent pats config c ctx urls Hmax)) as (Hs & _ & Hn & _).
    pose proof (tallied_bound _ _ _ _ _ _ _ _ Hs).
    split; [lia |].
    exact (run_total pats config schedule _ p Hrun).
Qed.

(** Accumulating the statistics of the chunks of a large file keeps the
    inequalities, as long as the total is an [int]. *)
Lemma addStats_bounded (totalStats stats : Main.Stats) :
  Spec.bounded totalStats -> Spec.bounded stats ->
  Main.TotalURLs totalStats + Main.TotalURLs stats <= Go.MaxInt ->
  Spec.bounded (Main.addStats totalStats stats).
Proof.
  unfold Spec.bounded, Main.addStats. intros (? & ? & ? & ?) (? & ? & ? & ?) Hmax. simpl.
  rewrite !int_add_counts by lia. lia.
Qed.

(** C3, amended.  In every state a run of the pipeline reaches, so at all
    times during the run and at its end, the shared statistics satisfy
    processed = suspicious + invalid + valid-but-clean and
    suspicious <= processed <= total; they are the tally of the URLs
    accounted for.  The number of URLs is an [int]. *)
Theorem stats_invariant (L : Go.Lib) (pats : Suspicious.Patterns) (config : Main.Config)
    (c : Main.URLChecker) (ctx : option Go.error) (urls : list string)
    (schedule : list Main.Event) (p : Main.Pipeline) :
  Go.len_slice urls <= Go.MaxInt ->
  Main.run pats config schedule (Main.spawn config c ctx urls) = Some p ->
  Spec.statsInvariant pats config p /\
  Spec.tallied pats config (Main.checker p) (Main.accounted p)
    (Main.SuspiciousURLs (Main.stats p)) (Main.InvalidURLs (Main.stats p))
    (Main.ProcessedURLs (Main.stats p)) (Main.SkippedURLs (Main.stats p)).
Proof.
  intros Hmax Hrun.
  pose proof (run_consistent pats config schedule _ p Hrun
                (spawn_consistent pats config c ctx urls Hmax)) as H.
  split; [now apply consistent_statsInvariant | apply H].
Qed.

(** The run of [TestProcessURLs]: 4 = 2 + 1 + 1. *)
Lemma stats_invariant_witness :
  exists p,
    Main.run AsciiLib.testPatterns Inputs.testConfig Inputs.testSchedule
      (Main.spawn Inputs.testConfig Inputs.processChecker None Inputs.testURLs) = Some p /\
    Spec.statsInvariant AsciiLib.testPatterns Inputs.testConfig p /\
    Main.GetStats (Main.stats p) = (2, 1, 4, 0) /\
    Spec.validButClean AsciiLib.testPatterns Inputs.testConfig p = 1.
Proof.
  exists_run.
  split; [| split; vm_compute; reflexivity].
  apply (stats_invariant AsciiLib.lib AsciiLib.testPatterns Inputs.testConfig
           Inputs.processChecker None Inputs.testURLs Inputs.testSchedule);
    [vm_compute; discriminate |].
  match goal with |- ?l = ?r => exact (@eq_refl _ r <: l = r) end.
Defined.

(** ** A deadline during the run *)
Section Deadline.
Context {L : Go.Lib}.
Variable pats : Suspicious.Patterns.
Variable w : Main.World.
Variable config : Main.Config.

(** [lineCount] only serves the progress messages. *)
Lemma chunkLoop_lineCount (lines : list string) : forall (n n' : Z) (st : Main.Chunking),
  Main.chunkLoop pats w config lines n st = Main.chunkLoop pats w config lines n' st.
Proof.
  induction lines as [|text lines IH]; intros n n' st; simpl; [reflexivity |].
  destruct (Main.isSkippedLine (Go.TrimSpace text)); [apply IH |].
  destruct (Go.len_slice _ >=? Main.chunkSize); [| apply IH].
  destruct (Main.processChunk pats w config _ _) as [[e | st'] |]; try reflexivity.
  destruct (Main.poll w _ _); [reflexivity | apply IH].
Qed.

Lemma setChunk_setChunk (chunk chunk' : list string) (st : Main.Chunking) :
  Main.setChunk chunk' (Main.setChunk chunk st) = Main.setChunk chunk' st.
Proof. reflexivity. Qed.

(** Lines that do not fill the chunk are appended to it. *)
Lemma chunkLoop_fill (text : string) (rest : list string) :
  Main.isSkippedLine (Go.TrimSpace text) = false ->
  forall (k : nat) (n : Z) (st : Main.Chunking),
    Go.len_slice (Main.chunk st) + Z.of_nat k < Main.chunkSize ->
    Main.chunkLoop pats w config (replicate k text ++ rest) n st
    = Main.chunkLoop pats w config rest n
        (Main.setChunk (Main.chunk st ++ replicate k (Go.TrimSpace text)) st).
Proof.
  intros Hline. induction k as [|k IH]; intros n st Hlen; simpl.
  - rewrite app_nil_r. now destruct st.
  - rewrite Hline.
    assert ((Go.len_slice (Main.chunk st ++ [Go.TrimSpace text]) >=? Main.chunkSize) = false)
      as ->.
    { unfold Go.len_slice in *. rewrite length_app. simpl.
      rewrite Z.geb_leb. apply Z.leb_gt. lia. }
    rewrite (chunkLoop_lineCount _ _ n), IH.
    + simpl. now rewrite <- app_assoc.
    + simpl. unfold Go.len_slice in *. rewrite length_app. simpl. lia.
Qed.

(** The line that fills the chunk has it processed; a deadline that
    [processURLs] reports is then met again by the poll, which returns. *)
Lemma chunkLoop_deadline (text : string) (rest : list string) (n : Z)
    (st : Main.Chunking) (c : Main.URLChecker) (results : list Main.Result)
    (stats : Main.Stats) :
  Main.isSkippedLine (Go.TrimSpace text) = false ->
  Go.len_slice (Main.chunk st ++ [Go.TrimSpace text]) >= Main.chunkSize ->
  Main.processURLs pats config (Main.urlChecker st) (Main.context st)
    (Main.chunk st ++ [Go.TrimSpace text]) (Main.schedules w (Main.calls st))
  = Some (c, (results, stats, Some Go.DeadlineExceeded)) ->
  Main.chunkLoop pats w config (text :: rest) n st = Some (inl Go.DeadlineExceeded).
Proof.
  intros Hline Hlen Hrun. simpl. rewrite Hline.
  apply Z.ge_le, Z.geb_le in Hlen. rewrite Hlen.
  unfold Main.processChunk. simpl. rewrite Hrun. reflexivity.
Qed.

(** The small-file path of [processFile]: when [processURLs] reports the
    deadline, the results it returns are deduplicated and written, and
    the statistics printed in verbose mode, as after a complete run. *)
Lemma processFile_deadline_delivers (c c' : Main.URLChecker) (ctx ctx' : option Go.error)
    (f : Main.File) (urls : list string) (results : list Main.Result) (stats : Main.Stats) :
  Main.validateFile f = None -> Main.openErr f = None -> Main.scanErr f = None ->
  (Main.fileSize f >? 50 * 1024 * 1024) = false ->
  Main.loadURLs w (Main.fileLines f) 0 0 ctx [] = inr (urls, ctx') ->
  Main.processURLs pats config c ctx' urls (Main.schedules w 0)
  = Some (c', (results, stats, Some Go.DeadlineExceeded)) ->
  Main.processFile pats w config c ctx f
  = Some (Main.deliver w config results stats).
Proof.
  intros Hv Ho Hs Hsize Hload Hrun. unfold Main.processFile.
  now rewrite Hv, Ho, Hsize, Hload, Hs, Hrun.
Qed.

(** What is written is the deduplicated results, sorted: to standard
    output, or to the output file. *)
Lemma deliver_written (results : list Main.Result) (stats : Main.Stats) :
  Main.createErr w = None ->
  Main.removeDuplicates results <> [] ->
  (exists o,
     Main.written (Main.deliver w config results stats) = Some o /\
     Main.resultLines o
     = map (Main.formatResult (Main.verbose config))
           (Main.sortByURL (Main.removeDuplicates results)) /\
     (o = Main.ToStdout (Main.resultLines o) \/ o = Main.ToFile (Main.resultLines o))) /\
  Main.err (Main.deliver w config results stats) = None.
Proof.
  intros Hc Hne. unfold Main.deliver, Main.writeResults. rewrite Hc.
  destruct (Main.removeDuplicates results) as [|r rs]; [congruence |].
  assert ((Go.len_slice (r :: rs) =? 0) = false) as ->
    by (unfold Go.len_slice; simpl; lia).
  destruct (String.eqb (Main.outputPath config) ""); simpl;
    (split; [eexists; split; [reflexivity |]; split; [reflexivity |] | reflexivity]);
    [now left | now right].
Qed.

End Deadline.

(** Package [processor]: on a deadline [ProcessFile] returns no error, the
    lines written so far stay written, and [main] exits with status 0;
    an unreadable input is an error, and [main] exits with status 1.
    The statistics are not part of this summary: on a deadline
    [ProcessFile] returns before it prints them ([Stream.returned]). *)
Lemma ProcessFile_deadline (createErr : option Go.error) (outputPath : string)
    (verbose : bool) (received : list Processor.Result) (e : Go.error) :
  (if String.eqb outputPath "" then None else createErr) = None ->
  Processor.ProcessFile None createErr outputPath verbose received (Some Go.DeadlineExceeded)
  = (None, map (Processor.formatResult verbose) received) /\
  Processor.exitStatus (Some Go.DeadlineExceeded) = 0 /\
  fst (Processor.ProcessFile (Some e) createErr outputPath verbose received None) = Some e /\
  (Go.IsDeadlineExceeded e = false -> Processor.exitStatus (Some e) = 1).
Proof.
  intros H. unfold Processor.ProcessFile, Processor.WriteStream. rewrite H.
  repeat split. simpl. now intros ->.
Qed.

(** The first chunk of the large file under the schedule: one result is
    collected, then the deadline passes. *)
Lemma first_chunk_deadline (tail : list string) :
  Go.len_slice (Inputs.evilURL :: tail) = Main.chunkSize ->
  exists c stats,
    Main.processURLs (L := AsciiLib.lib) AsciiLib.testPatterns Inputs.timeoutConfig
      Inputs.testChecker None (Inputs.evilURL :: tail) Inputs.timeoutSchedule
    = Some (c, ([Inputs.evilResult], stats, Some Go.DeadlineExceeded)).
Proof.
  intros Hlen. unfold Main.processURLs, Main.spawn. rewrite Hlen.
  match goal with
  | |- exists c stats, ?l = _ =>
      let v := eval vm_compute in l in
      match v with
      | Some (?c, (_, ?stats, _)) =>
          exists c, stats; exact (@eq_refl _ v <: l = v)
      end
  end.
Qed.

(** C8, at the failing input.  A large file whose first 50000 lines hold a
    suspicious URL, whatever follows them, and a deadline that passes
    while the first chunk is processed: [processURLs] returns the result
    collected before the deadline with [context.DeadlineExceeded], and
    [processFile] returns that error, writes nothing and prints no
    statistics; [main] exits with status 1. *)
Theorem processLargeFile_discards_on_deadline (rest : list string) :
  let chunk := replicate (Z.to_nat Main.chunkSize) Inputs.evilURL in
  (exists c stats,
     Main.processURLs (L := AsciiLib.lib) AsciiLib.testPatterns Inputs.timeoutConfig
       Inputs.testChecker None chunk (Main.schedules Inputs.timeoutWorld 0)
     = Some (c, ([Inputs.evilResult], stats, Some Go.DeadlineExceeded))) /\
  Main.processFile AsciiLib.testPatterns Inputs.timeoutWorld Inputs.timeoutConfig
    Inputs.testChecker None (Inputs.largeFile rest)
  = Some {| Main.err := Some Go.DeadlineExceeded; Main.written := None;
            Main.printed := None |} /\
  Main.exitStatus {| Main.err := Some Go.DeadlineExceeded; Main.written := None;
                     Main.printed := None |} = 1.
Proof.
  pose (m := Z.to_nat (Main.chunkSize - 2)).
  assert (Z.of_nat m = Main.chunkSize - 2) as Hm by (unfold m, Main.chunkSize; lia).
  assert (Z.to_nat Main.chunkSize = S (S m)) as En by (unfold m, Main.chunkSize; lia).
  clearbody m.
  assert (Go.TrimSpace (Lib := AsciiLib.lib) Inputs.evilURL = Inputs.evilURL) as Htrim
    by (vm_compute; reflexivity).
  assert (Main.isSkippedLine (Go.TrimSpace (Lib := AsciiLib.lib) Inputs.evilURL) = false)
    as Hline by (vm_compute; reflexivity).
  assert (Go.len_slice (Inputs.evilURL :: replicate m Inputs.evilURL ++ [Inputs.evilURL])
          = Main.chunkSize) as Hlen.
  { unfold Go.len_slice. simpl List.length. rewrite length_app, length_replicate.
    simpl List.length. lia. }
  destruct (first_chunk_deadline _ Hlen) as (c & stats & Hrun).
  cbv zeta. split; [| split; [| reflexivity]].
  - exists c, stats. rewrite En, replicate_S_end. exact Hrun.
  - unfold Main.processFile.
    change (Main.validateFile (Inputs.largeFile rest)) with (@None Go.error).
    change (Main.openErr (Inputs.largeFile rest)) with (@None Go.error).
    change (Main.fileSize (Inputs.largeFile rest) >? 50 * 1024 * 1024) with true.
    cbv iota. unfold Main.processLargeFile.
    change (Main.fileLines (Inputs.largeFile rest))
      with (replicate (Z.to_nat Main.chunkSize) Inputs.evilURL ++ rest)%list.
    rewrite En, replicate_S_end, <- app_assoc.
    rewrite chunkLoop_fill;
      [| exact Hline | unfold Go.len_slice; simpl List.length; lia].
    rewrite Htrim. cbn [Main.chunk app].
    erewrite chunkLoop_deadline; [reflexivity | exact Hline | |].
    + rewrite Htrim. cbn [Main.chunk Main.setChunk].
      change (replicate (S m) Inputs.evilURL ++ [Inputs.evilURL])%list
        with (Inputs.evilURL :: replicate m Inputs.evilURL ++ [Inputs.evilURL])%list.
      rewrite Hlen. lia.
    + rewrite Htrim. exact Hrun.
Qed.

(** * Further properties of the code *)

(** ** The classifier across calls *)

(** X1.  [sync.Once]: however many URLs a checker of [main.go] has
    classified before, it answers as it would have at first, it is the
    checker it was or that checker compiled, and compiling again changes
    nothing. *)
Theorem classification_independent_of_history (L : Go.Lib) (pats : Suspicious.Patterns)
    (c : Main.URLChecker) (earlier : list string) (url : string) :
  snd (Main.isSuspicious pats (Spec.after pats c earlier) url)
  = snd (Main.isSuspicious pats c url) /\
  (Spec.after pats c earlier = c \/
   Spec.after pats c earlier = Main.compileRegexes pats c) /\
  Main.compileRegexes pats (Main.compileRegexes pats c) = Main.compileRegexes pats c.
Proof.
  split; [apply isSuspicious_after_all |].
  split; [apply after_stage | apply compileRegexes_idempotent].
Qed.

(** X2.  The two validity checks: a URL that [isValidURL] of [main.go]
    accepts is accepted by [IsValidURL] of package [checker] and is at most
    [maxURLLength] bytes long; on URLs within that length the two agree. *)
Theorem validity_checks_agree (L : Go.Lib) (url : string) :
  (Main.isValidURL url = true ->
   Checker.IsValidURL url = true /\ 0 < Go.len url <= Main.maxURLLength) /\
  (Go.len url <= Main.maxURLLength -> Checker.IsValidURL url = Main.isValidURL url).
Proof.
  unfold Main.isValidURL, Checker.IsValidURL.
  assert (0 <= Go.len url) as Hlen by (unfold Go.len; lia).
  destruct (Z.eqb_spec (Go.len url) 0) as [E0 | N0];
    destruct (Z.ltb_spec Main.maxURLLength (Go.len url)) as [Hlong | Hshort]; simpl;
    split; intros H; try discriminate; try reflexivity; try lia.
  split; [exact H | lia].
Qed.

(** ** The number of workers and the statistics *)

(** X3.  [numWorkers] of [processURLs] never exceeds [maxWorkers]; with at
    least one CPU it is at least 1; for 1000 URLs or more a configured
    count between 1 and [maxWorkers] is used as it is; and for an empty
    input no worker is started at all. *)
Theorem numWorkers_within_bounds (L : Go.Lib) (config : Main.Config) (urls : list string) :
  let n := Go.len_slice urls in
  Main.numWorkersFor config n <= Main.maxWorkers /\
  (1 <= Go.NumCPU -> 1 <= Main.numWorkersFor config n) /\
  (1000 <= n -> 1 <= Main.workers config <= Main.maxWorkers ->
   Main.numWorkersFor config n = Main.workers config) /\
  (urls = [] -> Main.workersStarted config urls = 0).
Proof.
  intros n.
  assert (0 <= n) as H0 by (unfold n, Go.len_slice; lia).
  unfold Main.numWorkersFor, Main.maxWorkers, Main.min.
  destruct (Z.leb_spec (Main.workers config) 0) as [Hw | Hw];
    match goal with
    | |- context [if ?a >? 500 then _ else _] =>
        destruct (Z.gtb_spec a 500) as [Hc | Hc]
    end;
    destruct (Z.ltb_spec n 1000) as [Hn | Hn];
    try rewrite int_div_small by lia;
    try rewrite int_add_small
      by (unfold Go.MinInt, Go.MaxInt;
          assert (0 <= n / 10 <= n)
            by (split; [apply Z.div_pos | apply Z.div_le_upper_bound]; lia); lia);
    try (assert (0 <= n / 10) by (apply Z.div_pos; lia));
    repeat match goal with
           | |- context [if ?a <? ?b then _ else _] => destruct (Z.ltb_spec a b)
           end;
    (split; [lia |]; split; [intros; lia |]; split; [intros; lia |]);
    intros ->; reflexivity.
Qed.

Lemma wrap_wrap_add (a b : Z) : Go.wrap (Go.wrap a + b) = Go.wrap (a + b).
Proof.
  unfold Go.wrap. f_equal.
  replace ((a + 2 ^ 63) mod 2 ^ 64 - 2 ^ 63 + b + 2 ^ 63)
    with ((a + 2 ^ 63) mod 2 ^ 64 + b) by lia.
  rewrite Zplus_mod_idemp_l. f_equal. lia.
Qed.

Lemma int_add_merge (x a b : Z) :
  Go.int_add (Go.int_add x a) b = Go.int_add x (a + b).
Proof. unfold Go.int_add. rewrite wrap_wrap_add. f_equal. lia. Qed.

(** X4.  Flushes of different workers commute, also when an addition
    wraps: two updates of the statistics give the same result in either
    order, the result of one update with the sums, and the total is never
    touched.  The final statistics do not depend on the order in which
    the workers flush. *)
Theorem UpdateStats_commutes (s : Main.Stats) (a b c d a' b' c' d' : Z) :
  Main.UpdateStats (Main.UpdateStats s a b c d) a' b' c' d'
  = Main.UpdateStats (Main.UpdateStats s a' b' c' d') a b c d /\
  Main.UpdateStats (Main.UpdateStats s a b c d) a' b' c' d'
  = Main.UpdateStats s (a + a') (b + b') (c + c') (d + d') /\
  Main.TotalURLs (Main.UpdateStats s a b c d) = Main.TotalURLs s.
Proof.
  unfold Main.UpdateStats; simpl. rewrite !int_add_merge.
  split; [| split; reflexivity].
  now rewrite (Z.add_comm a a'), (Z.add_comm b b'), (Z.add_comm c c'), (Z.add_comm d d').
Qed.

(** ** Deduplication, further *)
Section DedupMore.

Implicit Types (r : Main.Result) (results unique : list Main.Result).

Lemma filter_all {A} (f : A -> bool) (l : list A) :
  (forall x, In x l -> f x = true) -> List.filter f l = l.
Proof.
  induction l as [|x l IH]; intros H; simpl; [reflexivity |].
  rewrite (H x) by now left. f_equal. apply IH. intros y Hy. apply H. now right.
Qed.

Lemma firstOccurrences_distinct results :
  NoDup (map Main.URL results) -> Spec.firstOccurrences results = results.
Proof.
  induction results as [|r results IH]; intros H; simpl; [reflexivity |].
  apply NoDup_cons in H as [Hr H]. rewrite (IH H). f_equal.
  apply filter_all. intros x Hx. unfold Spec.differs.
  apply negb_true_iff, String.eqb_neq. intros E. apply Hr.
  apply list_elem_of_In, in_map_iff. exists x. now split.
Qed.

Lemma firstOccurrences_length results :
  (List.length (Spec.firstOccurrences results) <= List.length results)%nat.
Proof.
  induction results as [|r results IH]; simpl; [lia |].
  pose proof (List.filter_length_le (Spec.differs r) (Spec.firstOccurrences results)). lia.
Qed.

(** The loop keeps [seen] the set of the URLs of [unique]. *)
Lemma dedupStep_matching results : forall (seen : gset string) unique,
  (forall url, url ∈ seen <->
               existsb (fun r' => String.eqb (Main.URL r') url) unique = true) ->
  forall url,
    url ∈ fst (fold_left Main.dedupStep results (seen, unique)) <->
    existsb (fun r' => String.eqb (Main.URL r') url)
            (snd (fold_left Main.dedupStep results (seen, unique))) = true.
Proof.
  induction results as [|r results IH]; intros seen unique H; simpl; [exact H |].
  destruct (decide (Main.URL r ∈ seen)) as [Hin | Hout]; [now apply IH |].
  apply IH. intros url. rewrite existsb_app. simpl. rewrite orb_false_r.
  rewrite elem_of_union, elem_of_singleton, (H url), orb_true_iff, String.eqb_eq.
  intuition congruence.
Qed.

Lemma removeDuplicates_app results results' :
  Main.removeDuplicates (results ++ results')
  = (Main.removeDuplicates results
     ++ List.filter (Spec.fresh (Main.removeDuplicates results))
          (Spec.firstOccurrences results'))%list.
Proof.
  unfold Main.removeDuplicates. rewrite fold_left_app.
  destruct (fold_left Main.dedupStep results (∅, [])) as [seen unique] eqn:E.
  apply dedup_loop.
  pose proof (dedupStep_matching results ∅ []) as H. rewrite E in H. apply H.
  intros url. simpl. split; [intros Hin; now apply not_elem_of_empty in Hin | discriminate].
Qed.

End DedupMore.

(** X5.  [removeDuplicates] is idempotent, returns a list of pairwise
    distinct URLs unchanged, never returns more results than it is given,
    and deduplicating a concatenation (the results of the chunks of a
    large file) is deduplicating the first part and then the whole. *)
Theorem removeDuplicates_idempotent (results results' : list Main.Result) :
  Main.removeDuplicates (Main.removeDuplicates results) = Main.removeDuplicates results /\
  (NoDup (map Main.URL results) -> Main.removeDuplicates results = results) /\
  (List.length (Main.removeDuplicates results) <= List.length results)%nat /\
  Main.removeDuplicates (results ++ results')
  = Main.removeDuplicates (Main.removeDuplicates results ++ results').
Proof.
  assert (forall l, NoDup (map Main.URL l) -> Main.removeDuplicates l = l) as Hid
    by (intros l H; rewrite removeDuplicates_firstOccurrences;
        now apply firstOccurrences_distinct).
  assert (Main.removeDuplicates (Main.removeDuplicates results)
          = Main.removeDuplicates results) as Hidem.
  { apply Hid. rewrite removeDuplicates_firstOccurrences. apply firstOccurrences_NoDup. }
  split; [exact Hidem |]. split; [apply Hid |]. split.
  - rewrite removeDuplicates_firstOccurrences. apply firstOccurrences_length.
  - rewrite (removeDuplicates_app (Main.removeDuplicates results)), Hidem.
    apply removeDuplicates_app.
Qed.

(** ** The URLs of a run *)

(** Replacing a worker of the pool. *)
Lemma pool_replace (pool : list Main.Worker) (i : nat) (w w' : Main.Worker) :
  pool !! i = Some w ->
  exists before after,
    pool = (before ++ w :: after)%list /\
    <[i:=w']> pool = (before ++ w' :: after)%list.
Proof.
  revert i. induction pool as [|x l IH]; intros [|j] H; simpl in *; try discriminate.
  - injection H as ->. now exists [], l.
  - destruct (IH j H) as (before & after & -> & ->). now exists (x :: before), after.
Qed.

Section Pool.
Context {A : Type}.
Implicit Types (f : Main.Worker -> list A) (g : Main.Worker -> nat)
  (pool : list Main.Worker) (w : Main.Worker) (x : A).

Lemma in_flat_map_lookup f pool (i : nat) w x :
  pool !! i = Some w -> In x (f w) -> In x (flat_map f pool).
Proof.
  intros Hi H. apply in_flat_map. exists w. split; [| exact H].
  apply list_elem_of_In, list_elem_of_lookup. now exists i.
Qed.

Lemma in_flat_map_insert f pool (i : nat) w w' x :
  pool !! i = Some w ->
  In x (flat_map f (<[i:=w']> pool)) -> In x (f w') \/ In x (flat_map f pool).
Proof.
  intros Hi. destruct (pool_replace pool i w w' Hi) as (before & after & -> & ->).
  rewrite !flat_map_app. simpl. rewrite !in_app_iff. tauto.
Qed.

Lemma in_flat_map_new f pool (i : nat) w w' x :
  pool !! i = Some w -> In x (f w') -> In x (flat_map f (<[i:=w']> pool)).
Proof.
  intros Hi. destruct (pool_replace pool i w w' Hi) as (before & after & -> & ->).
  rewrite !flat_map_app. simpl. rewrite !in_app_iff. tauto.
Qed.

Lemma in_flat_map_old f pool (i : nat) w w' x :
  pool !! i = Some w ->
  In x (flat_map f pool) -> In x (f w) \/ In x (flat_map f (<[i:=w']> pool)).
Proof.
  intros Hi. destruct (pool_replace pool i w w' Hi) as (before & after & -> & ->).
  rewrite !flat_map_app. simpl. rewrite !in_app_iff. tauto.
Qed.

End Pool.

Lemma sum_insert (g : Main.Worker -> nat) (pool : list Main.Worker) (i : nat)
    (w w' : Main.Worker) :
  pool !! i = Some w ->
  (sum_list_with g (<[i:=w']> pool) + g w = sum_list_with g pool + g w')%nat.
Proof.
  intros Hi. destruct (pool_replace pool i w w' Hi) as (before & after & -> & ->).
  rewrite !sum_list_with_app. simpl. lia.
Qed.

Lemma Exists_insert_inv (P : Main.Worker -> Prop) (pool : list Main.Worker) (i : nat)
    (w w' : Main.Worker) :
  pool !! i = Some w -> Exists P (<[i:=w']> pool) -> P w' \/ Exists P pool.
Proof.
  intros Hi. destruct (pool_replace pool i w w' Hi) as (before & after & -> & ->).
  rewrite !Exists_app, !Exists_cons. tauto.
Qed.

Lemma flat_map_replicate {A B} (f : A -> list B) (n : nat) (x : A) :
  f x = [] -> flat_map f (replicate n x) = [].
Proof. intros H. induction n as [|n IH]; simpl; [reflexivity | now rewrite H, IH]. Qed.

Lemma sum_replicate {A} (g : A -> nat) (n : nat) (x : A) :
  g x = 0%nat -> sum_list_with g (replicate n x) = 0%nat.
Proof. intros H. induction n as [|n IH]; simpl; [reflexivity | now rewrite H, IH]. Qed.

Lemma sum_list_with_ext {A} (g g' : A -> nat) (l : list A) :
  (forall x, g x = g' x) -> sum_list_with g l = sum_list_with g' l.
Proof. intros H. induction l as [|x l IH]; simpl; [reflexivity | now rewrite H, IH]. Qed.

Section Tracing.
Context {L : Go.Lib}.
Variable pats : Suspicious.Patterns.
Variable config : Main.Config.
Variable urls : list string.
Variable c0 : Main.URLChecker.

Implicit Types (c : Main.URLChecker) (p q : Main.Pipeline) (w : Main.Worker)
  (r : Main.Result) (l : Main.LocalStats) (log : list string).

Local Abbreviation Sound := (Trace.Sound pats config urls c0).
Local Abbreviation Answered := (Trace.Answered pats config).
Local Abbreviation Lossless := (Trace.Lossless urls).
Local Abbreviation genuine := (Trace.genuine pats config urls).
Local Abbreviation suspicious := (Trace.suspicious pats config).

(** A checker and the checker a call leaves behind answer alike. *)
Lemma stage_next c (url : string) :
  c = c0 \/ c = Main.compileRegexes pats c0 ->
  fst (Main.isSuspicious pats c url) = c0 \/
  fst (Main.isSuspicious pats c url) = Main.compileRegexes pats c0.
Proof.
  intros H. destruct (isSuspicious_checker pats c url) as [-> | ->]; [exact H |].
  right. destruct H as [-> | ->]; [reflexivity | apply compileRegexes_idempotent].
Qed.

Lemma suspicious_after c (url' url : string) :
  suspicious (fst (Main.isSuspicious pats c url')) url = suspicious c url.
Proof. unfold Trace.suspicious. now rewrite outcome_after. Qed.

Lemma genuine_after c (url' : string) r :
  genuine c r -> genuine (fst (Main.isSuspicious pats c url')) r.
Proof.
  intros (Hin & Ho & Hv). repeat split; [exact Hin | |].
  - now rewrite outcome_after.
  - now rewrite isSuspicious_after.
Qed.

Lemma offersGenuine_after c (url' : string) w :
  Trace.offersGenuine pats config urls c w ->
  Trace.offersGenuine pats config urls (fst (Main.isSuspicious pats c url')) w.
Proof. destruct w; simpl; trivial. apply genuine_after. Qed.

(** What the body of the loop does with a URL: it counts it, suspicious
    or not, or it offers a genuine result for it; the checker is the one
    before or the one the call leaves behind. *)
Lemma handleURL_cases (i : nat) l log (url : string) q :
  exists c' w',
    Main.handleURL pats config i l log url q = Main.setWorker i w' (Main.setChecker c' q) /\
    (c' = Main.checker q \/ c' = fst (Main.isSuspicious pats (Main.checker q) url)) /\
    ((exists l', w' = Main.Selecting l' (log ++ [url]) /\ suspicious c' url = false) \/
     (exists r, w' = Main.Offering l log r /\ Main.URL r = url /\
                Spec.outcome pats config c' url = Spec.Suspicious /\
                snd (Main.isSuspicious pats c' url) = (true, Main.Category r, Main.Reason r))).
Proof.
  assert (Main.setChecker (Main.checker q) q = q) as Eq by now destruct q.
  unfold Main.handleURL.
  destruct (String.eqb (Go.TrimSpace url) "") eqn:Eblank.
  { exists (Main.checker q), (Main.Selecting (Main.countSkipped l) (log ++ [url])).
    rewrite Eq. split; [reflexivity |]. split; [now left |]. left. eexists. split; [reflexivity |].
    unfold Trace.suspicious, Spec.outcome. now rewrite Eblank. }
  destruct (Main.validateURLs config && negb (Main.isValidURL url)) eqn:Einvalid.
  { exists (Main.checker q), (Main.Selecting (Main.countInvalid l) (log ++ [url])).
    rewrite Eq. split; [reflexivity |]. split; [now left |]. left. eexists. split; [reflexivity |].
    unfold Trace.suspicious, Spec.outcome. now rewrite Eblank, Einvalid. }
  destruct (Main.isSuspicious pats (Main.checker q) url) as [c' [[matched category] reason]]
    eqn:Esus.
  assert (c' = fst (Main.isSuspicious pats (Main.checker q) url)) as Ec by now rewrite Esus.
  assert (snd (Main.isSuspicious pats c' url) = (matched, category, reason)) as Hv
    by (rewrite Ec, isSuspicious_after; now rewrite Esus).
  assert (Spec.outcome pats config c' url
          = if matched then Spec.Suspicious else Spec.Clean) as Ho
    by (unfold Spec.outcome; now rewrite Eblank, Einvalid, Hv).
  exists c'. destruct matched.
  - eexists. split; [reflexivity |]. split; [now right |]. right.
    eexists. split; [reflexivity |]. simpl. now repeat split.
  - eexists. split; [reflexivity |]. split; [now right |]. left.
    eexists. split; [reflexivity |]. unfold Trace.suspicious. now rewrite Ho.
Qed.

Lemma in_somewhere p (url : string) :
  In url (Trace.somewhere p) <->
  In url (Main.accounted p) \/ In url (flat_map Trace.held (Main.pool p)) \/
  In url (Main.urlChan p) \/ In url (Main.toSend p).
Proof. unfold Trace.somewhere. rewrite !in_app_iff. tauto. Qed.

(** The invariant under a change of checker. *)
Lemma Sound_setChecker p c' :
  c' = Main.checker p \/ (exists url, c' = fst (Main.isSuspicious pats (Main.checker p) url)) ->
  Sound p -> Sound (Main.setChecker c' p).
Proof.
  intros [-> | (url & ->)] [Hc He Ho Hi]; [now destruct p |].
  constructor; simpl.
  - now apply stage_next.
  - eapply Forall_impl; [exact He |]. intros r. apply genuine_after.
  - eapply Forall_impl; [exact Ho |]. intros w. apply offersGenuine_after.
  - exact Hi.
Qed.

(** A worker is replaced by one that offers a genuine result, if any, and
    holds nothing that is not of the input. *)
Lemma Sound_setWorker p (i : nat) w w' :
  Main.pool p !! i = Some w ->
  Trace.offersGenuine pats config urls (Main.checker p) w' ->
  (forall url, In url (Trace.held w') -> In url urls) ->
  Sound p -> Sound (Main.setWorker i w' p).
Proof.
  intros Hi Hw' Hheld [Hc He Ho Hin]. constructor; simpl.
  - exact Hc.
  - exact He.
  - now apply Forall_insert.
  - intros url. rewrite in_somewhere. simpl. intros [H | [H | H]].
    + apply Hin, in_somewhere. tauto.
    + destruct (in_flat_map_insert _ _ _ _ _ _ Hi H) as [H' | H'];
        [now apply Hheld | apply Hin, in_somewhere; tauto].
    + apply Hin, in_somewhere. tauto.
Qed.

(** A step that leaves the results, the workers and the checker alone
    and brings no new URL. *)
Lemma Sound_frame p p' :
  Main.checker p' = Main.checker p -> Trace.emitted p' = Trace.emitted p ->
  Main.pool p' = Main.pool p ->
  (forall url, In url (Trace.somewhere p') -> In url (Trace.somewhere p)) ->
  Sound p -> Sound p'.
Proof.
  intros Ec Ee Ep Hs [Hc He Ho Hin]. constructor.
  - now rewrite Ec.
  - now rewrite Ec, Ee.
  - now rewrite Ec, Ep.
  - intros url H. now apply Hin, Hs.
Qed.

Lemma held_of_pool p (i : nat) w (url : string) :
  Sound p -> Main.pool p !! i = Some w -> In url (Trace.held w) -> In url urls.
Proof.
  intros [_ _ _ Hin] Hi H. apply Hin, in_somewhere. right. left.
  exact (in_flat_map_lookup _ _ _ _ _ Hi H).
Qed.

Lemma Sound_step (e : Main.Event) p p' :
  Main.step pats config e p = Some p' -> Sound p -> Sound p'.
Proof.
  intros Hstep H.
  destruct e as [| | | i | i | i | i | i | i | |]; simpl in Hstep.
  - destruct (Main.isDone p); [discriminate |]. injection Hstep as <-.
    now apply (Sound_frame p).
  - destruct (Main.toSend p) as [|u rest] eqn:E; [discriminate |].
    destruct (negb (Main.urlChanClosed p) && _); [| discriminate]. injection Hstep as <-.
    apply (Sound_frame p); try reflexivity; [| exact H].
    intros url. rewrite !in_somewhere. simpl. rewrite E, in_app_iff. simpl. tauto.
  - destruct (negb (Main.urlChanClosed p) && _); [| discriminate]. injection Hstep as <-.
    now apply (Sound_frame p).
  - destruct (Main.pool p !! i) as [[l log | |]|] eqn:Hi; try discriminate.
    destruct (Main.urlChan p) as [|u rest] eqn:E; [discriminate |]. injection Hstep as <-.
    assert (In u urls) as Hu.
    { destruct H as [_ _ _ Hin]. apply Hin, in_somewhere. rewrite E. simpl. tauto. }
    assert (Sound (Main.receiveURL rest p)) as H1.
    { apply (Sound_frame p); try reflexivity; [| exact H].
      intros url. rewrite !in_somewhere. simpl. rewrite E. simpl. tauto. }
    destruct (handleURL_cases i l log u (Main.receiveURL rest p))
      as (c' & w' & -> & Hc' & Hw').
    assert (Sound (Main.setChecker c' (Main.receiveURL rest p))) as H2.
    { apply Sound_setChecker; [| exact H1]. destruct Hc' as [-> | ->]; [now left |].
      right. now exists u. }
    apply (Sound_setWorker _ i (Main.Selecting l log)); [exact Hi | | | exact H2].
    + destruct Hw' as [(l' & -> & _) | (r & -> & Er & Ho & Hv)]; simpl; [trivial |].
      unfold Trace.genuine. rewrite Er. repeat split; assumption.
    + assert (forall url, In url log -> In url urls) as Hlog
        by (intros url Hin; exact (held_of_pool p i _ url H Hi Hin)).
      destruct Hw' as [(l' & -> & _) | (r & -> & Er & _)]; simpl; intros url.
      * rewrite in_app_iff. simpl. intros [Hin | [<- | []]]; [now apply Hlog | exact Hu].
      * rewrite Er. intros [<- | Hin]; [exact Hu | now apply Hlog].
  - destruct (Main.pool p !! i) as [[l log | |]|] eqn:Hi; try discriminate.
    destruct (Main.urlChan p); [| discriminate].
    destruct (Main.urlChanClosed p); [| discriminate]. injection Hstep as <-.
    apply (Sound_setWorker _ i (Main.Selecting l log)); [exact Hi | exact I | intros ? [] |].
    apply (Sound_frame p); try reflexivity; [| exact H].
    intros url. rewrite !in_somewhere. simpl. rewrite in_app_iff.
    intros [[Hin | Hin] | Hin]; try tauto.
    right. left. exact (in_flat_map_lookup Trace.held _ _ _ _ Hi Hin).
  - destruct (Main.pool p !! i) as [[l log | |]|] eqn:Hi; try discriminate.
    injection Hstep as <-.
    apply (Sound_setWorker _ i (Main.Selecting l log)); [exact Hi | exact I | intros ? [] |].
    apply (Sound_frame p); try reflexivity; [| exact H].
    intros url. rewrite !in_somewhere. simpl. rewrite in_app_iff.
    intros [[Hin | Hin] | Hin]; try tauto.
    right. left. exact (in_flat_map_lookup Trace.held _ _ _ _ Hi Hin).
  - destruct (Main.pool p !! i) as [[l log | |]|] eqn:Hi; try discriminate.
    destruct (Main.isDone p); [| discriminate]. injection Hstep as <-.
    apply (Sound_setWorker _ i (Main.Selecting l log)); [exact Hi | exact I | intros ? [] |].
    apply (Sound_frame p); try reflexivity; [| exact H].
    intros url. rewrite !in_somewhere. simpl. rewrite in_app_iff.
    intros [[Hin | Hin] | Hin]; try tauto.
    right. left. exact (in_flat_map_lookup Trace.held _ _ _ _ Hi Hin).
  - destruct (Main.pool p !! i) as [[| l log r |]|] eqn:Hi; try discriminate.
    destruct (negb (Main.resultsChanClosed p) && _); [| discriminate]. injection Hstep as <-.
    assert (genuine (Main.checker p) r) as Hr.
    { destruct H as [_ _ Ho _]. rewrite Forall_lookup in Ho. exact (Ho i _ Hi). }
    apply (Sound_setWorker _ i (Main.Offering l log r)); [exact Hi | exact I | |].
    + intros url Hin. apply (held_of_pool p i _ url H Hi). simpl in *.
      rewrite in_app_iff in Hin. simpl in Hin. tauto.
    + destruct H as [Hc He Ho Hin]. constructor; simpl; try assumption.
      unfold Trace.emitted in *. simpl. rewrite app_assoc.
      apply Forall_app. split; [exact He | now constructor].
  - destruct (Main.pool p !! i) as [[| l log r |]|] eqn:Hi; try discriminate.
    destruct (Main.isDone p); [| discriminate]. injection Hstep as <-.
    apply (Sound_setWorker _ i (Main.Offering l log r)); [exact Hi | exact I | intros ? [] |].
    apply (Sound_frame p); try reflexivity; [| exact H].
    intros url. rewrite !in_somewhere. simpl. rewrite in_app_iff.
    intros [[Hin | Hin] | Hin]; try tauto.
    right. left. apply (in_flat_map_lookup Trace.held _ _ _ _ Hi). simpl. tauto.
  - destruct (negb (Main.resultsChanClosed p) && _); [| discriminate]. injection Hstep as <-.
    now apply (Sound_frame p).
  - destruct (Main.resultsChan p) as [|r rest] eqn:E; [discriminate |]. injection Hstep as <-.
    apply (Sound_frame p); [reflexivity | | reflexivity | now intros | exact H].
    unfold Trace.emitted. simpl. rewrite E, <- app_assoc. reflexivity.
Qed.

(** *** The results are those of the URLs counted *)

Lemma report_after c (url' url : string) :
  Trace.report pats config (fst (Main.isSuspicious pats c url')) url
  = Trace.report pats config c url.
Proof. unfold Trace.report. now rewrite suspicious_after, isSuspicious_after. Qed.

Lemma expected_after c (url' : string) log :
  Trace.expected pats config (fst (Main.isSuspicious pats c url')) log
  = Trace.expected pats config c log.
Proof. unfold Trace.expected. apply flat_map_ext. intros url. apply report_after. Qed.

Lemma expected_app c log log' :
  Trace.expected pats config c (log ++ log')
  = (Trace.expected pats config c log ++ Trace.expected pats config c log')%list.
Proof. apply flat_map_app. Qed.

Lemma report_clean c (url : string) :
  suspicious c url = false -> Trace.report pats config c url = [].
Proof. unfold Trace.report. now intros ->. Qed.

Lemma report_genuine c r : genuine c r -> Trace.report pats config c (Main.URL r) = [r].
Proof.
  intros (_ & Ho & Hv). unfold Trace.report, Trace.suspicious. rewrite Ho, Hv. now destruct r.
Qed.

Lemma expected_snoc_clean c log (url : string) :
  suspicious c url = false ->
  Trace.expected pats config c (log ++ [url]) = Trace.expected pats config c log.
Proof.
  intros H. rewrite expected_app. unfold Trace.expected at 2. simpl.
  now rewrite (report_clean c url H), app_nil_r.
Qed.

Lemma expected_snoc_genuine c log r :
  genuine c r ->
  Trace.expected pats config c (log ++ [Main.URL r])
  = (Trace.expected pats config c log ++ [r])%list.
Proof.
  intros H. rewrite expected_app. unfold Trace.expected at 2. simpl.
  now rewrite (report_genuine c r H).
Qed.

(** The URLs of the expected results are the suspicious ones. *)
Lemma expected_URL c log :
  map Main.URL (Trace.expected pats config c log) = List.filter (suspicious c) log.
Proof.
  induction log as [|url log IH]; [reflexivity |].
  change (Trace.expected pats config c (url :: log))
    with (Trace.report pats config c url ++ Trace.expected pats config c log)%list.
  rewrite map_app, IH. simpl. unfold Trace.report.
  destruct (suspicious c url); [| reflexivity].
  now destruct (snd (Main.isSuspicious pats c url)) as [[matched category] reason].
Qed.

Lemma Answered_setChecker p c' :
  c' = Main.checker p \/ (exists url, c' = fst (Main.isSuspicious pats (Main.checker p) url)) ->
  Answered p -> Answered (Main.setChecker c' p).
Proof.
  intros [-> | (url & ->)] [Ha Hc]; [now destruct p |].
  constructor; simpl; [| exact Hc].
  rewrite expected_after. exact Ha.
Qed.

Lemma Answered_frame p p' :
  Main.checker p' = Main.checker p -> Trace.emitted p' = Trace.emitted p ->
  Main.pool p' = Main.pool p -> Main.accounted p' = Main.accounted p ->
  Main.resultsChanClosed p' = Main.resultsChanClosed p ->
  Answered p -> Answered p'.
Proof.
  intros Ec Ee Ep Ea Er [Ha Hc]. constructor.
  - rewrite Ec, Ee, Ea, Ep. exact Ha.
  - rewrite Er, Ep. exact Hc.
Qed.

(** A worker that has not returned is replaced; the accounted URLs and
    the results sent may grow, as long as the results stay those of the
    URLs counted. *)
Lemma Answered_replace p p' (i : nat) w w' :
  Main.pool p !! i = Some w -> w <> Main.Returned ->
  Main.pool p' = <[i:=w']> (Main.pool p) ->
  Main.checker p' = Main.checker p ->
  Main.resultsChanClosed p' = Main.resultsChanClosed p ->
  Permutation
    (Trace.emitted p' ++ Trace.expected pats config (Main.checker p) (Main.accounted p)
       ++ Trace.expected pats config (Main.checker p) (Trace.counted w))
    (Trace.emitted p ++ Trace.expected pats config (Main.checker p) (Main.accounted p')
       ++ Trace.expected pats config (Main.checker p) (Trace.counted w')) ->
  Answered p -> Answered p'.
Proof.
  intros Hi Hw Ep Ec Er Hbal [Ha Hc]. constructor.
  - rewrite Ec, Ep.
    destruct (pool_replace _ i w w' Hi) as (before & after & E & ->). rewrite E in Ha.
    rewrite (Permutation_count_occ Trace.Result_eq_dec) in Ha, Hbal.
    apply (Permutation_count_occ Trace.Result_eq_dec). intros x.
    specialize (Ha x). specialize (Hbal x). revert Ha Hbal.
    rewrite ?expected_app, ?flat_map_app. cbn [flat_map].
    rewrite ?expected_app, ?count_occ_app. lia.
  - rewrite Er, Ep. intros Hclosed. specialize (Hc Hclosed).
    rewrite Forall_lookup in Hc. now specialize (Hc i w Hi).
Qed.

(** A worker moves what it counted to the accounted URLs. *)
Lemma Answered_flush p (i : nat) w w' l :
  Main.pool p !! i = Some w -> w <> Main.Returned ->
  Trace.counted w' = [] ->
  Answered p -> Answered (Main.setWorker i w' (Main.flush l (Trace.counted w) p)).
Proof.
  intros Hi Hw Hw' H.
  apply (Answered_replace p _ i w w'); try reflexivity; try assumption.
  simpl. rewrite Hw', expected_app. simpl. now rewrite app_nil_r.
Qed.

Lemma Answered_step (e : Main.Event) p p' :
  Main.step pats config e p = Some p' -> Sound p -> Answered p -> Answered p'.
Proof.
  intros Hstep HS H.
  destruct e as [| | | i | i | i | i | i | i | |]; simpl in Hstep.
  - destruct (Main.isDone p); [discriminate |]. injection Hstep as <-.
    now apply (Answered_frame p).
  - destruct (Main.toSend p) as [|u rest] eqn:E; [discriminate |].
    destruct (negb (Main.urlChanClosed p) && _); [| discriminate]. injection Hstep as <-.
    now apply (Answered_frame p).
  - destruct (negb (Main.urlChanClosed p) && _); [| discriminate]. injection Hstep as <-.
    now apply (Answered_frame p).
  - destruct (Main.pool p !! i) as [[l log | |]|] eqn:Hi; try discriminate.
    destruct (Main.urlChan p) as [|u rest] eqn:E; [discriminate |]. injection Hstep as <-.
    assert (Answered (Main.receiveURL rest p)) as H1 by now apply (Answered_frame p).
    destruct (handleURL_cases i l log u (Main.receiveURL rest p))
      as (c' & w' & -> & Hc' & Hw').
    assert (Answered (Main.setChecker c' (Main.receiveURL rest p))) as H2.
    { apply Answered_setChecker; [| exact H1]. destruct Hc' as [-> | ->]; [now left |].
      right. now exists u. }
    apply (Answered_replace (Main.setChecker c' (Main.receiveURL rest p)) _ i
             (Main.Selecting l log) w');
      try reflexivity; try assumption; try discriminate.
    destruct Hw' as [(l' & -> & Hs) | (r & -> & _)]; simpl; [| reflexivity].
    now rewrite (expected_snoc_clean _ _ _ Hs).
  - destruct (Main.pool p !! i) as [[l log | |]|] eqn:Hi; try discriminate.
    destruct (Main.urlChan p); [| discriminate].
    destruct (Main.urlChanClosed p); [| discriminate]. injection Hstep as <-.
    now apply (Answered_flush p i (Main.Selecting l log)).
  - destruct (Main.pool p !! i) as [[l log | |]|] eqn:Hi; try discriminate.
    injection Hstep as <-.
    now apply (Answered_flush p i (Main.Selecting l log)).
  - destruct (Main.pool p !! i) as [[l log | |]|] eqn:Hi; try discriminate.
    destruct (Main.isDone p); [| discriminate]. injection Hstep as <-.
    now apply (Answered_flush p i (Main.Selecting l log)).
  - destruct (Main.pool p !! i) as [[| l log r |]|] eqn:Hi; try discriminate.
    destruct (negb (Main.resultsChanClosed p) && _); [| discriminate]. injection Hstep as <-.
    assert (genuine (Main.checker p) r) as Hr.
    { destruct HS as [_ _ Ho _]. rewrite Forall_lookup in Ho. exact (Ho i _ Hi). }
    apply (Answered_replace p _ i (Main.Offering l log r)
             (Main.Selecting (Main.countProcessed (Main.countSuspicious l)) (log ++ [Main.URL r])));
      try reflexivity; try assumption; try discriminate.
    unfold Trace.emitted. simpl. rewrite (expected_snoc_genuine _ _ _ Hr).
    apply (Permutation_count_occ Trace.Result_eq_dec). intros x.
    rewrite ?count_occ_app. lia.
  - destruct (Main.pool p !! i) as [[| l log r |]|] eqn:Hi; try discriminate.
    destruct (Main.isDone p); [| discriminate]. injection Hstep as <-.
    now apply (Answered_flush p i (Main.Offering l log r)).
  - destruct (negb (Main.resultsChanClosed p)); [| discriminate]. simpl in Hstep.
    destruct (forallb Main.isReturned (Main.pool p)) eqn:Hall; [| discriminate].
    injection Hstep as <-. destruct H as [Ha Hc]. constructor; try assumption.
    intros _. simpl. apply List.Forall_forall. intros w Hw.
    rewrite forallb_forall in Hall. specialize (Hall w Hw). now destruct w.
  - destruct (Main.resultsChan p) as [|r rest] eqn:E; [discriminate |]. injection Hstep as <-.
    apply (Answered_frame p); try reflexivity; [| exact H].
    unfold Trace.emitted. simpl. rewrite E, <- app_assoc. reflexivity.
Qed.

(** *** Nothing is lost while the context is live *)

Lemma Lossless_frame p p' :
  Main.ctxErr p' = Main.ctxErr p -> Trace.somewhere p' = Trace.somewhere p ->
  Main.pool p' = Main.pool p -> Main.urlChan p' = Main.urlChan p ->
  Main.toSend p' = Main.toSend p -> Main.urlChanClosed p' = Main.urlChanClosed p ->
  Lossless p -> Lossless p'.
Proof.
  intros Ee Es Ep Eu Et Ec [Hm Hk Hs Hr]. constructor.
  - rewrite Es. exact Hm.
  - rewrite Ee, Es. exact Hk.
  - rewrite Ee, Ec, Et. exact Hs.
  - rewrite Ee, Ec, Ep, Eu. exact Hr.
Qed.

(** A worker is replaced and the URLs it held, the accounted ones and
    those in [urlChan] are moved among these three places; some may be
    dropped once the context is done. *)
Lemma Lossless_replace p p' (i : nat) w w' :
  Main.pool p !! i = Some w ->
  Main.pool p' = <[i:=w']> (Main.pool p) ->
  Main.ctxErr p' = Main.ctxErr p ->
  Main.urlChanClosed p' = Main.urlChanClosed p ->
  Main.toSend p' = Main.toSend p ->
  (forall url,
     (count_occ string_dec (Main.accounted p' ++ Trace.held w' ++ Main.urlChan p') url
      <= count_occ string_dec (Main.accounted p ++ Trace.held w ++ Main.urlChan p) url)%nat) ->
  (Main.ctxErr p = None ->
   Permutation (Main.accounted p' ++ Trace.held w' ++ Main.urlChan p')
               (Main.accounted p ++ Trace.held w ++ Main.urlChan p)) ->
  (Main.urlChan p = [] -> Main.urlChan p' = []) ->
  (Main.ctxErr p = None -> w' = Main.Returned ->
   Main.urlChan p' = [] /\ Main.urlChanClosed p' = true) ->
  Lossless p -> Lossless p'.
Proof.
  intros Hi Ep Ee Ec Et Hle Heq Hempty Hret [Hm Hk Hs Hr].
  destruct (pool_replace _ i w w' Hi) as (before & after & E & E').
  constructor.
  - intros url. specialize (Hm url). specialize (Hle url). revert Hm Hle.
    unfold Trace.somewhere. rewrite Ep, E', E, Et.
    rewrite ?flat_map_app. cbn [flat_map]. rewrite ?count_occ_app. lia.
  - rewrite Ee. intros Hctx. specialize (Hk Hctx). specialize (Heq Hctx). revert Hk Heq.
    unfold Trace.somewhere. rewrite Ep, E', E, Et.
    rewrite !(Permutation_count_occ string_dec). intros Hk Heq url.
    specialize (Hk url). specialize (Heq url). revert Hk Heq.
    rewrite ?flat_map_app. cbn [flat_map]. rewrite ?count_occ_app. lia.
  - rewrite Ee, Ec, Et. exact Hs.
  - rewrite Ee, Ep. intros Hctx Hex.
    destruct (Exists_insert_inv _ _ _ _ _ Hi Hex) as [H | H]; [now apply Hret |].
    destruct (Hr Hctx H) as [Hu Hc]. split; [now apply Hempty | now rewrite Ec].
Qed.

(** The same when nothing is dropped. *)
Lemma Lossless_move p p' (i : nat) w w' :
  Main.pool p !! i = Some w ->
  Main.pool p' = <[i:=w']> (Main.pool p) ->
  Main.ctxErr p' = Main.ctxErr p ->
  Main.urlChanClosed p' = Main.urlChanClosed p ->
  Main.toSend p' = Main.toSend p ->
  Permutation (Main.accounted p' ++ Trace.held w' ++ Main.urlChan p')
              (Main.accounted p ++ Trace.held w ++ Main.urlChan p) ->
  (Main.urlChan p = [] -> Main.urlChan p' = []) ->
  (Main.ctxErr p = None -> w' = Main.Returned ->
   Main.urlChan p' = [] /\ Main.urlChanClosed p' = true) ->
  Lossless p -> Lossless p'.
Proof.
  intros Hi Ep Ee Ec Et Heq. apply (Lossless_replace p p' i w w'); try assumption.
  - intros url. rewrite (Permutation_count_occ string_dec) in Heq. now rewrite (Heq url).
  - now intros.
Qed.

Lemma not_done p : Main.isDone p = true -> Main.ctxErr p = None -> False.
Proof. unfold Main.isDone. intros H E. rewrite E in H. discriminate. Qed.

Lemma Lossless_step (e : Main.Event) p p' :
  Main.step pats config e p = Some p' -> Lossless p -> Lossless p'.
Proof.
  intros Hstep H.
  destruct e as [| | | i | i | i | i | i | i | |]; simpl in Hstep.
  - destruct (Main.isDone p); [discriminate |]. injection Hstep as <-.
    destruct H as [Hm _ _ _]. constructor; try discriminate. exact Hm.
  - destruct (Main.toSend p) as [|u rest] eqn:E; [discriminate |].
    destruct (Main.urlChanClosed p) eqn:Eclosed; [discriminate |]. simpl in Hstep.
    destruct (_ <? _); [| discriminate]. injection Hstep as <-.
    assert (Permutation (Trace.somewhere (Main.sendURL rest u p)) (Trace.somewhere p)) as Hp.
    { unfold Trace.somewhere. simpl. rewrite E.
      apply (Permutation_count_occ string_dec). intros x.
      rewrite ?count_occ_app. cbn [count_occ]. destruct (string_dec u x); lia. }
    destruct H as [Hm Hk Hs Hr]. constructor; simpl.
    + intros url. rewrite (Permutation_count_occ string_dec) in Hp. rewrite (Hp url). apply Hm.
    + intros Hctx. rewrite Hp. now apply Hk.
    + rewrite Eclosed. discriminate.
    + intros Hctx Hex. destruct (Hr Hctx Hex) as [_ Hc]. congruence.
  - destruct (Main.urlChanClosed p) eqn:Eclosed; [discriminate |]. simpl in Hstep.
    destruct (Main.isDone p || _) eqn:Eguard; [| discriminate]. injection Hstep as <-.
    destruct H as [Hm Hk Hs Hr]. constructor; simpl.
    + exact Hm.
    + exact Hk.
    + intros Hctx _. unfold Main.isDone in Eguard. rewrite Hctx in Eguard. simpl in Eguard.
      now destruct (Main.toSend p).
    + intros Hctx Hex. destruct (Hr Hctx Hex) as [_ Hc]. congruence.
  - destruct (Main.pool p !! i) as [[l log | |]|] eqn:Hi; try discriminate.
    destruct (Main.urlChan p) as [|u rest] eqn:E; [discriminate |]. injection Hstep as <-.
    destruct (handleURL_cases i l log u (Main.receiveURL rest p))
      as (c' & w' & -> & _ & Hw').
    apply (Lossless_move p _ i (Main.Selecting l log) w'); try reflexivity; try assumption.
    + rewrite E. apply (Permutation_count_occ string_dec). intros x.
      destruct Hw' as [(l' & -> & _) | (r & -> & Hr & _)]; simpl; rewrite ?Hr;
        rewrite ?count_occ_app; cbn [count_occ];
        destruct (string_dec u x); rewrite ?count_occ_app; lia.
    + rewrite E. discriminate.
    + destruct Hw' as [(l' & -> & _) | (r & -> & _)]; discriminate.
  - destruct (Main.pool p !! i) as [[l log | |]|] eqn:Hi; try discriminate.
    destruct (Main.urlChan p) eqn:E; [| discriminate].
    destruct (Main.urlChanClosed p) eqn:Eclosed; [| discriminate]. injection Hstep as <-.
    apply (Lossless_move p _ i (Main.Selecting l log) Main.Returned);
      try reflexivity; try assumption; simpl.
    + rewrite E. simpl. now rewrite !app_nil_r.
    + now intros.
    + now intros.
  - destruct (Main.pool p !! i) as [[l log | |]|] eqn:Hi; try discriminate.
    injection Hstep as <-.
    apply (Lossless_move p _ i (Main.Selecting l log) (Main.Selecting Main.zeroStats []));
      try reflexivity; try assumption; simpl.
    + now rewrite <- app_assoc.
    + now intros.
    + discriminate.
  - destruct (Main.pool p !! i) as [[l log | |]|] eqn:Hi; try discriminate.
    destruct (Main.isDone p) eqn:Edone; [| discriminate]. injection Hstep as <-.
    apply (Lossless_move p _ i (Main.Selecting l log) Main.Returned);
      try reflexivity; try assumption; simpl.
    + now rewrite <- app_assoc.
    + now intros.
    + intros Hctx. destruct (not_done p Edone Hctx).
  - destruct (Main.pool p !! i) as [[| l log r |]|] eqn:Hi; try discriminate.
    destruct (negb (Main.resultsChanClosed p) && _); [| discriminate]. injection Hstep as <-.
    apply (Lossless_move p _ i (Main.Offering l log r)
             (Main.Selecting (Main.countProcessed (Main.countSuspicious l)) (log ++ [Main.URL r])));
      try reflexivity; try assumption; simpl.
    + apply (Permutation_count_occ string_dec). intros x.
      rewrite ?count_occ_app. cbn [count_occ]. rewrite ?count_occ_app. cbn [count_occ].
      destruct (string_dec (Main.URL r) x); lia.
    + now intros.
    + discriminate.
  - destruct (Main.pool p !! i) as [[| l log r |]|] eqn:Hi; try discriminate.
    destruct (Main.isDone p) eqn:Edone; [| discriminate]. injection Hstep as <-.
    apply (Lossless_replace p _ i (Main.Offering l log r) Main.Returned);
      try reflexivity; try assumption; simpl.
    + intros url. rewrite ?count_occ_app. cbn [count_occ]. rewrite ?count_occ_app.
      destruct (string_dec (Main.URL r) url); lia.
    + intros Hctx. destruct (not_done p Edone Hctx).
    + now intros.
    + intros Hctx. destruct (not_done p Edone Hctx).
  - destruct (negb (Main.resultsChanClosed p) && _); [| discriminate]. injection Hstep as <-.
    now apply (Lossless_frame p).
  - destruct (Main.resultsChan p) as [|r rest] eqn:E; [discriminate |]. injection Hstep as <-.
    now apply (Lossless_frame p).
Qed.

End Tracing.

(** *** Lists up to order *)

Lemma Permutation_filter {A} (f : A -> bool) (l l' : list A) :
  Permutation l l' -> Permutation (List.filter f l) (List.filter f l').
Proof.
  induction 1 as [| x l l' _ IH | x y l | l l' l'' _ IH _ IH']; simpl.
  - constructor.
  - destruct (f x); [now constructor | exact IH].
  - destruct (f x), (f y); try reflexivity. constructor.
  - now transitivity (List.filter f l').
Qed.

Lemma Permutation_flat_map {A B} (f : A -> list B) (l l' : list A) :
  Permutation l l' -> Permutation (flat_map f l) (flat_map f l').
Proof.
  induction 1 as [| x l l' _ IH | x y l | l l' l'' _ IH _ IH']; simpl.
  - constructor.
  - now apply Permutation_app_head.
  - rewrite !app_assoc. apply Permutation_app_tail, Permutation_app_comm.
  - now transitivity (flat_map f l').
Qed.

Lemma Permutation_in_iff {A} (l l' : list A) (x : A) :
  Permutation l l' -> In x l <-> In x l'.
Proof. intros H. split; apply Permutation_in; [exact H | now symmetry]. Qed.

(** A list with no more occurrences of anything than another is part of it. *)
Lemma count_occ_le_split (l : list string) : forall l' : list string,
  (forall x, (count_occ string_dec l x <= count_occ string_dec l' x)%nat) ->
  exists rest, Permutation l' (l ++ rest).
Proof.
  induction l as [|a l IH]; intros l' H.
  - now exists l'.
  - assert (In a l') as Hin.
    { apply (count_occ_In string_dec). specialize (H a). simpl in H.
      destruct (string_dec a a); [lia | contradiction]. }
    destruct (in_split _ _ Hin) as (l1 & l2 & ->).
    destruct (IH (l1 ++ l2)%list) as (rest & Hrest).
    { intros x. specialize (H x). revert H. rewrite !count_occ_app. simpl.
      destruct (string_dec a x); lia. }
    exists rest. simpl. rewrite <- Hrest. symmetry. apply Permutation_middle.
Qed.

(** *** From the start of the goroutines to the return *)

Section Running.
Context {L : Go.Lib}.
Variable pats : Suspicious.Patterns.
Variable config : Main.Config.
Variable urls : list string.
Variable c0 : Main.URLChecker.

Implicit Types (c : Main.URLChecker) (p : Main.Pipeline) (w : Main.Worker)
  (r : Main.Result) (log : list string) (o : Spec.Outcome).

Local Abbreviation Traced := (Trace.Traced pats config urls c0).

Lemma Traced_step (e : Main.Event) p p' :
  Main.step pats config e p = Some p' -> Traced p -> Traced p'.
Proof.
  intros Hstep (HS & HA & HL). split; [| split].
  - exact (Sound_step pats config urls c0 e p p' Hstep HS).
  - exact (Answered_step pats config urls c0 e p p' Hstep HS HA).
  - exact (Lossless_step pats config urls e p p' Hstep HL).
Qed.

Lemma Traced_run (schedule : list Main.Event) : forall p p',
  Main.run pats config schedule p = Some p' -> Traced p -> Traced p'.
Proof.
  induction schedule as [|e schedule IH]; intros p p' Hrun H; simpl in Hrun.
  - now injection Hrun as <-.
  - destruct (Main.step pats config e p) as [p1|] eqn:E; [| discriminate].
    apply (IH p1 p' Hrun). exact (Traced_step e p p1 E H).
Qed.

Lemma Traced_spawn (ctx : option Go.error) : Traced (Main.spawn config c0 ctx urls).
Proof.
  assert (Trace.somewhere (Main.spawn config c0 ctx urls) = urls) as Hs.
  { unfold Trace.somewhere, Main.spawn. simpl. now rewrite flat_map_replicate. }
  split; [| split]; constructor.
  - now left.
  - constructor.
  - simpl. now apply Forall_replicate.
  - now rewrite Hs.
  - unfold Trace.emitted. simpl. now rewrite flat_map_replicate.
  - discriminate.
  - rewrite Hs. lia.
  - now rewrite Hs.
  - discriminate.
  - simpl. intros _ H. exfalso.
    induction (Z.to_nat _) as [|n IH]; simpl in H; inversion H; [discriminate | auto].
Qed.

(** The context: only the deadline changes its error, and only once. *)
Lemma step_ctxErr (e : Main.Event) p p' :
  Main.step pats config e p = Some p' ->
  Main.ctxErr p'
  = match Main.ctxErr p with
    | Some err => Some err
    | None => if Trace.isDeadline e then Some Go.DeadlineExceeded else None
    end.
Proof.
  intros Hstep.
  destruct (Trace.isDeadline e) eqn:Ed.
  - destruct e; try discriminate. simpl in Hstep. unfold Main.isDone in Hstep.
    destruct (Main.ctxErr p); [discriminate |]. now injection Hstep as <-.
  - assert (Main.ctxErr p' = Main.ctxErr p) as ->; [| now destruct (Main.ctxErr p)].
    destruct e; try discriminate; simpl in Hstep;
      repeat match type of Hstep with
             | context [match ?x with _ => _ end] => destruct x; try discriminate
             end;
      injection Hstep as <-; try reflexivity.
    unfold Main.handleURL.
    repeat match goal with
           | |- context [match ?x with _ => _ end] => destruct x
           end; reflexivity.
Qed.

Lemma run_ctxErr (schedule : list Main.Event) : forall p p',
  Main.run pats config schedule p = Some p' ->
  Main.ctxErr p'
  = match Main.ctxErr p with
    | Some err => Some err
    | None => if existsb Trace.isDeadline schedule then Some Go.DeadlineExceeded else None
    end.
Proof.
  induction schedule as [|e schedule IH]; intros p p' Hrun; simpl in Hrun.
  - injection Hrun as <-. now destruct (Main.ctxErr p).
  - destruct (Main.step pats config e p) as [p1|] eqn:E; [| discriminate].
    rewrite (IH p1 p' Hrun), (step_ctxErr e p p1 E). simpl.
    destruct (Main.ctxErr p); [reflexivity |].
    destruct (Trace.isDeadline e); [reflexivity |]. reflexivity.
Qed.

(** Compiling is what a call of [isSuspicious] does to the checker. *)
Lemma compile_as_call c :
  Main.compileRegexes pats c = fst (Main.isSuspicious pats c "x").
Proof. reflexivity. Qed.

Lemma stage_cases (P : Main.URLChecker -> Prop) c :
  c = c0 \/ c = Main.compileRegexes pats c0 ->
  P c0 -> (forall url, P (fst (Main.isSuspicious pats c0 url))) -> P c.
Proof. intros [-> | ->] H0 H1; [exact H0 |]. rewrite compile_as_call. apply H1. Qed.

Lemma genuine_stage c r :
  c = c0 \/ c = Main.compileRegexes pats c0 ->
  Trace.genuine pats config urls c r -> Trace.genuine pats config urls c0 r.
Proof.
  intros Hc. apply (stage_cases (fun c => Trace.genuine pats config urls c r -> _) c Hc);
    [trivial |].
  intros url (Hin & Ho & Hv). repeat split; [exact Hin | |].
  - now rewrite outcome_after in Ho.
  - now rewrite isSuspicious_after in Hv.
Qed.

Lemma expected_stage c log :
  c = c0 \/ c = Main.compileRegexes pats c0 ->
  Trace.expected pats config c log = Trace.expected pats config c0 log.
Proof.
  intros Hc. apply (stage_cases (fun c => Trace.expected pats config c log = _) c Hc);
    [reflexivity |].
  intros url. apply expected_after.
Qed.

Lemma count_stage o c log :
  c = c0 \/ c = Main.compileRegexes pats c0 ->
  Spec.count pats o config c log = Spec.count pats o config c0 log.
Proof.
  intros Hc. apply (stage_cases (fun c => Spec.count pats o config c log = _) c Hc);
    [reflexivity |].
  intros url. apply count_after.
Qed.

Lemma count_Permutation o c log log' :
  Permutation log log' -> Spec.count pats o config c log = Spec.count pats o config c log'.
Proof.
  intros H. unfold Spec.count. f_equal. apply Permutation_length. now apply Permutation_filter.
Qed.

Lemma count_part o c log rest :
  Spec.count pats o config c log <= Spec.count pats o config c (log ++ rest).
Proof. rewrite count_app. pose proof (count_nonneg pats config o c rest). lia. Qed.

(** A genuine result in plain terms. *)
Lemma genuine_plain c r :
  Trace.genuine pats config urls c r ->
  In (Main.URL r) urls /\
  snd (Main.isSuspicious pats c (Main.URL r)) = (true, Main.Category r, Main.Reason r) /\
  String.eqb (Go.TrimSpace (Main.URL r)) "" = false /\
  (Main.validateURLs config = true -> Main.isValidURL (Main.URL r) = true).
Proof.
  intros (Hin & Ho & Hv). split; [exact Hin |]. split; [exact Hv |].
  unfold Spec.outcome in Ho.
  destruct (String.eqb (Go.TrimSpace (Main.URL r)) ""); [discriminate |].
  split; [reflexivity |]. intros Hval. rewrite Hval in Ho. simpl in Ho.
  now destruct (Main.isValidURL (Main.URL r)).
Qed.

(** Workers that have all returned hold nothing. *)
Lemma returned_hold_nothing (f : Main.Worker -> list string) (pool : list Main.Worker) :
  f Main.Returned = [] -> Forall (fun w => w = Main.Returned) pool -> flat_map f pool = [].
Proof.
  intros Hf H. induction H as [|w pool -> _ IH]; simpl; [reflexivity |]. now rewrite Hf, IH.
Qed.

(** The state [processURLs] returns in: [resultsChan] is closed and
    drained, so all workers have returned, and what was sent is collected. *)
Lemma at_return p (results : list Main.Result) (stats : Main.Stats) (err : option Go.error) :
  Main.returned config p = Some (results, stats, err) -> Traced p ->
  Main.results p = results /\ Main.stats p = stats /\ Main.ctxErr p = err /\
  Forall (Trace.genuine pats config urls c0) results /\
  (Main.checker p = c0 \/ Main.checker p = Main.compileRegexes pats c0) /\
  Permutation results (Trace.expected pats config c0 (Main.accounted p)) /\
  (exists rest, Permutation urls (Main.accounted p ++ rest)) /\
  (err = None -> Main.pool p <> [] -> Permutation (Main.accounted p) urls).
Proof.
  unfold Main.returned. intros Hret (HS & HA & HL).
  destruct (Main.resultsChanClosed p) eqn:Eclosed; [| discriminate].
  destruct (Main.resultsChan p) eqn:Echan; [| discriminate].
  destruct (negb (Main.verbose config) || Main.isDone p); [| discriminate].
  injection Hret as <- <- <-.
  destruct HS as [Hc He _ _]. destruct HA as [Ha Hlate]. destruct HL as [Hm Hk Hs Hr].
  specialize (Hlate Eclosed).
  unfold Trace.emitted in He, Ha. rewrite Echan, app_nil_r in He, Ha.
  rewrite (returned_hold_nothing Trace.counted _ eq_refl Hlate), app_nil_r in Ha.
  rewrite (expected_stage _ _ Hc) in Ha.
  repeat split; try assumption.
  - eapply Forall_impl; [exact He |]. intros r. now apply genuine_stage.
  - apply count_occ_le_split. intros x. specialize (Hm x). revert Hm.
    unfold Trace.somewhere. rewrite !count_occ_app. lia.
  - intros Hctx Hpool. specialize (Hk Hctx). specialize (Hs Hctx). specialize (Hr Hctx).
    destruct Hr as [Hu Hcl].
    { destruct (Main.pool p) as [|w pool]; [contradiction |].
      inversion Hlate; subst. now left. }
    rewrite <- Hk. unfold Trace.somewhere.
    now rewrite (returned_hold_nothing Trace.held _ eq_refl Hlate), Hu, (Hs Hcl), !app_nil_r.
Qed.

(** The pool keeps its size. *)
Lemma step_pool (e : Main.Event) p p' :
  Main.step pats config e p = Some p' ->
  List.length (Main.pool p') = List.length (Main.pool p).
Proof.
  intros Hstep.
  destruct e; simpl in Hstep;
    repeat match type of Hstep with
           | context [match ?x with _ => _ end] => destruct x; try discriminate
           end;
    injection Hstep as <-; try reflexivity; try apply length_insert.
  unfold Main.handleURL.
  repeat match goal with
         | |- context [match ?x with _ => _ end] => destruct x
         end; apply length_insert.
Qed.

Lemma run_pool (schedule : list Main.Event) : forall p p',
  Main.run pats config schedule p = Some p' ->
  List.length (Main.pool p') = List.length (Main.pool p).
Proof.
  induction schedule as [|e schedule IH]; intros p p' Hrun; simpl in Hrun.
  - now injection Hrun as <-.
  - destruct (Main.step pats config e p) as [p1|] eqn:E; [| discriminate].
    rewrite (IH p1 p' Hrun). exact (step_pool e p p1 E).
Qed.

(** With a CPU there is a worker. *)
Lemma numWorkersFor_positive (n : Z) :
  1 <= Go.NumCPU -> 0 <= n -> 1 <= Main.numWorkersFor config n.
Proof.
  intros Hcpu H0.
  assert (0 <= n / 10 <= n) by (split; [apply Z.div_pos | apply Z.div_le_upper_bound]; lia).
  unfold Main.numWorkersFor, Main.maxWorkers, Main.min.
  destruct (Z.leb_spec (Main.workers config) 0);
    match goal with
    | |- context [if ?a >? 500 then _ else _] => destruct (Z.gtb_spec a 500)
    end;
    destruct (Z.ltb_spec n 1000);
    try rewrite int_div_small by lia;
    try rewrite int_add_small by (unfold Go.MinInt, Go.MaxInt; lia);
    repeat match goal with
           | |- context [if ?a <? ?b then _ else _] => destruct (Z.ltb_spec a b)
           end; lia.
Qed.

Lemma numWorkersFor_most (n : Z) :
  0 <= n -> Main.numWorkersFor config n <= Main.maxWorkers.
Proof.
  intros H0.
  assert (0 <= n / 10 <= n) by (split; [apply Z.div_pos | apply Z.div_le_upper_bound]; lia).
  unfold Main.numWorkersFor, Main.maxWorkers, Main.min.
  destruct (Z.leb_spec (Main.workers config) 0);
    match goal with
    | |- context [if ?a >? 500 then _ else _] => destruct (Z.gtb_spec a 500)
    end;
    destruct (Z.ltb_spec n 1000);
    try rewrite int_div_small by lia;
    try rewrite int_add_small by (unfold Go.MinInt, Go.MaxInt; lia);
    repeat match goal with
           | |- context [if ?a <? ?b then _ else _] => destruct (Z.ltb_spec a b)
           end; lia.
Qed.

Lemma count_occ_filter_le (f : string -> bool) log (x : string) :
  (count_occ string_dec (List.filter f log) x <= count_occ string_dec log x)%nat.
Proof.
  induction log as [|a log IH]; simpl; [lia |].
  destruct (f a); simpl; destruct (string_dec a x); lia.
Qed.

(** What a complete run of [processURLs] on a non-empty slice ends in. *)
Lemma processURLs_run (ctx : option Go.error) (schedule : list Main.Event) c'
    (results : list Main.Result) (stats : Main.Stats) (err : option Go.error) :
  Main.processURLs pats config c0 ctx urls schedule = Some (c', (results, stats, err)) ->
  (urls = [] /\ c' = c0 /\ results = [] /\ stats = Main.noStats /\ err = None) \/
  (urls <> [] /\
   exists p,
     Main.run pats config schedule (Main.spawn config c0 ctx urls) = Some p /\
     Main.returned config p = Some (results, stats, err) /\ Main.checker p = c').
Proof.
  unfold Main.processURLs. destruct (Go.len_slice urls =? 0) eqn:E0.
  - intros [= <- <- <- <-]. left. destruct urls; [now repeat split | discriminate].
  - destruct (Main.run pats config schedule _) as [p|] eqn:Hrun; [| discriminate].
    destruct (Main.returned config p) as [[[rs st] e]|] eqn:Hret; [| discriminate].
    intros [= <- <- <- <-]. right. split; [now intros -> |]. now exists p.
Qed.

(** The checker after the call. *)
Lemma processURLs_checker (ctx : option Go.error) (schedule : list Main.Event) c'
    (results : list Main.Result) (stats : Main.Stats) (err : option Go.error) :
  Main.processURLs pats config c0 ctx urls schedule = Some (c', (results, stats, err)) ->
  c' = c0 \/ c' = Main.compileRegexes pats c0.
Proof.
  intros H.
  destruct (processURLs_run ctx schedule c' results stats err H)
    as [(_ & -> & _) | (_ & p & Hrun & _ & <-)]; [now left |].
  apply (Traced_run schedule _ p Hrun (Traced_spawn ctx)).
Qed.

(** In verbose mode [progressWG.Wait()] only returns once the context is
    done. *)
Lemma processURLs_verbose (ctx : option Go.error) (schedule : list Main.Event) c'
    (results : list Main.Result) (stats : Main.Stats) (err : option Go.error) :
  Main.processURLs pats config c0 ctx urls schedule = Some (c', (results, stats, err)) ->
  urls <> [] -> Main.verbose config = true -> err <> None.
Proof.
  intros H Hne Hv.
  destruct (processURLs_run ctx schedule c' results stats err H)
    as [(-> & _) | (_ & p & _ & Hret & _)]; [contradiction |].
  unfold Main.returned in Hret. rewrite Hv in Hret. simpl in Hret.
  destruct (Main.resultsChanClosed p && _ && Main.isDone p) eqn:Eguard; [| discriminate].
  injection Hret as _ _ <-.
  apply andb_true_iff in Eguard as [_ Hdone]. unfold Main.isDone in Hdone.
  now destruct (Main.ctxErr p).
Qed.

(** Without a deadline, from a live context, there is no error. *)
Lemma processURLs_live (schedule : list Main.Event) c'
    (results : list Main.Result) (stats : Main.Stats) (err : option Go.error) :
  Main.processURLs pats config c0 None urls schedule = Some (c', (results, stats, err)) ->
  existsb Trace.isDeadline schedule = false -> err = None.
Proof.
  intros H Hd.
  destruct (processURLs_run None schedule c' results stats err H)
    as [(_ & _ & _ & _ & ->) | (_ & p & Hrun & Hret & _)]; [reflexivity |].
  pose proof (run_ctxErr schedule _ p Hrun) as Hctx. simpl in Hctx. rewrite Hd in Hctx.
  unfold Main.returned in Hret. destruct (_ && _); [| discriminate].
  injection Hret as _ _ <-. exact Hctx.
Qed.

(** Without error the results are those of the input. *)
Lemma processURLs_all (ctx : option Go.error) (schedule : list Main.Event) c'
    (results : list Main.Result) (stats : Main.Stats) :
  1 <= Go.NumCPU ->
  Main.processURLs pats config c0 ctx urls schedule = Some (c', (results, stats, None)) ->
  Permutation results (Trace.expected pats config c0 urls).
Proof.
  intros Hcpu H.
  destruct (processURLs_run ctx schedule c' results stats None H)
    as [(-> & _ & -> & _) | (_ & p & Hrun & Hret & _)]; [constructor |].
  pose proof (Traced_run schedule _ p Hrun (Traced_spawn ctx)) as HT.
  destruct (at_return p results stats None Hret HT) as (_ & _ & _ & _ & _ & Hperm & _ & Hall).
  rewrite Hperm. apply Permutation_flat_map, Hall; [reflexivity |].
  intros E. apply (f_equal (@List.length _)) in E.
  rewrite (run_pool schedule _ p Hrun) in E. simpl in E. rewrite length_replicate in E.
  assert (0 <= Go.len_slice urls) by (unfold Go.len_slice; lia).
  pose proof (numWorkersFor_positive (Go.len_slice urls) Hcpu). lia.
Qed.

End Running.

(** X6.  [processURLs] makes nothing up, whatever the interleaving of its
    goroutines and whenever the deadline passes: every result it returns
    has a URL of the input that is not blank and, when validation is on,
    valid, and carries the category and reason [isSuspicious] gives for
    that URL; no URL is reported more often than it occurs in the input;
    and the checker is left as it was, or compiled. *)
Theorem processURLs_reports_only_matches (L : Go.Lib) (pats : Suspicious.Patterns)
    (config : Main.Config) (c c' : Main.URLChecker) (ctx err : option Go.error)
    (urls : list string) (schedule : list Main.Event) (results : list Main.Result)
    (stats : Main.Stats) :
  Main.processURLs pats config c ctx urls schedule = Some (c', (results, stats, err)) ->
  Forall (fun r =>
            In (Main.URL r) urls /\
            snd (Main.isSuspicious pats c (Main.URL r))
            = (true, Main.Category r, Main.Reason r) /\
            String.eqb (Go.TrimSpace (Main.URL r)) "" = false /\
            (Main.validateURLs config = true -> Main.isValidURL (Main.URL r) = true))
         results /\
  (forall url,
     (count_occ string_dec (map Main.URL results) url <= count_occ string_dec urls url)%nat) /\
  (c' = c \/ c' = Main.compileRegexes pats c).
Proof.
  intros H.
  destruct (processURLs_run pats config urls c ctx schedule c' results stats err H)
    as [(_ & -> & -> & _) | (_ & p & Hrun & Hret & <-)].
  { split; [constructor |]. split; [intros; simpl; lia | now left]. }
  pose proof (Traced_run pats config urls c schedule _ p Hrun
                (Traced_spawn pats config urls c ctx)) as HT.
  destruct (at_return pats config urls c p results stats err Hret HT)
    as (_ & _ & _ & Hg & Hstage & Hperm & (rest & Hrest) & _).
  split; [| split; [| exact Hstage]].
  - eapply Forall_impl; [exact Hg |]. intros r. apply genuine_plain.
  - intros url.
    apply (Permutation_map Main.URL) in Hperm. rewrite expected_URL in Hperm.
    rewrite (Permutation_count_occ string_dec) in Hperm, Hrest.
    rewrite (Hperm url), (Hrest url), count_occ_app.
    pose proof (count_occ_filter_le (Trace.suspicious pats config c) (Main.accounted p) url).
    lia.
Qed.

(** The run of [TestProcessURLs]. *)
Lemma processURLs_reports_only_matches_witness :
  exists c' results stats err,
    Main.processURLs AsciiLib.testPatterns Inputs.testConfig Inputs.processChecker None
      Inputs.testURLs Inputs.testSchedule = Some (c', (results, stats, err)) /\
    map Main.URL results = ["http://bad.com/evil"; "http://bad.com/evil.exe"] /\
    Forall (fun r => In (Main.URL r) Inputs.testURLs) results.
Proof.
  match goal with
  | |- exists c' results stats err, ?l = _ /\ _ =>
      let v := eval vm_compute in l in
      match v with
      | Some (?c', (?results, ?stats, ?err)) =>
          exists c', results, stats, err;
          assert (l = v) as H by exact (@eq_refl _ v <: l = v)
      end
  end.
  split; [exact H |]. split; [reflexivity |].
  destruct (processURLs_reports_only_matches _ _ _ _ _ _ _ _ _ _ _ H) as (Hg & _ & _).
  eapply Forall_impl; [exact Hg |]. now intros r (Hin & _).
Defined.

(** X7.  [processURLs] never counts too much, deadline or not: the
    statistics it returns count as suspicious exactly the results it
    returns, and count no more suspicious, invalid or skipped URLs than
    the input holds, nor more URLs in all.  The number of URLs is an
    [int]. *)
Theorem processURLs_never_overcounts (L : Go.Lib) (pats : Suspicious.Patterns)
    (config : Main.Config) (c c' : Main.URLChecker) (ctx err : option Go.error)
    (urls : list string) (schedule : list Main.Event) (results : list Main.Result)
    (stats : Main.Stats) :
  Go.len_slice urls <= Go.MaxInt ->
  Main.processURLs pats config c ctx urls schedule = Some (c', (results, stats, err)) ->
  Main.SuspiciousURLs stats = Go.len_slice results /\
  Main.SuspiciousURLs stats <= Spec.count pats Spec.Suspicious config c urls /\
  Main.InvalidURLs stats <= Spec.count pats Spec.Invalid config c urls /\
  Main.SkippedURLs stats <= Spec.count pats Spec.Skipped config c urls /\
  Main.ProcessedURLs stats + Main.SkippedURLs stats <= Go.len_slice urls.
Proof.
  intros Hmax H.
  destruct (processURLs_run pats config urls c ctx schedule c' results stats err H)
    as [(-> & _ & -> & -> & _) | (_ & p & Hrun & Hret & _)].
  { repeat split; discriminate. }
  pose proof (Traced_run pats config urls c schedule _ p Hrun
                (Traced_spawn pats config urls c ctx)) as HT.
  destruct (at_return pats config urls c p results stats err Hret HT)
    as (_ & <- & _ & _ & Hstage & Hperm & (rest & Hrest) & _).
  pose proof (run_consistent pats config schedule _ p Hrun
                (spawn_consistent pats config c ctx urls Hmax)) as (Hs & _).
  pose proof (tallied_bound _ _ _ _ _ _ _ _ Hs) as (_ & _ & _ & _ & _ & Hsum).
  destruct Hs as (HS & HI & _ & HK).
  rewrite (count_stage pats config c _ _ _ Hstage) in HS.
  rewrite (count_stage pats config c _ _ _ Hstage) in HI.
  rewrite (count_stage pats config c _ _ _ Hstage) in HK.
  pose proof (count_part pats config Spec.Suspicious c (Main.accounted p) rest).
  pose proof (count_part pats config Spec.Invalid c (Main.accounted p) rest).
  pose proof (count_part pats config Spec.Skipped c (Main.accounted p) rest).
  rewrite !(count_Permutation pats config _ c _ _ Hrest).
  apply Permutation_length in Hrest. rewrite length_app in Hrest.
  split; [| unfold Go.len_slice; lia].
  rewrite HS. unfold Go.len_slice, Spec.count. f_equal.
  rewrite (Permutation_length Hperm), <- (length_map Main.URL), expected_URL.
  reflexivity.
Qed.

(** The run that the deadline cuts short: one result, one suspicious. *)
Lemma processURLs_never_overcounts_witness :
  exists c' results stats err,
    Main.processURLs AsciiLib.testPatterns Inputs.timeoutConfig Inputs.processChecker None
      Inputs.deadlineURLs Inputs.timeoutSchedule = Some (c', (results, stats, err)) /\
    err = Some Go.DeadlineExceeded /\
    Main.SuspiciousURLs stats = Go.len_slice results /\
    Main.ProcessedURLs stats + Main.SkippedURLs stats <= Go.len_slice Inputs.deadlineURLs.
Proof.
  match goal with
  | |- exists c' results stats err, ?l = _ /\ _ =>
      let v := eval vm_compute in l in
      match v with
      | Some (?c', (?results, ?stats, ?err)) =>
          exists c', results, stats, err;
          assert (l = v) as H by exact (@eq_refl _ v <: l = v)
      end
  end.
  split; [exact H |]. split; [reflexivity |].
  assert (Go.len_slice Inputs.deadlineURLs <= Go.MaxInt) as Hmax by (vm_compute; discriminate).
  destruct (processURLs_never_overcounts _ _ _ _ _ _ _ _ _ _ _ Hmax H)
    as (Hn & _ & _ & _ & Hle).
  split; [exact Hn | exact Hle].
Defined.

(** X8.  When [processURLs] returns without error nothing was lost,
    whatever the interleaving: the results are those of the suspicious
    URLs of the input, one for each occurrence, in some order, and the
    statistics are the tally of the input, every URL being counted as
    processed or as skipped.  There is a CPU and the number of URLs is an
    [int]. *)
Theorem processURLs_complete_without_error (L : Go.Lib) (pats : Suspicious.Patterns)
    (config : Main.Config) (c c' : Main.URLChecker) (ctx : option Go.error)
    (urls : list string) (schedule : list Main.Event) (results : list Main.Result)
    (stats : Main.Stats) :
  1 <= Go.NumCPU ->
  Go.len_slice urls <= Go.MaxInt ->
  Main.processURLs pats config c ctx urls schedule = Some (c', (results, stats, None)) ->
  Permutation results (Trace.expected pats config c urls) /\
  Spec.tallied pats config c urls
    (Main.SuspiciousURLs stats) (Main.InvalidURLs stats)
    (Main.ProcessedURLs stats) (Main.SkippedURLs stats) /\
  Main.ProcessedURLs stats + Main.SkippedURLs stats = Go.len_slice urls.
Proof.
  intros Hcpu Hmax H.
  destruct (processURLs_run pats config urls c ctx schedule c' results stats None H)
    as [(-> & _ & -> & -> & _) | (Hne & p & Hrun & Hret & _)].
  { split; [constructor |]. split; [now repeat split | reflexivity]. }
  pose proof (Traced_run pats config urls c schedule _ p Hrun
                (Traced_spawn pats config urls c ctx)) as HT.
  destruct (at_return pats config urls c p results stats None Hret HT)
    as (_ & <- & _ & _ & Hstage & Hperm & _ & Hall).
  assert (Main.pool p <> []) as Hpool.
  { intros E. apply (f_equal (@List.length _)) in E.
    rewrite (run_pool pats config schedule _ p Hrun) in E. simpl in E.
    rewrite length_replicate in E.
    assert (0 <= Go.len_slice urls) by (unfold Go.len_slice; lia).
    pose proof (numWorkersFor_positive config (Go.len_slice urls) Hcpu). lia. }
  specialize (Hall eq_refl Hpool).
  pose proof (run_consistent pats config schedule _ p Hrun
                (spawn_consistent pats config c ctx urls Hmax)) as (Hs & _).
  pose proof (tallied_bound _ _ _ _ _ _ _ _ Hs) as (_ & _ & _ & _ & _ & Hsum).
  split; [| split].
  - rewrite Hperm. now apply Permutation_flat_map.
  - unfold Spec.tallied in *.
    rewrite !(count_stage pats config c _ _ _ Hstage) in Hs.
    now rewrite !(count_Permutation pats config _ c _ _ Hall) in Hs.
  - rewrite Hsum. unfold Go.len_slice. f_equal. now apply Permutation_length.
Qed.

(** The run of [TestProcessURLs]: two results, and the four URLs tallied. *)
Lemma processURLs_complete_without_error_witness :
  exists c' results stats,
    Main.processURLs AsciiLib.testPatterns Inputs.testConfig Inputs.processChecker None
      Inputs.testURLs Inputs.testSchedule = Some (c', (results, stats, None)) /\
    Permutation results
      (Trace.expected AsciiLib.testPatterns Inputs.testConfig Inputs.processChecker
         Inputs.testURLs) /\
    Main.ProcessedURLs stats + Main.SkippedURLs stats = 4.
Proof.
  match goal with
  | |- exists c' results stats, ?l = _ /\ _ =>
      let v := eval vm_compute in l in
      match v with
      | Some (?c', (?results, ?stats, None)) =>
          exists c', results, stats;
          assert (l = v) as H by exact (@eq_refl _ v <: l = v)
      end
  end.
  split; [exact H |].
  assert (1 <= Go.NumCPU (Lib := AsciiLib.lib)) as Hcpu by (vm_compute; discriminate).
  assert (Go.len_slice Inputs.testURLs <= Go.MaxInt) as Hmax by (vm_compute; discriminate).
  destruct (processURLs_complete_without_error _ _ _ _ _ _ _ _ _ _ Hcpu Hmax H)
    as (Hp & _ & Hn).
  split; [exact Hp | exact Hn].
Defined.

(** X9.  The error of [processURLs] is that of the context when it
    returns.  On an empty slice it returns at once, with no error even
    when the context is already done.  Otherwise it returns the error the
    context had at the call, if any, else [DeadlineExceeded] if the
    deadline passed during the run, else none; and in verbose mode it
    only returns once the context is done, so never without error. *)
Theorem processURLs_returns_context_error (L : Go.Lib) (pats : Suspicious.Patterns)
    (config : Main.Config) (c c' : Main.URLChecker) (ctx err : option Go.error)
    (urls : list string) (schedule : list Main.Event) (results : list Main.Result)
    (stats : Main.Stats) :
  Main.processURLs pats config c ctx urls schedule = Some (c', (results, stats, err)) ->
  (urls = [] -> err = None /\ results = [] /\ stats = Main.noStats) /\
  (urls <> [] ->
   err = match ctx with
         | Some e => Some e
         | None =>
             if existsb Trace.isDeadline schedule then Some Go.DeadlineExceeded else None
         end /\
   (Main.verbose config = true -> err <> None)).
Proof.
  intros H.
  destruct (processURLs_run pats config urls c ctx schedule c' results stats err H)
    as [(-> & _ & -> & -> & ->) | (Hne & p & Hrun & Hret & _)].
  { split; [now intros | now intros []]. }
  split; [intros E; contradiction |]. intros _.
  pose proof (run_ctxErr pats config schedule _ p Hrun) as Hctx. simpl in Hctx.
  unfold Main.returned in Hret.
  destruct (Main.resultsChanClosed p && _ && _) eqn:Eguard; [| discriminate].
  injection Hret as _ _ <-. split; [exact Hctx |].
  intros Hv. rewrite Hv in Eguard. simpl in Eguard.
  apply andb_true_iff in Eguard as [_ Hdone]. unfold Main.isDone in Hdone.
  now destruct (Main.ctxErr p).
Qed.

(** The run that the deadline cuts short returns [DeadlineExceeded]. *)
Lemma processURLs_returns_context_error_witness :
  exists c' results stats,
    Main.processURLs AsciiLib.testPatterns Inputs.timeoutConfig Inputs.processChecker None
      Inputs.deadlineURLs Inputs.timeoutSchedule
    = Some (c', (results, stats, Some Go.DeadlineExceeded)) /\
    Some Go.DeadlineExceeded
    = (if existsb Trace.isDeadline Inputs.timeoutSchedule
       then Some Go.DeadlineExceeded else None) /\
    (Main.verbose Inputs.timeoutConfig = true -> Some Go.DeadlineExceeded <> None).
Proof.
  match goal with
  | |- exists c' results stats, ?l = _ /\ _ =>
      let v := eval vm_compute in l in
      match v with
      | Some (?c', (?results, ?stats, _)) =>
          exists c', results, stats;
          assert (l = v) as H by exact (@eq_refl _ v <: l = v)
      end
  end.
  split; [exact H |].
  apply (proj2 (processURLs_returns_context_error _ _ _ _ _ _ _ _ _ _ _ H)).
  discriminate.
Defined.

(** ** Reading the file and writing the results *)

(** The byte-wise order of strings is a strict total order. *)
Lemma ltb_trans (a b c : string) :
  String.ltb a b = true -> String.ltb b c = true -> String.ltb a c = true.
Proof.
  unfold String.ltb. intros Hab Hbc.
  assert (OrderedTypeEx.String_as_OT.lt a c) as H.
  { apply (OrderedTypeEx.String_as_OT.lt_trans a b c);
      apply OrderedTypeEx.String_as_OT.cmp_lt; unfold OrderedTypeEx.String_as_OT.cmp.
    - now destruct (String.compare a b).
    - now destruct (String.compare b c). }
  apply OrderedTypeEx.String_as_OT.cmp_lt in H. unfold OrderedTypeEx.String_as_OT.cmp in H.
  now rewrite H.
Qed.

Lemma ltb_total (a b : string) :
  String.ltb a b = false -> a <> b -> String.ltb b a = true.
Proof.
  unfold String.ltb. intros Hab Hne. rewrite String.compare_antisym.
  destruct (String.compare a b) eqn:E; try discriminate; [| reflexivity].
  apply String.compare_eq_iff in E. contradiction.
Qed.

Section Sorting.

Implicit Types (r : Main.Result) (results sorted : list Main.Result).

Lemma insertByURL_Permutation r sorted :
  Permutation (Main.insertByURL r sorted) (r :: sorted).
Proof.
  induction sorted as [|r' rest IH]; simpl; [reflexivity |].
  destruct (String.ltb (Main.URL r') (Main.URL r)); [| reflexivity].
  rewrite IH. constructor.
Qed.

Lemma sortByURL_Permutation results : Permutation (Main.sortByURL results) results.
Proof.
  induction results as [|r results IH]; simpl; [constructor |].
  rewrite insertByURL_Permutation. now constructor.
Qed.

Lemma insertByURL_sorted r sorted :
  StronglySorted Trace.byURL sorted ->
  Forall (fun r' => Main.URL r' <> Main.URL r) sorted ->
  StronglySorted Trace.byURL (Main.insertByURL r sorted).
Proof.
  induction sorted as [|r' rest IH]; intros Hs Hne; simpl.
  - repeat constructor.
  - apply StronglySorted_inv in Hs as [Hs Hall].
    apply Forall_cons in Hne as [Hne Hne'].
    destruct (String.ltb (Main.URL r') (Main.URL r)) eqn:E.
    + constructor; [now apply IH |].
      rewrite insertByURL_Permutation. now constructor.
    + pose proof (ltb_total _ _ E Hne) as Hlt.
      constructor; [now constructor |]. constructor; [exact Hlt |].
      eapply Forall_impl; [exact Hall |]. intros x Hx. exact (ltb_trans _ _ _ Hlt Hx).
Qed.

(** Sorting results with pairwise distinct URLs puts them in strictly
    ascending order. *)
Lemma sortByURL_sorted results :
  NoDup (map Main.URL results) -> StronglySorted Trace.byURL (Main.sortByURL results).
Proof.
  induction results as [|r results IH]; intros H; simpl; [constructor |].
  apply NoDup_cons in H as [Hr H].
  apply insertByURL_sorted; [now apply IH |].
  rewrite sortByURL_Permutation. apply List.Forall_forall. intros r' Hin E.
  apply Hr, list_elem_of_In, in_map_iff. now exists r'.
Qed.

Lemma byURL_ascending sorted :
  StronglySorted Trace.byURL sorted -> StronglySorted Trace.ascending (map Main.URL sorted).
Proof.
  induction 1 as [|r sorted _ IH Hall]; simpl; constructor; [exact IH |].
  apply List.Forall_forall. intros u Hin. apply in_map_iff in Hin as (r' & <- & Hin).
  rewrite List.Forall_forall in Hall. now apply Hall.
Qed.

End Sorting.

Section Files.
Context {L : Go.Lib}.
Variable pats : Suspicious.Patterns.
Variable w : Main.World.
Variable config : Main.Config.

Implicit Types (lines urls : list string) (ctx : option Go.error) (st : Main.Chunking).

Lemma poll_None (k : nat) ctx : Main.poll w k ctx = None -> ctx = None.
Proof. unfold Main.poll. now destruct ctx. Qed.

Lemma poll_Some (k : nat) ctx (e : Go.error) :
  Main.poll w k ctx = Some e -> ctx = Some e \/ (ctx = None /\ e = Go.DeadlineExceeded).
Proof.
  unfold Main.poll. destruct ctx; [intros [= <-]; now left |].
  destruct (Main.expiredAtPoll w k); [intros [= <-]; now right | discriminate].
Qed.

Lemma unskipped_cons (text : string) lines :
  Trace.unskipped (text :: lines)
  = if Main.isSkippedLine (Go.TrimSpace text) then Trace.unskipped lines
    else Go.TrimSpace text :: Trace.unskipped lines.
Proof. unfold Trace.unskipped. simpl. now destruct (Main.isSkippedLine _). Qed.

(** The reading loop appends the unskipped lines and leaves a context
    that was live at its last poll. *)
Lemma loadURLs_inr lines : forall (n : Z) (k : nat) ctx urls urls' ctx',
  Main.loadURLs w lines n k ctx urls = inr (urls', ctx') ->
  urls' = (urls ++ Trace.unskipped lines)%list /\ ctx' = ctx.
Proof.
  induction lines as [|text lines IH]; intros n k ctx urls urls' ctx'; simpl.
  - intros [= <- <-]. now rewrite app_nil_r.
  - rewrite unskipped_cons. destruct (Main.isSkippedLine _); [apply IH |].
    destruct (Z.rem _ _ =? 0).
    + destruct (Main.poll w k ctx) eqn:Hpoll; [discriminate |].
      apply poll_None in Hpoll as ->. intros H. apply IH in H as [-> ->].
      now rewrite <- app_assoc.
    + intros H. apply IH in H as [-> ->]. now rewrite <- app_assoc.
Qed.

Lemma loadURLs_inl lines : forall (n : Z) (k : nat) ctx urls (e : Go.error),
  Main.loadURLs w lines n k ctx urls = inl e ->
  ctx = Some e \/ (ctx = None /\ e = Go.DeadlineExceeded).
Proof.
  induction lines as [|text lines IH]; intros n k ctx urls e; simpl; [discriminate |].
  destruct (Main.isSkippedLine _); [apply IH |].
  destruct (Z.rem _ _ =? 0); [| apply IH].
  destruct (Main.poll w k ctx) eqn:Hpoll.
  - intros [= <-]. now apply poll_Some in Hpoll.
  - apply poll_None in Hpoll as ->. apply IH.
Qed.

(** Fewer than [progressInterval] lines are read without a poll. *)
Lemma loadURLs_short lines : forall (n : Z) (k : nat) ctx urls,
  0 <= n -> n + Go.len_slice lines < Main.progressInterval ->
  Main.loadURLs w lines n k ctx urls = inr ((urls ++ Trace.unskipped lines)%list, ctx).
Proof.
  unfold Main.progressInterval.
  induction lines as [|text lines IH]; intros n k ctx urls H0 Hlen; simpl.
  - now rewrite app_nil_r.
  - assert (Go.len_slice (text :: lines) = Go.len_slice lines + 1) as E
      by (unfold Go.len_slice; simpl List.length; lia).
    assert (0 <= Go.len_slice lines) by (unfold Go.len_slice; lia).
    rewrite E in Hlen. rewrite unskipped_cons. unfold Main.progressInterval.
    rewrite int_add_small by (unfold Go.MinInt, Go.MaxInt; lia).
    destruct (Main.isSkippedLine _); [apply IH; lia |].
    rewrite Z.rem_small by lia.
    destruct (Z.eqb_spec (n + 1) 0); [lia |].
    rewrite IH by lia. now rewrite <- app_assoc.
Qed.

(** As long as no poll finds the deadline passed, a file is read to its
    end. *)
Lemma loadURLs_live lines : forall (n : Z) (k : nat) urls,
  (forall k, Main.expiredAtPoll w k = false) ->
  Main.loadURLs w lines n k None urls = inr ((urls ++ Trace.unskipped lines)%list, None).
Proof.
  induction lines as [|text lines IH]; intros n k urls Hlive; simpl.
  - now rewrite app_nil_r.
  - rewrite unskipped_cons. destruct (Main.isSkippedLine _); [now apply IH |].
    destruct (Z.rem _ _ =? 0); [rewrite Hlive |]; rewrite IH by exact Hlive;
      now rewrite <- app_assoc.
Qed.

Lemma unskipped_replicate (text : string) (k : nat) lines :
  Main.isSkippedLine (Go.TrimSpace text) = false ->
  Go.len_slice (Trace.unskipped (replicate k text ++ lines))
  = Z.of_nat k + Go.len_slice (Trace.unskipped lines).
Proof.
  intros H. induction k as [|k IH]; [simpl; lia |].
  change (replicate (S k) text ++ lines)%list with (text :: replicate k text ++ lines)%list.
  rewrite unskipped_cons, H. unfold Go.len_slice in *. simpl List.length. lia.
Qed.

Lemma resultLines_put (outputPath : string) (lines : list string) :
  Main.resultLines (Trace.put outputPath lines) = lines.
Proof.
  unfold Trace.put. destruct lines; [reflexivity |].
  now destruct (String.eqb outputPath "").
Qed.

Lemma stdout_put (outputPath : string) (o : Main.Output) :
  o = Trace.put outputPath (Main.resultLines o) ->
  Main.stdout outputPath o
  = match Main.resultLines o with
    | [] => ["No suspicious URLs found."]
    | lines =>
        if String.eqb outputPath "" then lines
        else ["Results written to: " ++ outputPath]
    end.
Proof.
  intros H. destruct (Main.resultLines o) as [|line lines] eqn:E; rewrite H;
    [reflexivity |].
  unfold Trace.put. now destruct (String.eqb outputPath "").
Qed.

Lemma sortByURL_length (results : list Main.Result) :
  List.length (Main.sortByURL results) = List.length results.
Proof. apply Permutation_length, sortByURL_Permutation. Qed.

(** What [deliver] puts out, when it does. *)
Lemma deliver_output (results : list Main.Result) (stats : Main.Stats) (o : Main.Output) :
  Main.written (Main.deliver w config results stats) = Some o ->
  o = Trace.put (Main.outputPath config)
        (map (Main.formatResult (Main.verbose config))
             (Main.sortByURL (Main.removeDuplicates results))) /\
  Main.err (Main.deliver w config results stats) = None.
Proof.
  unfold Main.deliver, Main.writeResults.
  destruct (Main.removeDuplicates results) as [|r rs] eqn:E.
  - simpl. intros [= <-]. now split.
  - assert ((Go.len_slice (r :: rs) =? 0) = false) as ->
      by (unfold Go.len_slice; simpl; lia).
    pose proof (sortByURL_length (r :: rs)) as Hlen.
    unfold Trace.put.
    destruct (Main.sortByURL (r :: rs)) as [|r' rs']; [discriminate |].
    cbn [map].
    destruct (String.eqb (Main.outputPath config) ""); simpl.
    + intros [= <-]. now split.
    + destruct (Main.createErr w); simpl; [discriminate |].
      intros [= <-]. now split.
Qed.


(** In verbose mode a call of [processURLs] on a chunk leaves the context
    done. *)
Lemma processChunk_verbose (msg : string) st st' :
  Main.verbose config = true -> Main.chunk st <> [] ->
  Main.processChunk pats w config msg st = Some (inr st') -> Main.context st' <> None.
Proof.
  intros Hv Hne. unfold Main.processChunk.
  destruct (Main.processURLs pats config _ _ _ _) as [[c [[results stats] e]]|] eqn:Hrun;
    [| discriminate].
  pose proof (processURLs_verbose pats config _ _ _ _ _ _ _ e Hrun Hne Hv) as He.
  destruct e as [e|]; [| contradiction].
  destruct (negb (Go.isDeadlineExceeded e)); [discriminate |].
  intros [= <-]. discriminate.
Qed.

(** So the reading loop of [processLargeFile] does not get past the first
    full chunk. *)
Lemma chunkLoop_verbose lines : forall (n : Z) st,
  Main.verbose config = true ->
  Go.len_slice (Main.chunk st) < Main.chunkSize ->
  Main.chunkSize <= Go.len_slice (Main.chunk st) + Go.len_slice (Trace.unskipped lines) ->
  Main.chunkLoop pats w config lines n st = None \/
  exists e, Main.chunkLoop pats w config lines n st = Some (inl e).
Proof.
  induction lines as [|text lines IH]; intros n st Hv Hlt Hle.
  - unfold Go.len_slice in *. simpl in Hle. lia.
  - simpl. rewrite unskipped_cons in Hle.
    destruct (Main.isSkippedLine (Go.TrimSpace text)); [now apply IH |].
    assert (Go.len_slice (Main.chunk st ++ [Go.TrimSpace text])
            = Go.len_slice (Main.chunk st) + 1) as E
      by (unfold Go.len_slice; rewrite length_app; simpl; lia).
    assert (Go.len_slice (Go.TrimSpace text :: Trace.unskipped lines)
            = Go.len_slice (Trace.unskipped lines) + 1) as E'
      by (unfold Go.len_slice; simpl List.length; lia).
    cbn [Main.chunk Main.setChunk]. rewrite E.
    destruct (Z.geb_spec (Go.len_slice (Main.chunk st) + 1) Main.chunkSize) as [Hfull | Hroom].
    + destruct (Main.processChunk pats w config _ _) as [[e | st'] |] eqn:Hchunk;
        [right; now exists e | | now left].
      apply processChunk_verbose in Hchunk; [| exact Hv | now destruct (Main.chunk st)].
      cbn [Main.context Main.setChunk Main.calls].
      destruct (Main.context st') as [e|]; [| contradiction]. simpl. right. now exists e.
    + apply IH; [exact Hv | |]; cbn [Main.chunk Main.setChunk]; rewrite E; lia.
Qed.

(** A chunk processed without deadline adds the results of its
    suspicious URLs. *)
Lemma processChunk_output (c : Main.URLChecker) (msg : string) st st' :
  1 <= Go.NumCPU ->
  (forall k, existsb Trace.isDeadline (Main.schedules w k) = false) ->
  Main.context st = None ->
  (Main.urlChecker st = c \/ Main.urlChecker st = Main.compileRegexes pats c) ->
  Main.processChunk pats w config msg st = Some (inr st') ->
  Main.context st' = None /\
  (Main.urlChecker st' = c \/ Main.urlChecker st' = Main.compileRegexes pats c) /\
  Main.chunk st' = Main.chunk st /\
  forall url,
    In url (map Main.URL (Main.allResults st')) <->
    In url (map Main.URL (Main.allResults st)) \/
    (In url (Main.chunk st) /\ Spec.outcome pats config c url = Spec.Suspicious).
Proof.
  intros Hcpu Hd Hctx Hstage. unfold Main.processChunk. rewrite Hctx.
  destruct (Main.processURLs pats config _ _ _ _) as [[c1 [[results stats] e]]|] eqn:Hrun;
    [| discriminate].
  pose proof (processURLs_live pats config _ _ _ _ _ _ e Hrun (Hd _)) as ->.
  pose proof (processURLs_checker pats config _ _ _ _ _ _ _ _ Hrun) as Hc1.
  pose proof (processURLs_all pats config _ _ _ _ _ _ _ Hcpu Hrun) as Hperm.
  rewrite (expected_stage pats config c _ _ Hstage) in Hperm.
  intros [= <-]. simpl. split; [reflexivity |]. split; [| split; [reflexivity |]].
  - destruct Hstage as [E | E]; rewrite E in Hc1; [exact Hc1 |].
    rewrite compileRegexes_idempotent in Hc1. tauto.
  - intros url. rewrite map_app, in_app_iff.
    rewrite (Permutation_in_iff _ _ url (Permutation_map Main.URL Hperm)).
    rewrite expected_URL, filter_In. unfold Trace.suspicious.
    destruct (Spec.outcome pats config c url); simpl; intuition discriminate.
Qed.

(** The reading loop of [processLargeFile], when it gets to the end of the
    file: every unskipped line is in the last chunk or has been
    processed. *)
Lemma chunkLoop_output (c : Main.URLChecker) lines : forall (n : Z) st st',
  1 <= Go.NumCPU ->
  (forall k, existsb Trace.isDeadline (Main.schedules w k) = false) ->
  (forall k, Main.expiredAtPoll w k = false) ->
  Main.context st = None ->
  (Main.urlChecker st = c \/ Main.urlChecker st = Main.compileRegexes pats c) ->
  Main.chunkLoop pats w config lines n st = Some (inr st') ->
  Main.context st' = None /\
  (Main.urlChecker st' = c \/ Main.urlChecker st' = Main.compileRegexes pats c) /\
  forall url,
    In url (map Main.URL (Main.allResults st')) \/
    (In url (Main.chunk st') /\ Spec.outcome pats config c url = Spec.Suspicious) <->
    In url (map Main.URL (Main.allResults st)) \/
    ((In url (Main.chunk st) \/ In url (Trace.unskipped lines)) /\
     Spec.outcome pats config c url = Spec.Suspicious).
Proof.
  induction lines as [|text lines IH]; intros n st st' Hcpu Hd Hlive Hctx Hstage; simpl.
  - intros [= <-]. split; [exact Hctx |]. split; [exact Hstage |]. intros url.
    unfold Trace.unskipped. simpl. tauto.
  - rewrite unskipped_cons.
    destruct (Main.isSkippedLine (Go.TrimSpace text)); [now apply IH |].
    destruct (Go.len_slice _ >=? Main.chunkSize).
    + destruct (Main.processChunk pats w config _ _) as [[e | st2] |] eqn:Hchunk;
        try discriminate.
      apply (processChunk_output c) in Hchunk as (Hctx2 & Hstage2 & Hchunk2 & Hres2);
        try assumption.
      cbn [Main.context Main.setChunk Main.calls]. rewrite Hctx2. unfold Main.poll.
      rewrite Hlive. intros Hloop.
      apply IH in Hloop as (Hctx' & Hstage' & Hres'); try assumption; try reflexivity.
      split; [exact Hctx' |]. split; [exact Hstage' |]. intros url.
      rewrite Hres'. cbn [Main.allResults Main.chunk Main.setChunk Main.setContext].
      rewrite Hres2. cbn [Main.allResults Main.chunk Main.setChunk].
      rewrite in_app_iff. simpl. tauto.
    + intros Hloop.
      apply IH in Hloop as (Hctx' & Hstage' & Hres'); try assumption.
      split; [exact Hctx' |]. split; [exact Hstage' |]. intros url.
      rewrite Hres'. cbn [Main.allResults Main.chunk Main.setChunk].
      rewrite in_app_iff. simpl. tauto.
Qed.

(** The lines [deliver] writes in terse mode, and where. *)
Lemma deliver_ascending (results : list Main.Result) (stats : Main.Stats)
    (o : Main.Output) :
  Main.verbose config = false ->
  Main.written (Main.deliver w config results stats) = Some o ->
  o = Trace.put (Main.outputPath config) (Main.resultLines o) /\
  StronglySorted Trace.ascending (Main.resultLines o) /\
  forall url, In url (Main.resultLines o) <-> In url (map Main.URL results).
Proof.
  intros Hv Hl. apply deliver_output in Hl as [-> _]. rewrite resultLines_put.
  split; [reflexivity |]. rewrite Hv.
  change (map (Main.formatResult false)) with (map Main.URL).
  assert (NoDup (map Main.URL (Main.removeDuplicates results))) as Hnd
    by (rewrite removeDuplicates_firstOccurrences; apply firstOccurrences_NoDup).
  split; [now apply byURL_ascending, sortByURL_sorted |].
  intros url.
  rewrite (Permutation_in_iff _ _ url (Permutation_map Main.URL (sortByURL_Permutation _))).
  now rewrite removeDuplicates_firstOccurrences, firstOccurrences_urls.
Qed.



End Files.

(** X10.  The reading loop of [processFile] loads the lines of the file
    trimmed, in their order, without the blank ones and the comments, and
    hands on the context as it found it; it only gives up on a context
    that is done, with its error, and never on a file of fewer than
    [progressInterval] lines, which it reads without looking at the
    context. *)
Theorem loadURLs_loads_unskipped_lines (L : Go.Lib) (w : Main.World) (lines : list string)
    (ctx : option Go.error) :
  (forall urls ctx',
     Main.loadURLs w lines 0 0 ctx [] = inr (urls, ctx') ->
     urls = Trace.unskipped lines /\ ctx' = ctx /\
     Forall (fun url => url <> "" /\ Go.HasPrefix url "#" = false /\
                        Go.HasPrefix url "//" = false) urls) /\
  (forall e,
     Main.loadURLs w lines 0 0 ctx [] = inl e ->
     (ctx = Some e \/ (ctx = None /\ e = Go.DeadlineExceeded)) /\
     Main.progressInterval <= Go.len_slice lines) /\
  (Go.len_slice lines < Main.progressInterval ->
   Main.loadURLs w lines 0 0 ctx [] = inr (Trace.unskipped lines, ctx)).
Proof.
  split; [| split].
  - intros urls ctx' H. apply loadURLs_inr in H as [-> ->]. simpl.
    split; [reflexivity |]. split; [reflexivity |].
    apply List.Forall_forall. intros url Hin. apply filter_In in Hin as [_ Hin].
    unfold Main.isSkippedLine in Hin.
    apply negb_true_iff, orb_false_iff in Hin as [Hin H2].
    apply orb_false_iff in Hin as [H0 H1]. apply String.eqb_neq in H0. now repeat split.
  - intros e H. split; [exact (loadURLs_inl w lines _ _ _ _ _ H) |].
    destruct (Z.le_gt_cases Main.progressInterval (Go.len_slice lines)) as [Hle | Hlt];
      [exact Hle |].
    rewrite (loadURLs_short w lines 0 0 ctx []) in H by lia. discriminate.
  - intros Hlt. now rewrite (loadURLs_short w lines 0 0 ctx []) by lia.
Qed.



(** X12.  Verbose mode defeats large files: [processURLs] then only
    returns once the context is done, so after the first full chunk the
    poll of [processLargeFile] returns the context's error.  On a file of
    more than 50 MB with [chunkSize] or more URLs a verbose run never
    writes anything and always returns an error. *)
Theorem verbose_large_file_never_delivers (L : Go.Lib) (pats : Suspicious.Patterns)
    (w : Main.World) (config : Main.Config) (c : Main.URLChecker) (ctx : option Go.error)
    (f : Main.File) (r : Main.Report) :
  Main.verbose config = true ->
  50 * 1024 * 1024 < Main.fileSize f ->
  Main.chunkSize <= Go.len_slice (Trace.unskipped (Main.fileLines f)) ->
  Main.processFile pats w config c ctx f = Some r ->
  Main.written r = None /\ Main.err r <> None.
Proof.
  intros Hv Hsize Hlen. unfold Main.processFile.
  destruct (Main.validateFile f); [intros [= <-]; now split |].
  destruct (Main.openErr f); [intros [= <-]; now split |].
  destruct (Z.gtb_spec (Main.fileSize f) (50 * 1024 * 1024)) as [_ | Hsmall]; [| lia].
  unfold Main.processLargeFile.
  match goal with
  | |- context [Main.chunkLoop pats w config ?lines ?n ?st] =>
      destruct (chunkLoop_verbose pats w config lines n st Hv) as [-> | (e & ->)]
  end.
  - unfold Go.len_slice, Main.chunkSize. simpl. lia.
  - simpl. exact Hlen.
  - discriminate.
  - intros [= <-]. now split.
Qed.

(** The large file of 50000 URLs in verbose mode, with anything after
    them: the first chunk is processed until the deadline passes. *)
Lemma verbose_first_chunk (tail : list string) :
  Go.len_slice (Inputs.evilURL :: tail) = Main.chunkSize ->
  exists c results stats,
    Main.processURLs (L := AsciiLib.lib) AsciiLib.testPatterns Inputs.verboseConfig
      Inputs.testChecker None (Inputs.evilURL :: tail) Inputs.timeoutSchedule
    = Some (c, (results, stats, Some Go.DeadlineExceeded)).
Proof.
  intros Hlen. unfold Main.processURLs, Main.spawn. rewrite Hlen.
  match goal with
  | |- exists c results stats, ?l = _ =>
      let v := eval vm_compute in l in
      match v with
      | Some (?c, (?results, ?stats, _)) =>
          exists c, results, stats; exact (@eq_refl _ v <: l = v)
      end
  end.
Qed.

Lemma verbose_large_run (rest : list string) :
  Main.processFile AsciiLib.testPatterns Inputs.timeoutWorld Inputs.verboseConfig
    Inputs.testChecker None (Inputs.largeFile rest)
  = Some (Main.failed Go.DeadlineExceeded).
Proof.
  pose (m := Z.to_nat (Main.chunkSize - 2)).
  assert (Z.of_nat m = Main.chunkSize - 2) as Hm by (unfold m, Main.chunkSize; lia).
  assert (Z.to_nat Main.chunkSize = S (S m)) as En by (unfold m, Main.chunkSize; lia).
  clearbody m.
  assert (Go.TrimSpace (Lib := AsciiLib.lib) Inputs.evilURL = Inputs.evilURL) as Htrim
    by (vm_compute; reflexivity).
  assert (Main.isSkippedLine (Go.TrimSpace (Lib := AsciiLib.lib) Inputs.evilURL) = false)
    as Hline by (vm_compute; reflexivity).
  assert (Go.len_slice (Inputs.evilURL :: replicate m Inputs.evilURL ++ [Inputs.evilURL])
          = Main.chunkSize) as Hlen.
  { unfold Go.len_slice. simpl List.length. rewrite length_app, length_replicate.
    simpl List.length. lia. }
  destruct (verbose_first_chunk _ Hlen) as (c & results & stats & Hrun).
  unfold Main.processFile.
  change (Main.validateFile (Inputs.largeFile rest)) with (@None Go.error).
  change (Main.openErr (Inputs.largeFile rest)) with (@None Go.error).
  change (Main.fileSize (Inputs.largeFile rest) >? 50 * 1024 * 1024) with true.
  cbv iota. unfold Main.processLargeFile.
  change (Main.fileLines (Inputs.largeFile rest))
    with (replicate (Z.to_nat Main.chunkSize) Inputs.evilURL ++ rest)%list.
  rewrite En, replicate_S_end, <- app_assoc.
  rewrite chunkLoop_fill;
    [| exact Hline | unfold Go.len_slice; simpl List.length; lia].
  rewrite Htrim. cbn [Main.chunk app].
  erewrite chunkLoop_deadline; [reflexivity | exact Hline | |].
  + rewrite Htrim. cbn [Main.chunk Main.setChunk].
    change (replicate (S m) Inputs.evilURL ++ [Inputs.evilURL])%list
      with (Inputs.evilURL :: replicate m Inputs.evilURL ++ [Inputs.evilURL])%list.
    rewrite Hlen. lia.
  + rewrite Htrim. exact Hrun.
Qed.

(** That file alone: nothing is written. *)
Lemma verbose_large_file_never_delivers_witness :
  Main.written (Main.failed Go.DeadlineExceeded) = None /\
  Main.err (Main.failed Go.DeadlineExceeded) <> None.
Proof.
  apply (verbose_large_file_never_delivers AsciiLib.lib AsciiLib.testPatterns
           Inputs.timeoutWorld Inputs.verboseConfig Inputs.testChecker None
           (Inputs.largeFile []) (Main.failed Go.DeadlineExceeded)).
  - reflexivity.
  - reflexivity.
  - change (Main.fileLines (Inputs.largeFile []))
      with (replicate (Z.to_nat Main.chunkSize) Inputs.evilURL ++ [])%list.
    rewrite unskipped_replicate by (vm_compute; reflexivity).
    unfold Main.chunkSize, Go.len_slice. simpl List.length. lia.
  - apply verbose_large_run.
Defined.

(** X13.  End to end, in a run without deadline: the lines of results
    [processFile] writes in terse mode are exactly the suspicious URLs
    among the unskipped lines of the file, each once, in strictly
    ascending order, whatever the size of the file, the cut into chunks
    and the interleaving of the goroutines.  They go to standard output
    when no output file is named, else to the output file; when there
    is none, nothing is written but the line [No suspicious URLs found.]
    on standard output, which is no line of the file, and the output
    file is not opened.  In terse mode nothing else is printed.  There
    is a CPU. *)
Theorem processFile_output_without_deadline (L : Go.Lib) (pats : Suspicious.Patterns)
    (w : Main.World) (config : Main.Config) (c : Main.URLChecker)
    (f : Main.File) (r : Main.Report) (o : Main.Output) :
  1 <= Go.NumCPU ->
  (forall k, Main.expiredAtPoll w k = false) ->
  (forall k, existsb Trace.isDeadline (Main.schedules w k) = false) ->
  Main.verbose config = false ->
  Main.processFile pats w config c None f = Some r ->
  Main.written r = Some o ->
  StronglySorted Trace.ascending (Main.resultLines o) /\
  (forall url,
     In url (Main.resultLines o) <->
     In url (Trace.unskipped (Main.fileLines f)) /\
     Spec.outcome pats config c url = Spec.Suspicious) /\
  o = Trace.put (Main.outputPath config) (Main.resultLines o) /\
  Main.stdout (Main.outputPath config) o
  = match Main.resultLines o with
    | [] => ["No suspicious URLs found."]
    | lines =>
        if String.eqb (Main.outputPath config) "" then lines
        else ["Results written to: " ++ Main.outputPath config]
    end.
Proof.
  intros Hcpu Hlive Hd Hv. unfold Main.processFile.
  destruct (Main.validateFile f); [intros [= <-]; discriminate |].
  destruct (Main.openErr f); [intros [= <-]; discriminate |].
  destruct (Main.fileSize f >? 50 * 1024 * 1024).
  - unfold Main.processLargeFile.
    destruct (Main.chunkLoop pats w config _ _ _) as [[e | st] |] eqn:Hloop;
      [intros [= <-]; discriminate | | discriminate].
    apply (chunkLoop_output pats w config c) in Hloop as (Hctx & Hstage & Hres);
      try assumption; try reflexivity; [| now left].
    simpl in Hres.
    assert (forall st',
              (if Go.len_slice (Main.chunk st) >? 0
               then Main.processChunk pats w config "error processing final chunk" st
               else Some (inr st)) = Some (inr st') ->
              forall url,
                In url (map Main.URL (Main.allResults st')) <->
                In url (Trace.unskipped (Main.fileLines f)) /\
                Spec.outcome pats config c url = Spec.Suspicious) as Hlast.
    { intros st'. destruct (Z.gtb_spec (Go.len_slice (Main.chunk st)) 0) as [Hrest | Hrest].
      - intros Hchunk.
        apply (processChunk_output pats w config c) in Hchunk as (_ & _ & _ & Hres');
          try assumption.
        intros url. rewrite Hres', Hres. tauto.
      - intros [= <-]. intros url. specialize (Hres url).
        destruct (Main.chunk st); [simpl in Hres; tauto |].
        unfold Go.len_slice in Hrest. simpl List.length in Hrest. lia. }
    destruct (if Go.len_slice (Main.chunk st) >? 0 then _ else _) as [[e | st'] |];
      [intros [= <-]; discriminate | | discriminate].
    destruct (Main.scanErr f); [intros [= <-]; discriminate |].
    intros [= <-] Hl.
    apply (deliver_ascending w config _ _ _ Hv) in Hl as (Hput & Hsorted & Hin).
    split; [exact Hsorted |].
    split; [intros url; now rewrite Hin, Hlast |].
    split; [exact Hput | now apply stdout_put].
  - rewrite (loadURLs_live w _ 0 0 [] Hlive). simpl.
    destruct (Main.scanErr f); [intros [= <-]; discriminate |].
    destruct (Main.processURLs pats config _ _ _ _) as [[c' [[results stats] e]]|] eqn:Hrun;
      [| discriminate].
    pose proof (processURLs_live pats config _ _ _ _ _ _ e Hrun (Hd _)) as ->.
    intros [= <-] Hl.
    apply (deliver_ascending w config _ _ _ Hv) in Hl as (Hput & Hsorted & Hin).
    split; [exact Hsorted |].
    split; [| split; [exact Hput | now apply stdout_put]].
    intros url. rewrite Hin.
    pose proof (processURLs_all pats config _ _ _ _ _ _ _ Hcpu Hrun) as Hperm.
    rewrite (Permutation_in_iff _ _ url (Permutation_map Main.URL Hperm)).
    rewrite expected_URL, filter_In. unfold Trace.suspicious.
    destruct (Spec.outcome pats config c url); simpl; intuition discriminate.
Qed.

(** The small file, read and processed as in [TestProcessURLs]. *)
Lemma processFile_output_without_deadline_witness :
  exists r,
    Main.processFile AsciiLib.testPatterns Inputs.smallWorld Inputs.testConfig
      Inputs.processChecker None Inputs.smallFile = Some r /\
    Main.written r
    = Some (Main.ToStdout ["http://bad.com/evil"; "http://bad.com/evil.exe"]) /\
    StronglySorted Trace.ascending ["http://bad.com/evil"; "http://bad.com/evil.exe"].
Proof.
  match goal with
  | |- exists r, ?l = _ /\ _ =>
      let v := eval vm_compute in l in
      match v with
      | Some ?r =>
          exists r; assert (l = v) as H by exact (@eq_refl _ v <: l = v)
      end
  end.
  split; [exact H |]. split; [reflexivity |].
  assert (1 <= Go.NumCPU (Lib := AsciiLib.lib)) as Hcpu by (vm_compute; discriminate).
  exact (proj1 (processFile_output_without_deadline AsciiLib.lib AsciiLib.testPatterns
                  Inputs.smallWorld Inputs.testConfig Inputs.processChecker
                  Inputs.smallFile _ _ Hcpu (fun _ => eq_refl) (fun _ => eq_refl)
                  eq_refl H eq_refl)).
Defined.

(** ** The flags: [main] of [main.go] and [NewURLChecker] *)

Section Flags.
Context {L : Go.Lib}.
Variable pats : Suspicious.Patterns.

Implicit Types (uc : Checker.URLChecker) (c : Main.URLChecker) (cat : Spec.Category)
  (category : string).

(** A category is enabled by its name, trimmed and in any case. *)
Lemma enable_flags uc category cat :
  Spec.flags (Checker.enable uc category) cat = true <->
  Spec.flags uc cat = true \/ Go.TrimSpace (Go.ToLower category) = Spec.name cat.
Proof.
  unfold Checker.enable.
  destruct (String.eqb_spec (Go.TrimSpace (Go.ToLower category)) "keywords") as [E | N1];
    [| destruct (String.eqb_spec (Go.TrimSpace (Go.ToLower category)) "extensions")
         as [E | N2];
       [| destruct (String.eqb_spec (Go.TrimSpace (Go.ToLower category)) "paths")
            as [E | N3];
          [| destruct (String.eqb_spec (Go.TrimSpace (Go.ToLower category)) "hidden")
               as [E | N4]]]];
    try rewrite E; destruct cat; unfold Spec.flags; simpl;
    intuition (try discriminate; try congruence).
Qed.

Lemma enable_all_flags (categories : list string) : forall uc cat,
  Spec.flags (fold_left Checker.enable categories uc) cat = true <->
  Spec.flags uc cat = true \/
  exists category, In category categories /\
                   Go.TrimSpace (Go.ToLower category) = Spec.name cat.
Proof.
  induction categories as [|category categories IH]; intros uc cat; simpl.
  - split; [now left | now intros [H | (? & [] & _)]].
  - rewrite IH, enable_flags. split.
    + intros [[H | H] | (x & Hin & Hx)]; [now left | right | right].
      * exists category. now split; [left |].
      * exists x. now split; [right |].
    + intros [H | (x & [<- | Hin] & Hx)]; [left; now left | left; now right | right].
      now exists x.
Qed.

Lemma enable_all_excludes (categories : list string) : forall uc,
  Checker.excludePatterns (fold_left Checker.enable categories uc)
  = Checker.excludePatterns uc.
Proof.
  induction categories as [|category categories IH]; intros uc; simpl; [reflexivity |].
  now rewrite IH, enable_excludes.
Qed.

Lemma enableCategory_cases c category :
  (Main.enableCategory c category = inl category /\
   forall cat, Go.TrimSpace (Go.ToLower category) <> Spec.name cat) \/
  (exists kw ext pa hi,
     Main.enableCategory c category = inr (Main.setFlags kw ext pa hi c) /\
     forall uc, Trace.sameSetup c uc ->
                Trace.sameSetup (Main.setFlags kw ext pa hi c) (Checker.enable uc category)).
Proof.
  unfold Main.enableCategory, Checker.enable, Trace.sameSetup.
  destruct (String.eqb_spec (Go.TrimSpace (Go.ToLower category)) "keywords") as [E | N1];
    [| destruct (String.eqb_spec (Go.TrimSpace (Go.ToLower category)) "extensions")
         as [E | N2];
       [| destruct (String.eqb_spec (Go.TrimSpace (Go.ToLower category)) "paths")
            as [E | N3];
          [| destruct (String.eqb_spec (Go.TrimSpace (Go.ToLower category)) "hidden")
               as [E | N4]]]].
  1-4: right; do 4 eexists; (split; [reflexivity |]); intros uc (? & ? & ? & ? & ?);
    simpl; now repeat split.
  left. split; [reflexivity |]. now intros [].
Qed.

(** A checker literal is the literal of its flags and patterns. *)
Lemma literal_newURLChecker c :
  Trace.literal c ->
  c = Main.newURLChecker (Main.checkKeywords c) (Main.checkExtensions c)
        (Main.checkPaths c) (Main.checkHidden c) (Main.excludePatterns c).
Proof.
  destruct c. unfold Trace.literal, Main.newURLChecker. simpl.
  intros (-> & -> & -> & -> & -> & ->). reflexivity.
Qed.

Lemma enableCategories_cases (categories : list string) : forall c uc,
  Trace.sameSetup c uc -> Trace.literal c ->
  (exists category,
     Main.enableCategories categories c = inl category /\ In category categories /\
     forall cat, Go.TrimSpace (Go.ToLower category) <> Spec.name cat) \/
  (exists c',
     Main.enableCategories categories c = inr c' /\ Trace.literal c' /\
     Trace.sameSetup c' (fold_left Checker.enable categories uc)).
Proof.
  induction categories as [|category categories IH]; intros c uc Hsame Hlit; simpl.
  - right. now exists c.
  - destruct (enableCategory_cases c category)
      as [(-> & Hno) | (kw & ext & pa & hi & -> & Hstep)].
    + left. exists category. split; [reflexivity |]. split; [now left | exact Hno].
    + destruct (IH (Main.setFlags kw ext pa hi c) (Checker.enable uc category))
        as [(x & Hx & Hin & Hno) | (c' & Hc' & Hl & Hs)].
      * now apply Hstep.
      * exact Hlit.
      * left. exists x. split; [exact Hx |]. split; [now right | exact Hno].
      * right. now exists c'.
Qed.

(** The uncompiled checker of [NewURLChecker]. *)
Lemma NewURLChecker_setup (categories excludes : string) :
  exists uc,
    Checker.NewURLChecker pats categories excludes = Checker.compileRegexes pats uc /\
    Spec.pristine uc /\
    Checker.excludePatterns uc = Main.excludesOfFlag excludes /\
    (forall cat,
       Spec.flags uc cat = true <->
       categories = "" \/
       exists category, In category (Go.SplitComma categories) /\
                        Go.TrimSpace (Go.ToLower category) = Spec.name cat) /\
    (categories <> "" ->
     uc = fold_left Checker.enable (Go.SplitComma categories)
            (if negb (String.eqb excludes "")
             then Checker.setExcludes Checker.zero excludes else Checker.zero)).
Proof.
  unfold Checker.NewURLChecker, Main.excludesOfFlag.
  set (uc0 := if negb (String.eqb excludes "")
              then Checker.setExcludes Checker.zero excludes else Checker.zero).
  assert (Spec.pristine uc0) as H0
    by (unfold uc0; destruct (negb (String.eqb excludes "")); repeat split).
  assert (Checker.excludePatterns uc0
          = if negb (String.eqb excludes "")
            then map Go.TrimSpace (Go.SplitComma excludes) else []) as He
    by (unfold uc0; now destruct (negb (String.eqb excludes ""))).
  assert (forall cat, Spec.flags uc0 cat = false) as Hf
    by (intros cat; unfold uc0; destruct (negb (String.eqb excludes "")); now destruct cat).
  eexists. split; [reflexivity |].
  destruct (String.eqb_spec categories "") as [-> | Hne]; simpl.
  - split; [destruct H0 as (? & ? & ? & ? & ? & ?); now repeat split |].
    split; [exact He |]. split; [| now intros []].
    intros cat. split; [now left | intros _; now destruct cat].
  - split; [now apply enable_all_pristine |].
    split; [now rewrite enable_all_excludes |]. split; [| reflexivity].
    intros cat. rewrite enable_all_flags, Hf. split.
    + intros [H | H]; [discriminate | now right].
    + intros [H | H]; [contradiction | now right].
Qed.

End Flags.

(** X14.  [NewURLChecker] enables exactly the categories named in its
    first argument, each name trimmed and in any case, and all four when
    the argument is empty; a name that is none of the four is ignored.
    Its exclusion patterns are the trimmed fields of the second argument,
    none when it is empty. *)
Theorem NewURLChecker_enables_named_categories (L : Go.Lib) (pats : Suspicious.Patterns)
    (categories excludes : string) (cat : Spec.Category) :
  (Spec.flags (Checker.NewURLChecker pats categories excludes) cat = true <->
   categories = "" \/
   exists category, In category (Go.SplitComma categories) /\
                    Go.TrimSpace (Go.ToLower category) = Spec.name cat) /\
  Checker.excludePatterns (Checker.NewURLChecker pats categories excludes)
  = (if String.eqb excludes "" then []
     else map Go.TrimSpace (Go.SplitComma excludes)).
Proof.
  destruct (NewURLChecker_setup pats categories excludes) as (uc & -> & _ & He & Hf & _).
  rewrite compileRegexes_flags, compileRegexes_excludes, He. split; [apply Hf |].
  unfold Main.excludesOfFlag. now destruct (String.eqb excludes "").
Qed.

(** X15.  The flags [-m] and [-e]: where [main] of [main.go] accepts
    them, the checker it builds has the flags and the exclusion patterns
    of the one [NewURLChecker] builds, and the two classify every URL of
    at most [maxURLLength] bytes alike; [main] exits on a category that
    is none of the four names, which [NewURLChecker] ignores. *)
Theorem main_and_NewURLChecker_agree (L : Go.Lib) (pats : Suspicious.Patterns)
    (categories excludes : string) :
  let uc := Checker.NewURLChecker pats categories excludes in
  (forall c,
     Main.checkerOfFlags categories excludes = inr c ->
     Spec.enabled (Main.checkKeywords c) (Main.checkExtensions c)
                  (Main.checkPaths c) (Main.checkHidden c) = Spec.flags uc /\
     Main.excludePatterns c = Checker.excludePatterns uc /\
     forall url, Go.len url <= Main.maxURLLength ->
                 snd (Main.isSuspicious pats c url) = Checker.IsSuspicious uc url) /\
  (forall category,
     Main.checkerOfFlags categories excludes = inl category ->
     In category (Go.SplitComma categories) /\
     forall cat, Go.TrimSpace (Go.ToLower category) <> Spec.name cat).
Proof.
  intros uc.
  assert (forall c (uc' : Checker.URLChecker),
            Trace.sameSetup c uc' -> Trace.literal c -> Spec.pristine uc' ->
            uc = Checker.compileRegexes pats uc' ->
            Spec.enabled (Main.checkKeywords c) (Main.checkExtensions c)
                         (Main.checkPaths c) (Main.checkHidden c) = Spec.flags uc /\
            Main.excludePatterns c = Checker.excludePatterns uc /\
            forall url, Go.len url <= Main.maxURLLength ->
                        snd (Main.isSuspicious pats c url) = Checker.IsSuspicious uc url)
    as Hagree.
  { intros c uc' (Hk & Hx & Hp & Hh & He) Hlit Hpr ->.
    rewrite compileRegexes_flags, compileRegexes_excludes.
    split; [unfold Spec.flags; now rewrite Hk, Hx, Hp, Hh |]. split; [exact He |].
    intros url Hlen. rewrite (literal_newURLChecker c Hlit), isSuspicious_fresh.
    rewrite IsSuspicious_pristine by exact Hpr.
    apply Z.ltb_ge in Hlen. rewrite Hlen, orb_false_r.
    unfold Spec.flags. now rewrite Hk, Hx, Hp, Hh, He. }
  destruct (NewURLChecker_setup pats categories excludes)
    as (uc' & Euc & Hpr & He & Hf & Hfold).
  unfold Main.checkerOfFlags.
  destruct (String.eqb_spec categories "") as [-> | Hne]; simpl.
  - split; [| discriminate]. intros c [= <-].
    apply (Hagree _ uc'); [| now repeat split | exact Hpr | exact Euc].
    assert (forall cat, Spec.flags uc' cat = true) as Hall by (intros cat; apply Hf; now left).
    pose proof (Hall Spec.keywords). pose proof (Hall Spec.extensions).
    pose proof (Hall Spec.paths). pose proof (Hall Spec.hidden).
    unfold Spec.flags in *. simpl in *. now repeat split.
  - specialize (Hfold Hne).
    destruct (enableCategories_cases (Go.SplitComma categories)
                (Main.newURLChecker false false false false (Main.excludesOfFlag excludes))
                (if negb (String.eqb excludes "")
                 then Checker.setExcludes Checker.zero excludes else Checker.zero))
      as [(x & Hx & Hin & Hno) | (c' & Hc' & Hlit & Hs)].
    + unfold Main.excludesOfFlag. destruct (negb (String.eqb excludes "")); now repeat split.
    + now repeat split.
    + rewrite Hx. split; [discriminate |]. intros category [= <-]. now split.
    + rewrite Hc'. split; [| discriminate]. intros c [= <-].
      apply (Hagree _ uc'); [now rewrite Hfold | exact Hlit | exact Hpr | exact Euc].
Qed.

(** X16.  An empty exclusion pattern excludes everything.  The empty
    pattern is compiled to the expression [(?i)], which matches every
    string, so a checker that has not compiled yet and holds an empty
    exclusion pattern, as after [-e "cdn,"] or [-e " "], reports no URL
    at all. *)
Theorem empty_exclusion_excludes_everything (L : Go.Lib) (pats : Suspicious.Patterns)
    (c : Main.URLChecker) (regex : Go.Regexp) (url : string) :
  Go.QuoteMeta "" = "" ->
  Go.Compile "(?i)" = Some regex ->
  (forall s, Go.MatchString regex s = true) ->
  Main.compiledOnce c = false ->
  In "" (Main.excludePatterns c) ->
  snd (Main.isSuspicious pats c url) = (false, "", "").
Proof.
  intros Hq Hc Hm Hfresh Hin. unfold Main.isSuspicious.
  destruct (String.eqb url "" || (Main.maxURLLength <? Go.len url)); [reflexivity |].
  simpl. apply matchCompiled_excluded. unfold Main.compileRegexes. rewrite Hfresh. simpl.
  fold (Main.anyMatch (Main.compileInto Main.substringPattern (Main.excludePatterns c)
                         (Main.excludeRegexes c)) url).
  rewrite anyMatch_compileInto. apply orb_true_iff. right.
  apply existsb_exists. exists "". split; [exact Hin |].
  unfold Spec.patternMatches, Main.substringPattern. rewrite Hq.
  change (Go.Compile ("(?i)" ++ "")) with (Go.Compile "(?i)"). now rewrite Hc.
Qed.

(** The flags [-e "cdn,"]: a URL with [/evil] is not reported. *)
Lemma empty_exclusion_excludes_everything_witness :
  exists c,
    Main.checkerOfFlags (L := AsciiLib.lib) "" "cdn," = inr c /\
    snd (Main.isSuspicious AsciiLib.testPatterns c Inputs.evilURL) = (false, "", "").
Proof.
  eexists. split; [reflexivity |].
  apply (empty_exclusion_excludes_everything AsciiLib.lib AsciiLib.testPatterns _
           {| AsciiLib.foldCase := true; AsciiLib.literal := ""; AsciiLib.atEnd := false |}).
  - reflexivity.
  - reflexivity.
  - intros s. unfold Go.MatchString. simpl. unfold AsciiLib.MatchString. simpl.
    now destruct (AsciiLib.ToLower s).
  - reflexivity.
  - simpl. right. now left.
Defined.

(** ** A run that completes *)

Lemma run_app (L : Go.Lib) (pats : Suspicious.Patterns) (config : Main.Config)
    (s1 s2 : list Main.Event) : forall p : Main.Pipeline,
  Main.run pats config (s1 ++ s2) p
  = match Main.run pats config s1 p with
    | Some p' => Main.run pats config s2 p'
    | None => None
    end.
Proof.
  induction s1 as [|e s1 IH]; intros p; simpl; [reflexivity |].
  destruct (Main.step pats config e p); [apply IH | reflexivity].
Qed.

Section Completing.
Context {L : Go.Lib}.
Variable pats : Suspicious.Patterns.
Variable config : Main.Config.
Variable c0 : Main.URLChecker.

Implicit Types (c : Main.URLChecker) (p q : Main.Pipeline) (w : Main.Worker)
  (r : Main.Result) (url : string) (rest : list string) (done : list Main.Result).

Local Abbreviation Idle := (Trace.Idle pats c0).
Local Abbreviation suspicious := (Trace.suspicious pats config).
Local Abbreviation report := (Trace.report pats config).

Lemma suspicious_stage c url :
  c = c0 \/ c = Main.compileRegexes pats c0 -> suspicious c url = suspicious c0 url.
Proof.
  intros Hc. apply (stage_cases pats c0 (fun c => suspicious c url = _) c Hc); [reflexivity |].
  intros url'. apply suspicious_after.
Qed.

Lemma report_stage c url :
  c = c0 \/ c = Main.compileRegexes pats c0 -> report c url = report c0 url.
Proof.
  intros Hc. apply (stage_cases pats c0 (fun c => report c url = _) c Hc); [reflexivity |].
  intros url'. apply report_after.
Qed.

(** One URL of the schedule. *)
Lemma serve_one url rest done p :
  Idle (url :: rest) done p ->
  exists p',
    Main.run pats config (Trace.serve pats config c0 url) p = Some p' /\
    Idle rest (done ++ report c0 url) p'.
Proof.
  intros (Hctx & Hsend & Huc & Hucc & Hrc & Hrcc & Hres & (w & others & Hpool) & Hsel
          & Hcap & Hrcap & Hstage).
  assert (exists l log, w = Main.Selecting l log) as (l & log & ->)
    by (rewrite Hpool in Hsel; now apply Forall_cons in Hsel as [Hw _]).
  assert (Forall Trace.selecting others) as Hothers
    by (rewrite Hpool in Hsel; now apply Forall_cons in Hsel as [_ Ho]).
  assert (Main.step pats config Main.SenderSend p = Some (Main.sendURL rest url p)) as E1.
  { simpl. rewrite Hsend, Hucc, Huc. unfold Go.len_slice. simpl.
    change (Z.of_nat 0) with 0.
    destruct (Z.ltb_spec 0 (Main.urlChanCap p)); [reflexivity | lia]. }
  set (q := Main.receiveURL [] (Main.sendURL rest url p)).
  assert (Main.step pats config (Main.WorkerReceive 0) (Main.sendURL rest url p)
          = Some (Main.handleURL pats config 0 l log url q)) as E2.
  { unfold Main.step. cbn [Main.pool Main.urlChan Main.sendURL]. now rewrite Hpool, Huc. }
  destruct (handleURL_cases pats config 0 l log url q) as (c' & w' & Eh & Hc' & Hw').
  assert (c' = c0 \/ c' = Main.compileRegexes pats c0) as Hstage'.
  { destruct Hc' as [-> | ->]; [exact Hstage |]. now apply stage_next. }
  unfold Trace.serve. rewrite <- (suspicious_stage c' url Hstage').
  rewrite <- (report_stage c' url Hstage').
  destruct Hw' as [(l' & -> & Hs) | (r & -> & Hurl & Ho & Hv)].
  - rewrite Hs, (report_clean pats config c' url Hs), app_nil_r.
    eexists. split; [cbn [Main.run]; rewrite E1, E2; reflexivity |].
    rewrite Eh. unfold Trace.Idle. simpl. rewrite Hpool. simpl.
    repeat split; try assumption.
    + now eexists _, _.
    + constructor; [now eexists _, _ | exact Hothers].
  - assert (suspicious c' url = true) as Hs by (unfold Trace.suspicious; now rewrite Ho).
    assert (report c' url = [r]) as Hr.
    { unfold Trace.report. rewrite Hs, Hv. destruct r. simpl in Hurl. now rewrite Hurl. }
    rewrite Hs, Hr.
    set (p2 := Main.setWorker 0 (Main.Offering l log r) (Main.setChecker c' q)) in *.
    set (p3 := Main.setWorker 0
                 (Main.Selecting (Main.countProcessed (Main.countSuspicious l))
                                 (log ++ [Main.URL r]))
                 (Main.sendResult r p2)).
    assert (Main.step pats config (Main.WorkerSend 0) p2 = Some p3) as E3.
    { unfold Main.step, p2, q. cbn [Main.pool Main.setWorker Main.setChecker Main.receiveURL
        Main.sendURL Main.resultsChanClosed Main.resultsChan Main.resultsChanCap].
      rewrite Hpool, Hrcc, Hrc. unfold Go.len_slice. simpl.
      change (Z.of_nat 0) with 0.
      destruct (Z.ltb_spec 0 (Main.resultsChanCap p)); [reflexivity | lia]. }
    assert (Main.step pats config Main.Collect p3 = Some (Main.collect [] r p3)) as E4.
    { unfold Main.step, p3, p2, q. cbn [Main.resultsChan Main.setWorker Main.sendResult
        Main.setChecker Main.receiveURL Main.sendURL].
      now rewrite Hrc. }
    eexists. split; [cbn [Main.run]; rewrite E1, E2, Eh; fold p2; rewrite E3, E4; reflexivity |].
    unfold Trace.Idle. simpl. rewrite Hpool, Hres. simpl.
    repeat split; try assumption.
    + now eexists _, _.
    + constructor; [now eexists _, _ | exact Hothers].
Qed.

(** All of them. *)
Lemma serve_all (urls : list string) : forall done p,
  Idle urls done p ->
  exists p',
    Main.run pats config (flat_map (Trace.serve pats config c0) urls) p = Some p' /\
    Idle [] (done ++ Trace.expected pats config c0 urls) p'.
Proof.
  induction urls as [|url urls IH]; intros done p H.
  - exists p. split; [reflexivity |]. now rewrite app_nil_r.
  - destruct (serve_one url urls done p H) as (p1 & E1 & H1).
    destruct (IH _ p1 H1) as (p' & E' & H').
    exists p'. split.
    + cbn [flat_map]. now rewrite run_app, E1.
    + now rewrite <- app_assoc in H'.
Qed.

(** With [urlChan] closed and empty every worker at its [select] returns. *)
Lemma close_all (todo : list Main.Worker) : forall (before : list Main.Worker) p,
  Main.pool p = (before ++ todo)%list -> Forall Trace.selecting todo ->
  Main.urlChan p = [] -> Main.urlChanClosed p = true ->
  exists p',
    Main.run pats config
      (map Main.WorkerClosed (seq (List.length before) (List.length todo))) p = Some p' /\
    Main.pool p' = (before ++ replicate (List.length todo) Main.Returned)%list /\
    Main.ctxErr p' = Main.ctxErr p /\ Main.resultsChan p' = Main.resultsChan p /\
    Main.resultsChanClosed p' = Main.resultsChanClosed p /\
    Main.results p' = Main.results p /\ Main.checker p' = Main.checker p.
Proof.
  induction todo as [|w todo IH]; intros before p Hpool Hsel Huc Hucc.
  - exists p. simpl. now rewrite Hpool.
  - apply Forall_cons in Hsel as [(l & log & ->) Hsel].
    set (p1 := Main.setWorker (List.length before) Main.Returned (Main.flush l log p)).
    assert (Main.step pats config (Main.WorkerClosed (List.length before)) p = Some p1) as E1.
    { unfold Main.step. rewrite Hpool, list_lookup_middle by reflexivity.
      now rewrite Huc, Hucc. }
    destruct (IH (before ++ [Main.Returned])%list p1) as (p' & E' & Hp' & H').
    { unfold p1. simpl. rewrite Hpool, insert_app_r_alt by lia.
      rewrite Nat.sub_diag. simpl. now rewrite <- app_assoc. }
    { exact Hsel. }
    { exact Huc. }
    { exact Hucc. }
    exists p'. split; [| split; [| exact H']].
    + cbn [List.length seq map Main.run]. rewrite E1.
      rewrite length_app, Nat.add_1_r in E'. exact E'.
    + rewrite Hp', <- app_assoc. reflexivity.
Qed.

Lemma forallb_returned (n : nat) :
  forallb Main.isReturned (replicate n Main.Returned) = true.
Proof. induction n as [|n IH]; simpl; [reflexivity | exact IH]. Qed.

(** The pipeline starts idle: there is a worker and the channels have
    room. *)
Lemma spawn_Idle (urls : list string) :
  1 <= Go.NumCPU -> Idle urls [] (Main.spawn config c0 None urls).
Proof.
  intros Hcpu.
  assert (0 <= Go.len_slice urls) as H0 by (unfold Go.len_slice; lia).
  pose proof (numWorkersFor_positive config (Go.len_slice urls) Hcpu H0) as H1.
  pose proof (numWorkersFor_most config (Go.len_slice urls) H0) as H2.
  unfold Main.maxWorkers in H2.
  unfold Trace.Idle, Main.spawn. simpl.
  destruct (Z.to_nat (Main.numWorkersFor config (Go.len_slice urls))) as [|k] eqn:Ek; [lia |].
  unfold Go.int_mul. rewrite !wrap_small by (unfold Go.MinInt, Go.MaxInt; lia).
  repeat split; try reflexivity; try lia.
  - now eexists _, _.
  - apply (Forall_replicate _ (S k)). now eexists _, _.
  - now left.
Qed.

(** The sequential schedule is a complete run, and collects the results
    in the order of the input. *)
Lemma sequential_run (urls : list string) :
  1 <= Go.NumCPU -> Main.verbose config = false ->
  exists p,
    Main.run pats config (Trace.sequential pats config urls c0)
      (Main.spawn config c0 None urls) = Some p /\
    Main.returned config p
    = Some (Trace.expected pats config c0 urls, Main.stats p, None).
Proof.
  intros Hcpu Hv.
  destruct (serve_all urls [] _ (spawn_Idle urls Hcpu)) as (p1 & E1 & H1).
  destruct H1 as (Hctx & Hsend & Huc & Hucc & Hrc & Hrcc & Hres & _ & Hsel & _).
  assert (Main.step pats config Main.SenderReturn p1 = Some (Main.closeURLs p1)) as E2.
  { simpl. rewrite Hucc, Hsend. simpl. now rewrite orb_true_r. }
  destruct (close_all (Main.pool p1) [] (Main.closeURLs p1))
    as (p2 & E3 & Hpool & Hctx2 & Hrc2 & Hrcc2 & Hres2 & _);
    [reflexivity | exact Hsel | exact Huc | reflexivity |].
  assert (List.length (Main.pool p1)
          = Z.to_nat (Main.numWorkersFor config (Go.len_slice urls))) as Hlen.
  { rewrite (run_pool pats config _ _ p1 E1). simpl. apply length_replicate. }
  simpl in E3, Hpool, Hctx2, Hrc2, Hrcc2, Hres2. rewrite Hlen in E3.
  assert (Main.step pats config Main.CloseResults p2 = Some (Main.closeResults p2)) as E4.
  { simpl. rewrite Hrcc2, Hrcc, Hpool. simpl. now rewrite forallb_returned. }
  exists (Main.closeResults p2). split.
  - unfold Trace.sequential. rewrite run_app, E1. cbn [Main.run]. rewrite E2.
    rewrite run_app, E3. cbn [Main.run]. now rewrite E4.
  - unfold Main.returned. simpl. rewrite Hrc2, Hrc, Hv, Hres2, Hres, Hctx2, Hctx. reflexivity.
Qed.

End Completing.

(** X17.  [processURLs] can always finish: on every input, in terse mode
    and with a CPU, the schedule in which one worker handles the URLs one
    after the other is a complete run without error, and it returns the
    results of the suspicious URLs in the order of the input. *)
Theorem processURLs_can_complete (L : Go.Lib) (pats : Suspicious.Patterns)
    (config : Main.Config) (c : Main.URLChecker) (urls : list string) :
  1 <= Go.NumCPU -> Main.verbose config = false ->
  exists c' stats,
    Main.processURLs pats config c None urls (Trace.sequential pats config urls c)
    = Some (c', (Trace.expected pats config c urls, stats, None)).
Proof.
  intros Hcpu Hv. unfold Main.processURLs.
  destruct (Z.eqb_spec (Go.len_slice urls) 0) as [E0 | N0].
  - destruct urls; [| discriminate]. now eexists _, _.
  - destruct (sequential_run pats config c urls Hcpu Hv) as (p & -> & ->).
    now eexists _, _.
Qed.

(** The URLs of [TestProcessURLs]. *)
Lemma processURLs_can_complete_witness :
  exists c' stats,
    Main.processURLs AsciiLib.testPatterns Inputs.testConfig Inputs.processChecker None
      Inputs.testURLs
      (Trace.sequential AsciiLib.testPatterns Inputs.testConfig Inputs.testURLs
         Inputs.processChecker)
    = Some (c', (Trace.expected AsciiLib.testPatterns Inputs.testConfig
                   Inputs.processChecker Inputs.testURLs, stats, None)).
Proof.
  apply (processURLs_can_complete AsciiLib.lib); [vm_compute; discriminate | reflexivity].
Defined.

(** ** The streaming pipeline *)

Lemma insert_split {A} (l : list A) (i : nat) (x y : A) :
  l !! i = Some x ->
  exists l1 l2, l = (l1 ++ x :: l2)%list /\ <[i:=y]> l = (l1 ++ y :: l2)%list.
Proof.
  revert i. induction l as [|a l IH]; intros [|j] H; simpl in *; try discriminate.
  - injection H as ->. now exists [], l.
  - destruct (IH j H) as (l1 & l2 & -> & ->). now exists (a :: l1), l2.
Qed.

Lemma offering_insert (pool : list Stream.Worker) (i : nat) (w w' : Stream.Worker)
    (r : Processor.Result) :
  pool !! i = Some w ->
  (count_occ Flow.Result_eq_dec (flat_map Flow.offering (<[i:=w']> pool)) r
   + count_occ Flow.Result_eq_dec (Flow.offering w) r
   = count_occ Flow.Result_eq_dec (flat_map Flow.offering pool) r
     + count_occ Flow.Result_eq_dec (Flow.offering w') r)%nat.
Proof.
  intros Hi. destruct (insert_split pool i w w' Hi) as (l1 & l2 & -> & ->).
  rewrite !flat_map_app. cbn [flat_map]. rewrite !count_occ_app. lia.
Qed.

Lemma Exists_insert_cases {A} (P : A -> Prop) (l : list A) (i : nat) (x y : A) :
  l !! i = Some x -> Exists P (<[i:=y]> l) -> P y \/ Exists P l.
Proof.
  intros Hi. destruct (insert_split l i x y Hi) as (l1 & l2 & -> & ->).
  rewrite !Exists_app, !Exists_cons. tauto.
Qed.

(** A list with no more occurrences of anything than another is part of
    it, whatever the type. *)
Lemma count_occ_le_part {A} (dec : forall x y : A, {x = y} + {x <> y}) (l : list A) :
  forall l' : list A,
    (forall x, (count_occ dec l x <= count_occ dec l' x)%nat) ->
    exists rest, Permutation l' (l ++ rest).
Proof.
  induction l as [|a l IH]; intros l' H.
  - now exists l'.
  - assert (In a l') as Hin.
    { apply (count_occ_In dec). specialize (H a). simpl in H.
      destruct (dec a a); [lia | contradiction]. }
    destruct (in_split _ _ Hin) as (l1 & l2 & ->).
    destruct (IH (l1 ++ l2)%list) as (rest & Hrest).
    { intros x. specialize (H x). revert H. rewrite !count_occ_app. simpl.
      destruct (dec a x); lia. }
    exists rest. simpl. rewrite <- Hrest. symmetry. apply Permutation_middle.
Qed.

Lemma offering_returned (pool : list Stream.Worker) :
  Forall (fun w => w = Stream.WorkerReturned) pool -> flat_map Flow.offering pool = [].
Proof. induction 1 as [|w pool -> _ IH]; simpl; [reflexivity | exact IH]. Qed.

Lemma offering_receiving (n : nat) :
  flat_map Flow.offering (replicate n Stream.Receiving) = [].
Proof. induction n as [|n IH]; simpl; [reflexivity | exact IH]. Qed.

Lemma Exists_replicate {A} (P : A -> Prop) (n : nat) (x : A) :
  Exists P (replicate n x) -> P x.
Proof.
  induction n as [|n IH]; simpl; intros H; inversion H; subst; [assumption | now apply IH].
Qed.

Section Streaming.
Context {L : Go.Lib}.
Variable cfg : Stream.Config.
Variable createErr : option Go.error.
Variable fileLines : list string.

Implicit Types (s : Stream.State) (u : string) (r : Processor.Result).

Local Abbreviation Invariant := (Flow.Invariant cfg createErr fileLines).

Lemma counts_snoc {A} (n : Z) (l : list A) (x : A) :
  Flow.counts n l -> Flow.counts (Stream.AddUint64 n 1) (l ++ [x]).
Proof.
  unfold Flow.counts, Stream.AddUint64. intros ->.
  rewrite length_app, Nat.add_1_r, Nat2Z.inj_succ, Zplus_mod_idemp_l. f_equal; lia.
Qed.

Lemma live s : Stream.isDone s = false -> Stream.ctxErr s = None.
Proof. unfold Stream.isDone. now destruct (Stream.ctxErr s). Qed.

Lemma not_live s : Stream.isDone s = true -> Stream.ctxErr s = None -> False.
Proof. unfold Stream.isDone. intros H E. rewrite E in H. discriminate. Qed.

Lemma hasRoom_open {A} (ch : Stream.Chan A) :
  Stream.hasRoom ch = true -> Stream.closed ch = false.
Proof.
  unfold Stream.hasRoom. intros H. apply andb_true_iff in H as [H _].
  now apply negb_true_iff in H.
Qed.

Lemma report_classified u r : Stream.classify cfg u = Some r -> Flow.report cfg u = [r].
Proof. unfold Flow.report. now intros ->. Qed.

Lemma report_unclassified u : Stream.classify cfg u = None -> Flow.report cfg u = [].
Proof. unfold Flow.report. now intros ->. Qed.

Lemma expected_snoc (urls : list string) u :
  Flow.expected cfg (urls ++ [u]) = (Flow.expected cfg urls ++ Flow.report cfg u)%list.
Proof. unfold Flow.expected. rewrite flat_map_app. simpl. now rewrite app_nil_r. Qed.

Ltac known :=
  repeat match goal with
         | E : Stream.reader ?s = _ |- context [Stream.reader ?s] => rewrite E
         | E : Stream.lines ?s = _ |- context [Stream.lines ?s] => rewrite E
         | E : Stream.buf ?c = _ |- context [Stream.buf ?c] => rewrite E
         | E : Stream.closed ?c = _ |- context [Stream.closed ?c] => rewrite E
         | E : Stream.writer ?s = _ |- context [Stream.writer ?s] => rewrite E
         end.

Ltac counting :=
  intros;
  repeat match goal with
         | H : Stream.ctxErr ?s = None -> forall _, _, E : Stream.ctxErr ?s = None |- _ =>
             specialize (H E)
         end;
  repeat match goal with
         | H : forall x, (count_occ _ _ x <= _)%nat |- context [count_occ _ _ ?y] =>
             pose proof (H y); clear H
         | H : forall x, count_occ _ _ x = _ |- context [count_occ _ _ ?y] =>
             pose proof (H y); clear H
         end;
  rewrite ?count_occ_app in *;
  try match goal with
      | Hi : ?pool !! ?i = Some ?w
        |- context [count_occ _ (flat_map Flow.offering (<[?i:=?w']> ?pool)) ?x] =>
          pose proof (offering_insert pool i w w' x Hi)
      end;
  cbn [Flow.offering Flow.pending count_occ] in *;
  repeat match goal with
         | |- context [if ?d then _ else _] => destruct d
         | H : context [if ?d then _ else _] |- _ => destruct d
         end;
  lia.

Ltac dead :=
  intros;
  match goal with
  | Hd : Stream.isDone ?s = true, Hc : Stream.ctxErr ?s = None |- _ =>
      destruct (not_live s Hd Hc)
  end.

Ltac flow :=
  constructor; unfold Flow.lineFlow, Flow.resultFlow; cbn; known; cbn;
  try assumption; try discriminate; try reflexivity; try (now intros);
  try (now dead); try (now counting).

Ltac counted_snoc H :=
  destruct H as (? & ? & ?); repeat split; try assumption; now apply counts_snoc.

Lemma Invariant_step (e : Stream.Event) s s' :
  Stream.step cfg createErr e s = Some s' -> Invariant s -> Invariant s'.
Proof.
  intros Hstep H.
  destruct H as [Hread Hoff Hlb Hlk Hrb Hrk Hcr Hre Hwe Hcw Hwr Hwerr Hwc Hwg Hcnt].
  unfold Flow.lineFlow, Flow.resultFlow in *.
  destruct e as [| | | | | i | i | i | i | i | | | | |]; simpl in Hstep.
  - (* Deadline *)
    destruct (Stream.isDone s) eqn:Ed; [discriminate |]. injection Hstep as <-.
    apply live in Ed. flow.
    intros err Hw. destruct (Hwerr err Hw) as [[_ Hc] | Hc]; [congruence | now right].
  - (* ReaderScan *)
    destruct (Stream.reader s) eqn:Er; try discriminate.
    destruct (Stream.lines s) as [|line rest] eqn:El.
    + injection Hstep as <-. flow.
    + unfold Flow.unskipped in Hread. simpl in Hread.
      destruct (Stream.skipped line) eqn:Esk; injection Hstep as <-; simpl in Hread.
      * flow.
      * flow.
        -- now rewrite <- app_assoc.
        -- intros Hc. apply Hcr in Hc. discriminate.
        -- counted_snoc Hcnt.
  - (* ReaderSend *)
    destruct (Stream.reader s) as [| line |] eqn:Er; try discriminate.
    destruct (Stream.hasRoom (Stream.urlChan s)) eqn:Eroom; [| discriminate].
    injection Hstep as <-. apply hasRoom_open in Eroom. flow.
    intros Hctx Hex. destruct (Hwe Hctx Hex) as [_ Hc]. congruence.
  - (* ReaderAbort *)
    destruct (Stream.reader s) as [| line |] eqn:Er; try discriminate.
    destruct (Stream.isDone s) eqn:Ed; [| discriminate]. injection Hstep as <-.
    flow.
  - (* CloseURLs *)
    destruct (Stream.reader s) eqn:Er; try discriminate.
    destruct (Stream.closed (Stream.urlChan s)) eqn:Ec; [discriminate |].
    injection Hstep as <-. flow.
    intros Hctx Hex. now destruct (Hwe Hctx Hex).
  - (* WorkerReceive *)
    destruct (Stream.pool s !! i) as [[| |]|] eqn:Hi; try discriminate.
    destruct (Stream.buf (Stream.urlChan s)) as [|u rest] eqn:Eb; [discriminate |].
    unfold Flow.expected in Hoff.
    destruct (Stream.classify cfg u) as [r|] eqn:Ecl; injection Hstep as <-.
    + flow.
      * now rewrite flat_map_app, Hoff; cbn [flat_map];
          rewrite (report_classified u r Ecl), app_nil_r.
      * intros Hctx Hex. apply (Exists_insert_cases _ _ _ _ _ Hi) in Hex as [Hex | Hex];
          [discriminate | now destruct (Hwe Hctx Hex)].
      * intros Hc. specialize (Hcw Hc). rewrite Forall_lookup in Hcw.
        specialize (Hcw i _ Hi). discriminate.
      * destruct Hcnt as (? & ? & ?). repeat split; try assumption; now apply counts_snoc.
    + flow.
      * now rewrite flat_map_app, Hoff; cbn [flat_map];
          rewrite (report_unclassified u Ecl), !app_nil_r.
      * intros Hctx Hex. now destruct (Hwe Hctx Hex).
      * counted_snoc Hcnt.
  - (* WorkerClosed *)
    destruct (Stream.pool s !! i) as [[| |]|] eqn:Hi; try discriminate.
    destruct (Stream.buf (Stream.urlChan s)) eqn:Eb; [| discriminate].
    destruct (Stream.closed (Stream.urlChan s)) eqn:Ec; [| discriminate].
    injection Hstep as <-. flow.
    intros Hc. apply Forall_insert; [now apply Hcw | reflexivity].
  - (* WorkerDone *)
    destruct (Stream.pool s !! i) as [[| |]|] eqn:Hi; try discriminate.
    destruct (Stream.isDone s) eqn:Ed; [| discriminate]. injection Hstep as <-.
    flow.
    intros Hc. apply Forall_insert; [now apply Hcw | reflexivity].
  - (* WorkerSend *)
    destruct (Stream.pool s !! i) as [[| r |]|] eqn:Hi; try discriminate.
    destruct (Stream.hasRoom (Stream.resultsChan s)) eqn:Eroom; [| discriminate].
    injection Hstep as <-. apply hasRoom_open in Eroom. flow.
    + intros Hctx Hex. apply (Exists_insert_cases _ _ _ _ _ Hi) in Hex as [Hex | Hex];
        [discriminate | now apply Hwe].
    + intros Hw. destruct (Hwr Hw) as (_ & Hc & _). congruence.
  - (* WorkerAbort *)
    destruct (Stream.pool s !! i) as [[| r |]|] eqn:Hi; try discriminate.
    destruct (Stream.isDone s) eqn:Ed; [| discriminate]. injection Hstep as <-.
    flow.
    intros Hc. apply Forall_insert; [now apply Hcw | reflexivity].
  - (* CloseResults *)
    destruct (Stream.closed (Stream.resultsChan s)) eqn:Ec; [discriminate |].
    simpl in Hstep.
    destruct (forallb Stream.isReturned (Stream.pool s)) eqn:Hall; [| discriminate].
    injection Hstep as <-. flow.
    + intros _. apply List.Forall_forall. intros w Hw.
      rewrite forallb_forall in Hall. specialize (Hall w Hw). now destruct w.
    + intros Hw. now destruct (Hwr Hw) as (? & ? & ?).
  - (* WriterCreate *)
    destruct (Stream.writer s) eqn:Ew; try discriminate.
    fold (Flow.createFailure cfg createErr) in Hstep.
    destruct (Flow.createFailure cfg createErr) as [err|] eqn:Ecreate; injection Hstep as <-.
    + flow. intros err0 [= <-]. right. split; [exact Ecreate | now apply Hwc].
    + flow.
  - (* WriterReceive *)
    destruct (Stream.writer s) eqn:Ew; try discriminate.
    destruct (Stream.buf (Stream.resultsChan s)) as [|r rest] eqn:Eb; [discriminate |].
    injection Hstep as <-. flow.
  - (* WriterClosed *)
    destruct (Stream.writer s) eqn:Ew; try discriminate.
    destruct (Stream.buf (Stream.resultsChan s)) eqn:Eb; [| discriminate].
    destruct (Stream.closed (Stream.resultsChan s)) eqn:Ec; [| discriminate].
    injection Hstep as <-. flow.
    intros _. split; [reflexivity |]. split; [reflexivity | now apply Hwg].
  - (* WriterDone *)
    destruct (Stream.writer s) eqn:Ew; try discriminate.
    destruct (Stream.isDone s) eqn:Ed; [| discriminate]. injection Hstep as <-.
    flow.
    + intros [= E]. destruct (not_live s Ed E).
    + intros err [= E]. left. split; [now apply Hwg | exact E].
Qed.


Lemma Invariant_run (schedule : list Stream.Event) : forall s s',
  Stream.run cfg createErr schedule s = Some s' -> Invariant s -> Invariant s'.
Proof.
  induction schedule as [|e schedule IH]; intros s s' Hrun H; simpl in Hrun.
  - now injection Hrun as <-.
  - destruct (Stream.step cfg createErr e s) as [s1|] eqn:E; [| discriminate].
    apply (IH s1 s' Hrun). exact (Invariant_step e s s1 E H).
Qed.

(** The invariant holds when the goroutines are started. *)
Lemma Invariant_spawn (ctx : option Go.error) :
  Invariant (Stream.spawn cfg ctx fileLines).
Proof.
  constructor; unfold Flow.lineFlow, Flow.resultFlow; cbn;
    rewrite ?offering_receiving; try reflexivity; try discriminate; try (now intros).
  intros _ Hex. apply Exists_replicate in Hex. discriminate.
Qed.

(** No step changes the number of workers. *)
Lemma stream_step_pool (e : Stream.Event) s s' :
  Stream.step cfg createErr e s = Some s' ->
  List.length (Stream.pool s') = List.length (Stream.pool s).
Proof.
  intros Hstep.
  destruct e; simpl in Hstep;
    repeat match type of Hstep with
           | context [match ?x with _ => _ end] => destruct x; try discriminate
           end;
    injection Hstep as <-; cbn; rewrite ?length_insert; reflexivity.
Qed.

Lemma stream_run_pool (schedule : list Stream.Event) : forall s s',
  Stream.run cfg createErr schedule s = Some s' ->
  List.length (Stream.pool s') = List.length (Stream.pool s).
Proof.
  induction schedule as [|e schedule IH]; intros s s' Hrun; simpl in Hrun.
  - now injection Hrun as <-.
  - destruct (Stream.step cfg createErr e s) as [s1|] eqn:E; [| discriminate].
    rewrite (IH s1 s' Hrun). exact (stream_step_pool e s s1 E).
Qed.

(** The context: only the deadline changes its error, and only once. *)
Lemma stream_step_ctxErr (e : Stream.Event) s s' :
  Stream.step cfg createErr e s = Some s' ->
  Stream.ctxErr s'
  = match Stream.ctxErr s with
    | Some err => Some err
    | None => if Flow.isDeadline e then Some Go.DeadlineExceeded else None
    end.
Proof.
  intros Hstep.
  destruct (Flow.isDeadline e) eqn:Ed.
  - destruct e; try discriminate. simpl in Hstep. unfold Stream.isDone in Hstep.
    destruct (Stream.ctxErr s); [discriminate |]. now injection Hstep as <-.
  - assert (Stream.ctxErr s' = Stream.ctxErr s) as ->; [| now destruct (Stream.ctxErr s)].
    destruct e; try discriminate; simpl in Hstep;
      repeat match type of Hstep with
             | context [match ?x with _ => _ end] => destruct x; try discriminate
             end;
      injection Hstep as <-; reflexivity.
Qed.

Lemma stream_run_ctxErr (schedule : list Stream.Event) : forall s s',
  Stream.run cfg createErr schedule s = Some s' ->
  Stream.ctxErr s'
  = match Stream.ctxErr s with
    | Some err => Some err
    | None => if existsb Flow.isDeadline schedule then Some Go.DeadlineExceeded else None
    end.
Proof.
  induction schedule as [|e schedule IH]; intros s s' Hrun; simpl in Hrun.
  - injection Hrun as <-. now destruct (Stream.ctxErr s).
  - destruct (Stream.step cfg createErr e s) as [s1|] eqn:E; [| discriminate].
    rewrite (IH s1 s' Hrun), (stream_step_ctxErr e s s1 E). simpl.
    destruct (Stream.ctxErr s); [reflexivity |].
    destruct (Flow.isDeadline e); reflexivity.
Qed.

(** What a worker offers for a URL. *)
Lemma classify_Some u r :
  Stream.classify cfg u = Some r ->
  Processor.URL r = u /\
  (Stream.ValidateURLs cfg = true -> Checker.IsValidURL u = true) /\
  Checker.IsSuspicious (Stream.URLChecker cfg) u
  = (true, Processor.Category r, Processor.Reason r).
Proof.
  unfold Stream.classify.
  destruct (Stream.ValidateURLs cfg && negb (Checker.IsValidURL u)) eqn:Ev; [discriminate |].
  destruct (Checker.IsSuspicious (Stream.URLChecker cfg) u) as [[sus cat] why].
  destruct sus; [| discriminate]. intros [= <-]. simpl.
  split; [reflexivity |]. split; [| reflexivity].
  intros Hv. rewrite Hv in Ev. simpl in Ev. now apply negb_false_iff in Ev.
Qed.

Lemma expected_genuine (urls : list string) r :
  In r (Flow.expected cfg urls) ->
  In (Processor.URL r) urls /\
  (Stream.ValidateURLs cfg = true -> Checker.IsValidURL (Processor.URL r) = true) /\
  Checker.IsSuspicious (Stream.URLChecker cfg) (Processor.URL r)
  = (true, Processor.Category r, Processor.Reason r).
Proof.
  unfold Flow.expected, Flow.report. intros Hin.
  apply in_flat_map in Hin as (u & Hu & Hr).
  destruct (Stream.classify cfg u) as [r'|] eqn:E; [| contradiction].
  destruct Hr as [-> | []].
  destruct (classify_Some u r E) as (Hurl & Hv & Hs). rewrite Hurl.
  split; [exact Hu |]. split; assumption.
Qed.

(** Whatever has been written is, up to order, part of what the results
    of the unskipped lines are. *)
Lemma written_part s :
  Invariant s ->
  exists rest,
    Permutation (Flow.expected cfg (Flow.unskipped fileLines)) (Stream.written s ++ rest).
Proof.
  intros [Hread Hoff Hlb _ Hrb _ _ _ _ _ _ _ _ _ _].
  destruct (count_occ_le_part string_dec (Stream.received (Stream.history s))
              (Stream.read (Stream.history s))) as [rest1 H1].
  { intros u. specialize (Hlb u). unfold Flow.lineFlow in Hlb.
    rewrite !count_occ_app in Hlb. lia. }
  destruct (count_occ_le_part Flow.Result_eq_dec (Stream.written s)
              (Stream.offered (Stream.history s))) as [rest2 H2].
  { intros r. specialize (Hrb r). unfold Flow.resultFlow in Hrb.
    rewrite !count_occ_app in Hrb. lia. }
  exists (rest2 ++ Flow.expected cfg rest1
          ++ Flow.expected cfg (Flow.unskipped (Stream.lines s)))%list.
  rewrite Hread. unfold Flow.expected at 1. rewrite flat_map_app.
  rewrite (Permutation_flat_map (Flow.report cfg) _ _ H1), flat_map_app.
  fold (Flow.expected cfg (Stream.received (Stream.history s))).
  rewrite <- Hoff, H2. unfold Flow.expected. now rewrite <- !app_assoc.
Qed.

(** When [WriteStream] has returned [nil] and the deadline has not
    passed, every goroutine has returned: every result is written and
    the counters have their final values. *)
Lemma written_all s :
  Invariant s -> Stream.ctxErr s = None -> Stream.pool s <> [] ->
  Stream.writer s = Stream.WriterReturned None ->
  Permutation (Stream.written s) (Flow.expected cfg (Flow.unskipped fileLines)) /\
  Flow.counts (Stream.total (Stream.counters s)) (Flow.unskipped fileLines) /\
  Flow.counts (Stream.processed (Stream.counters s)) (Flow.unskipped fileLines) /\
  Flow.counts (Stream.suspicious (Stream.counters s)) (Stream.written s).
Proof.
  intros [Hread Hoff _ Hlk _ Hrk Hcr Hre Hwe Hcw Hwr _ _ _ Hcnt] Hctx Hpool Hw.
  destruct (Hwr Hw) as (Hbuf & Hclosed & _).
  pose proof (Hcw Hclosed) as Hall.
  destruct (Hwe Hctx) as [Hub Huc].
  { destruct (Stream.pool s) as [|w pool]; [contradiction |].
    inversion Hall; subst. now left. }
  pose proof (Hcr Huc) as Hr. pose proof (Hre Hctx Hr) as Hl.
  rewrite Hl in Hread. unfold Flow.unskipped at 2 in Hread. simpl in Hread.
  rewrite app_nil_r in Hread.
  assert (Permutation (Stream.received (Stream.history s)) (Stream.read (Stream.history s)))
    as Hrecv.
  { apply (Permutation_count_occ string_dec). intros u. rewrite <- (Hlk Hctx u).
    unfold Flow.lineFlow. rewrite Hub, Hr. simpl. now rewrite app_nil_r. }
  assert (Permutation (Stream.written s) (Stream.offered (Stream.history s))) as Hwri.
  { apply (Permutation_count_occ Flow.Result_eq_dec). intros r. rewrite <- (Hrk Hctx r).
    unfold Flow.resultFlow. rewrite Hbuf, (offering_returned _ Hall). simpl.
    now rewrite app_nil_r. }
  destruct Hcnt as (Ht & Hp & Hs). unfold Flow.counts in *.
  rewrite Hread. repeat split.
  - rewrite Hwri, Hoff. unfold Flow.expected. now apply Permutation_flat_map.
  - exact Ht.
  - now rewrite <- (Permutation_length Hrecv).
  - now rewrite (Permutation_length Hwri).
Qed.

End Streaming.

(** X18.  [ProcessFile] of package [processor], whatever the
    interleaving and whether or not the deadline passes: the error it
    returns and the lines it has written are those of the summary model
    [Processor.ProcessFile] for some list of results taken by
    [WriteStream]; these results are, up to order, part of the results
    of the unskipped lines of the file, each as often at most as its
    line occurs; each is an unskipped line, valid when validation is on,
    with the category and the reason [IsSuspicious] returns. *)
Theorem ProcessFile_writes_part_of_expected (L : Go.Lib) (cfg : Stream.Config)
    (openErr createErr ctx : option Go.error) (fileLines : list string)
    (schedule : list Stream.Event) (err : option Go.error) (out : list string)
    (stats : option (Z * Z * Z)) :
  Stream.ProcessFile cfg openErr createErr ctx fileLines schedule = Some (err, out, stats) ->
  exists written stop rest,
    (err, out) = Processor.ProcessFile openErr createErr (Stream.OutputPath cfg)
                   (Stream.Verbose cfg) written stop /\
    Permutation (Flow.expected cfg (Flow.unskipped fileLines)) (written ++ rest) /\
    Forall (Flow.genuine cfg fileLines) written.
Proof.
  unfold Stream.ProcessFile. destruct openErr as [e|].
  - intros [= <- <- <-]. exists [], None, (Flow.expected cfg (Flow.unskipped fileLines)).
    split; [reflexivity |]. split; [reflexivity | constructor].
  - destruct ((Go.int_mul (Stream.numWorkers cfg) 100 <=? 0)
              || (Go.int_mul (Stream.numWorkers cfg) 10 <=? 0)); [discriminate |].
    destruct (Stream.run cfg createErr schedule (Stream.spawn cfg ctx fileLines))
      as [s|] eqn:Hrun; [| discriminate].
    pose proof (Invariant_run cfg createErr fileLines schedule _ s Hrun
                  (Invariant_spawn cfg createErr fileLines ctx)) as Hinv.
    destruct (written_part cfg createErr fileLines s Hinv) as [rest Hrest].
    assert (Forall (Flow.genuine cfg fileLines) (Stream.written s)) as Hgen.
    { apply List.Forall_forall. intros r Hin. apply expected_genuine.
      apply (Permutation_in r (Permutation_sym Hrest)), in_or_app. now left. }
    unfold Stream.returned. destruct (Stream.writer s) as [| | e0] eqn:Ew; try discriminate.
    intros Hret.
    assert (forall written stop,
              Processor.ProcessFile None createErr (Stream.OutputPath cfg)
                (Stream.Verbose cfg) written stop
              = match Flow.createFailure cfg createErr with
                | Some e => match e with
                            | Go.DeadlineExceeded => (None, [])
                            | _ => (Some e, [])
                            end
                | None => match stop with
                          | Some Go.DeadlineExceeded =>
                              (None, map (Processor.formatResult (Stream.Verbose cfg)) written)
                          | _ => (stop, map (Processor.formatResult (Stream.Verbose cfg)) written)
                          end
                end) as Hsum.
    { intros written stop.
      unfold Processor.ProcessFile, Processor.WriteStream, Flow.createFailure.
      destruct (if String.eqb (Stream.OutputPath cfg) "" then None else createErr)
        as [[| | |]|]; reflexivity. }
    destruct e0 as [e0|].
    + destruct (Flow.writer_error cfg createErr fileLines s Hinv e0 Ew)
        as [[Hc Hctx] | [Hc Hw]].
      * exists (Stream.written s), (Some e0), rest. rewrite Hsum, Hc.
        split; [| split; assumption].
        destruct e0; injection Hret as <- <- <-; reflexivity.
      * exists [], None, (Flow.expected cfg (Flow.unskipped fileLines)).
        rewrite Hsum, Hc. rewrite Hw in Hret.
        split; [| split; [reflexivity | constructor]].
        destruct e0; injection Hret as <- <- <-; reflexivity.
    + destruct (Flow.writer_at_end cfg createErr fileLines s Hinv Ew) as (_ & _ & Hc).
      exists (Stream.written s), None, rest. rewrite Hsum, Hc.
      injection Hret as <- <- <-. split; [reflexivity | split; assumption].
Qed.

(** A run the deadline cuts short: one result is written, one line is
    left in [urlChan], two lines are not read. *)
Lemma ProcessFile_writes_part_of_expected_witness :
  Stream.ProcessFile Inputs.streamConfig None None None Inputs.streamLines
    Inputs.streamCutSchedule
  = Some (None, ["http://bad.com/evil.exe [extensions: Suspicious file extension]"], None) /\
  exists written stop rest,
    (None, ["http://bad.com/evil.exe [extensions: Suspicious file extension]"])
    = Processor.ProcessFile None None "" true written stop /\
    Permutation (Flow.expected Inputs.streamConfig (Flow.unskipped Inputs.streamLines))
      (written ++ rest) /\
    Forall (Flow.genuine Inputs.streamConfig Inputs.streamLines) written.
Proof.
  match goal with
  | |- ?l = ?v /\ _ => assert (l = v) as H by exact (@eq_refl _ v <: l = v)
  end.
  split; [exact H |].
  exact (ProcessFile_writes_part_of_expected AsciiLib.lib Inputs.streamConfig None None None
           Inputs.streamLines Inputs.streamCutSchedule _ _ _ H).
Defined.

(** X19.  [ProcessFile] of package [processor] when the deadline does
    not pass and the output can be created, with at least one worker:
    whatever the interleaving, it returns no error; the results written
    are, up to order, exactly the results of the unskipped lines of the
    file, one for every occurrence of a line (no deduplication, no
    sorting); and in verbose mode the counters printed are the number of
    unskipped lines, twice, and the number of results, as [uint64]. *)
Theorem ProcessFile_complete_without_deadline (L : Go.Lib) (cfg : Stream.Config)
    (fileLines : list string) (schedule : list Stream.Event) (err : option Go.error)
    (out : list string) (stats : option (Z * Z * Z)) :
  1 <= Stream.numWorkers cfg ->
  existsb Flow.isDeadline schedule = false ->
  Stream.ProcessFile cfg None None None fileLines schedule = Some (err, out, stats) ->
  err = None /\
  exists written,
    out = map (Processor.formatResult (Stream.Verbose cfg)) written /\
    Permutation written (Flow.expected cfg (Flow.unskipped fileLines)) /\
    stats = if Stream.Verbose cfg
            then Some (Z.of_nat (List.length (Flow.unskipped fileLines)) mod 2 ^ 64,
                       Z.of_nat (List.length (Flow.unskipped fileLines)) mod 2 ^ 64,
                       Z.of_nat (List.length written) mod 2 ^ 64)
            else None.
Proof.
  intros Hworkers Hlive. unfold Stream.ProcessFile.
  destruct ((Go.int_mul (Stream.numWorkers cfg) 100 <=? 0)
            || (Go.int_mul (Stream.numWorkers cfg) 10 <=? 0)); [discriminate |].
  destruct (Stream.run cfg None schedule (Stream.spawn cfg None fileLines))
    as [s|] eqn:Hrun; [| discriminate].
  pose proof (Invariant_run cfg None fileLines schedule _ s Hrun
                (Invariant_spawn cfg None fileLines None)) as Hinv.
  pose proof (stream_run_ctxErr cfg None schedule _ s Hrun) as Hctx.
  rewrite Hlive in Hctx. simpl in Hctx.
  assert (Stream.pool s <> []) as Hpool.
  { pose proof (stream_run_pool cfg None schedule _ s Hrun) as Hlen. simpl in Hlen.
    rewrite length_replicate in Hlen. intros E. rewrite E in Hlen. simpl in Hlen. lia. }
  unfold Stream.returned. destruct (Stream.writer s) as [| | e0] eqn:Ew; try discriminate.
  destruct e0 as [e0|].
  - destruct (Flow.writer_error cfg None fileLines s Hinv e0 Ew) as [[_ Hc] | [Hc _]].
    + congruence.
    + unfold Flow.createFailure in Hc. destruct (String.eqb _ _); discriminate.
  - destruct (written_all cfg None fileLines s Hinv Hctx Hpool Ew) as (Hall & Ht & Hp & Hs).
    intros [= <- <- <-]. split; [reflexivity |]. exists (Stream.written s).
    split; [reflexivity |]. split; [exact Hall |].
    unfold Flow.counts in Ht, Hp, Hs. now rewrite Ht, Hp, Hs.
Qed.

(** A run to the end: seven lines, four of them unskipped, two results. *)
Lemma ProcessFile_complete_without_deadline_witness :
  Stream.ProcessFile Inputs.streamConfig None None None Inputs.streamLines
    Inputs.streamSchedule
  = Some (None,
          ["http://bad.com/evil.exe [extensions: Suspicious file extension]";
           "http://bad.com/evil [paths: Suspicious path pattern]"],
          Some (4, 4, 2)) /\
  exists written,
    ["http://bad.com/evil.exe [extensions: Suspicious file extension]";
     "http://bad.com/evil [paths: Suspicious path pattern]"]
    = map (Processor.formatResult true) written /\
    Permutation written (Flow.expected Inputs.streamConfig (Flow.unskipped Inputs.streamLines)).
Proof.
  match goal with
  | |- ?l = ?v /\ _ => assert (l = v) as H by exact (@eq_refl _ v <: l = v)
  end.
  split; [exact H |].
  destruct (ProcessFile_complete_without_deadline AsciiLib.lib Inputs.streamConfig
              Inputs.streamLines Inputs.streamSchedule _ _ _ ltac:(vm_compute; discriminate)
              eq_refl H) as (_ & written & Hout & Hperm & _).
  exists written. split; assumption.
Defined.

(** X20.  An error [ProcessFile] of package [processor] returns is the
    error of [os.Open], the error of [os.Create] with nothing written,
    or the error the context had when [ProcessFile] was called: a
    deadline that passes during the run is never returned. *)
Theorem ProcessFile_error_origin (L : Go.Lib) (cfg : Stream.Config)
    (openErr createErr ctx : option Go.error) (fileLines : list string)
    (schedule : list Stream.Event) (e : Go.error) (out : list string)
    (stats : option (Z * Z * Z)) :
  Stream.ProcessFile cfg openErr createErr ctx fileLines schedule = Some (Some e, out, stats) ->
  (openErr = Some e /\ out = []) \/
  (Flow.createFailure cfg createErr = Some e /\ out = []) \/
  (ctx = Some e /\ e <> Go.DeadlineExceeded).
Proof.
  unfold Stream.ProcessFile. destruct openErr as [e'|].
  - intros [= <- <- <-]. now left.
  - destruct ((Go.int_mul (Stream.numWorkers cfg) 100 <=? 0)
              || (Go.int_mul (Stream.numWorkers cfg) 10 <=? 0)); [discriminate |].
    destruct (Stream.run cfg createErr schedule (Stream.spawn cfg ctx fileLines))
      as [s|] eqn:Hrun; [| discriminate].
    pose proof (Invariant_run cfg createErr fileLines schedule _ s Hrun
                  (Invariant_spawn cfg createErr fileLines ctx)) as Hinv.
    pose proof (stream_run_ctxErr cfg createErr schedule _ s Hrun) as Hctx.
    simpl in Hctx.
    unfold Stream.returned. destruct (Stream.writer s) as [| | e0] eqn:Ew; try discriminate.
    destruct e0 as [e0|]; [| discriminate].
    assert (e0 <> Go.DeadlineExceeded -> e0 = e ->
            (Flow.createFailure cfg createErr = Some e /\
             map (Processor.formatResult (Stream.Verbose cfg)) (Stream.written s) = []) \/
            (ctx = Some e /\ e <> Go.DeadlineExceeded)) as Hcases.
    { intros Hne <-.
      destruct (Flow.writer_error cfg createErr fileLines s Hinv e0 Ew)
        as [[_ Hc] | [Hc Hw]].
      - right. split; [| exact Hne]. rewrite Hc in Hctx.
        destruct ctx as [e1|]; [now symmetry |].
        destruct (existsb Flow.isDeadline schedule); congruence.
      - left. now rewrite Hw. }
    destruct e0; try discriminate; intros [= <- <- <-]; right;
      apply Hcases; try discriminate; reflexivity.
Qed.

(** The context is cancelled before the call. *)
Lemma ProcessFile_error_origin_witness :
  Stream.ProcessFile Inputs.streamConfig None None (Some Go.Canceled) Inputs.streamLines
    Inputs.streamCancelledSchedule
  = Some (Some Go.Canceled, [], Some (0, 0, 0)) /\
  ((@None Go.error = Some Go.Canceled /\ @nil string = []) \/
   (Flow.createFailure Inputs.streamConfig None = Some Go.Canceled /\ @nil string = []) \/
   (Some Go.Canceled = Some Go.Canceled /\ Go.Canceled <> Go.DeadlineExceeded)).
Proof.
  match goal with
  | |- ?l = ?v /\ _ => assert (l = v) as H by exact (@eq_refl _ v <: l = v)
  end.
  split; [exact H |].
  exact (ProcessFile_error_origin AsciiLib.lib Inputs.streamConfig None None
           (Some Go.Canceled) Inputs.streamLines Inputs.streamCancelledSchedule _ _ _ H).
Defined.


(** ** A streaming run that completes *)

Lemma stream_run_app {L : Go.Lib} (cfg : Stream.Config) (createErr : option Go.error)
    (l1 l2 : list Stream.Event) : forall s,
  Stream.run cfg createErr (l1 ++ l2) s
  = match Stream.run cfg createErr l1 s with
    | Some s1 => Stream.run cfg createErr l2 s1
    | None => None
    end.
Proof.
  induction l1 as [|e l1 IH]; intros s; simpl; [reflexivity |].
  destruct (Stream.step cfg createErr e s); [apply IH | reflexivity].
Qed.

Lemma hasRoom_empty {A} (ch : Stream.Chan A) :
  Stream.buf ch = [] -> Stream.closed ch = false -> 0 < Stream.cap ch ->
  Stream.hasRoom ch = true.
Proof.
  unfold Stream.hasRoom, Go.len_slice. intros -> -> H. cbn [negb andb List.length].
  change (Z.of_nat 0) with 0. now apply Z.ltb_lt.
Qed.

Ltac idle k :=
  unfold Flow.Idle;
  repeat match goal with |- _ /\ _ => split end;
  try first [ match goal with H : _ |- _ => exact H end
            | reflexivity
            | exists k; match goal with H : _ |- _ => exact H end ].

Section StreamCompleting.
Context {L : Go.Lib}.
Variable cfg : Stream.Config.

Implicit Types (s : Stream.State) (line : string) (rest : list string)
  (done : list Processor.Result).

(** One line of the schedule. *)
Lemma stream_serve_one line rest done s :
  Flow.Idle (line :: rest) done s ->
  exists s',
    Stream.run cfg None (Flow.serve cfg line) s = Some s' /\
    Flow.Idle rest (done ++ Flow.expected cfg (Flow.unskipped [line])) s'.
Proof.
  intros (Hctx & Hl & Hr & Hub & Huc & Hucap & Hrb & Hrc & Hrcap & Hw & Hwr & k & Hpool).
  unfold Flow.serve, Flow.unskipped. cbn [List.filter].
  destruct (Stream.skipped line) eqn:Esk; cbn [negb].
  - exists (Stream.setLines rest s). split.
    + cbn [Stream.run]. unfold Stream.step. now rewrite Hr, Hl, Esk.
    + unfold Flow.expected. cbn [flat_map]. rewrite app_nil_r.
      idle k.
  - unfold Flow.expected. cbn [flat_map]. rewrite app_nil_r.
    set (s1 := Stream.setReader (Stream.Sending line)
                 (Stream.countTotal line (Stream.setLines rest s))).
    assert (Stream.step cfg None Stream.ReaderScan s = Some s1) as E1.
    { unfold Stream.step. now rewrite Hr, Hl, Esk. }
    set (s2 := Stream.setReader Stream.Scanning
                 (Stream.setURLChan (Stream.push line (Stream.urlChan s1)) s1)).
    assert (Stream.step cfg None Stream.ReaderSend s1 = Some s2) as E2.
    { unfold Stream.step.
      change (Stream.reader s1) with (Stream.Sending line). cbv iota.
      change (Stream.hasRoom (Stream.urlChan s1))
        with (Stream.hasRoom (Stream.urlChan s)).
      now rewrite (hasRoom_empty _ Hub Huc Hucap). }
    set (s3 := Stream.countProcessed line
                 (Stream.setURLChan (Stream.setBuf [] (Stream.urlChan s2)) s2)).
    assert (Stream.step cfg None (Stream.WorkerReceive 0) s2
            = Some match Stream.classify cfg line with
                   | Some r => Stream.setWorker 0 (Stream.Offering r)
                                 (Stream.countSuspicious r s3)
                   | None => s3
                   end) as E3.
    { unfold Stream.step.
      change (Stream.pool s2) with (Stream.pool s).
      change (Stream.buf (Stream.urlChan s2))
        with (Stream.buf (Stream.urlChan s) ++ [line])%list.
      rewrite Hpool, Hub.
      change (replicate (S k) Stream.Receiving !! 0%nat) with (Some Stream.Receiving).
      cbn [app]. cbv beta iota. fold s3. now destruct (Stream.classify cfg line). }
    unfold Flow.report.
    destruct (Stream.classify cfg line) as [r|] eqn:Ec.
    + set (s4 := Stream.setWorker 0 (Stream.Offering r) (Stream.countSuspicious r s3)) in *.
      set (s5 := Stream.setWorker 0 Stream.Receiving
                   (Stream.setResultsChan (Stream.push r (Stream.resultsChan s4)) s4)).
      assert (Stream.step cfg None (Stream.WorkerSend 0) s4 = Some s5) as E4.
      { unfold Stream.step.
        change (Stream.pool s4) with (<[0%nat:=Stream.Offering r]> (Stream.pool s)).
        rewrite Hpool. cbn [replicate]. change (_ !! 0%nat) with (Some (Stream.Offering r)).
        cbv iota.
        change (Stream.hasRoom (Stream.resultsChan s4))
          with (Stream.hasRoom (Stream.resultsChan s)).
        now rewrite (hasRoom_empty _ Hrb Hrc Hrcap). }
      set (s6 := Stream.setWritten (Stream.written s5 ++ [r])
                   (Stream.setResultsChan (Stream.setBuf [] (Stream.resultsChan s5)) s5)).
      assert (Stream.step cfg None Stream.WriterReceive s5 = Some s6) as E5.
      { unfold Stream.step.
        change (Stream.writer s5) with (Stream.writer s).
        change (Stream.buf (Stream.resultsChan s5))
          with (Stream.buf (Stream.resultsChan s) ++ [r])%list.
        rewrite Hw, Hrb. reflexivity. }
      exists s6. split.
      * cbn [app Stream.run]. now rewrite E1, E2, E3, E4, E5.
      * idle k.
        -- change (Stream.written s6) with (Stream.written s ++ [r])%list. now rewrite Hwr.
        -- exists k.
           change (Stream.pool s6)
             with (<[0%nat:=Stream.Receiving]>
                     (<[0%nat:=Stream.Offering r]> (Stream.pool s))).
           now rewrite Hpool.
    + exists s3. split.
      * cbn [app Stream.run]. now rewrite E1, E2, E3.
      * rewrite app_nil_r. idle k.
Qed.

Lemma unskipped_split line rest :
  Flow.expected cfg (Flow.unskipped (line :: rest))
  = (Flow.expected cfg (Flow.unskipped [line]) ++ Flow.expected cfg (Flow.unskipped rest))%list.
Proof.
  unfold Flow.expected, Flow.unskipped. cbn [List.filter].
  destruct (negb (Stream.skipped line)); cbn [flat_map app];
    now rewrite ?app_nil_r.
Qed.

(** All of them. *)
Lemma stream_serve_all (lines : list string) : forall done s,
  Flow.Idle lines done s ->
  exists s',
    Stream.run cfg None (flat_map (Flow.serve cfg) lines) s = Some s' /\
    Flow.Idle [] (done ++ Flow.expected cfg (Flow.unskipped lines)) s'.
Proof.
  induction lines as [|line lines IH]; intros done s H.
  - exists s. split; [reflexivity |]. unfold Flow.expected, Flow.unskipped. cbn.
    now rewrite app_nil_r.
  - destruct (stream_serve_one line lines done s H) as (s1 & E1 & H1).
    destruct (IH _ s1 H1) as (s' & E' & H').
    exists s'. split.
    + cbn [flat_map]. now rewrite stream_run_app, E1.
    + now rewrite unskipped_split, app_assoc.
Qed.

(** With [urlChan] closed and empty every worker at its [select] returns. *)
Lemma stream_close_all (n : nat) : forall (before : list Stream.Worker) s,
  Stream.pool s = (before ++ replicate n Stream.Receiving)%list ->
  Stream.buf (Stream.urlChan s) = [] -> Stream.closed (Stream.urlChan s) = true ->
  exists s',
    Stream.run cfg None (map Stream.WorkerClosed (seq (List.length before) n)) s = Some s' /\
    Stream.pool s' = (before ++ replicate n Stream.WorkerReturned)%list /\
    Stream.resultsChan s' = Stream.resultsChan s /\
    Stream.writer s' = Stream.writer s /\ Stream.written s' = Stream.written s.
Proof.
  induction n as [|n IH]; intros before s Hpool Hub Huc.
  - exists s. now rewrite Hpool.
  - set (s1 := Stream.setWorker (List.length before) Stream.WorkerReturned s).
    assert (Stream.step cfg None (Stream.WorkerClosed (List.length before)) s = Some s1) as E1.
    { unfold Stream.step. cbn [replicate] in Hpool.
      rewrite Hpool, list_lookup_middle by reflexivity. now rewrite Hub, Huc. }
    destruct (IH (before ++ [Stream.WorkerReturned])%list s1) as (s' & E' & Hp' & H').
    { change (Stream.pool s1)
        with (<[List.length before:=Stream.WorkerReturned]> (Stream.pool s)).
      rewrite Hpool. cbn [replicate].
      rewrite insert_app_r_alt by lia. rewrite Nat.sub_diag.
      change (<[0%nat:=Stream.WorkerReturned]>
                (Stream.Receiving :: replicate n Stream.Receiving))
        with ([Stream.WorkerReturned] ++ replicate n Stream.Receiving)%list.
      now rewrite app_assoc. }
    { exact Hub. }
    { exact Huc. }
    exists s'. split; [| split; [| exact H']].
    + cbn [seq map Stream.run]. rewrite E1.
      rewrite length_app, Nat.add_1_r in E'. exact E'.
    + rewrite Hp', <- app_assoc. reflexivity.
Qed.

Lemma forallb_isReturned (n : nat) :
  forallb Stream.isReturned (replicate n Stream.WorkerReturned) = true.
Proof. induction n as [|n IH]; simpl; [reflexivity | exact IH]. Qed.

(** The sequential schedule is a complete run, and writes the results in
    the order of the file. *)
Lemma stream_sequential_run (fileLines : list string) :
  1 <= Stream.numWorkers cfg -> Stream.numWorkers cfg * 100 <= Go.MaxInt ->
  exists s,
    Stream.run cfg None (Flow.sequential cfg fileLines) (Stream.spawn cfg None fileLines)
    = Some s /\
    Stream.writer s = Stream.WriterReturned None /\
    Stream.written s = Flow.expected cfg (Flow.unskipped fileLines).
Proof.
  intros Hw Hmax.
  set (s0 := Stream.setWriter Stream.Writing (Stream.spawn cfg None fileLines)).
  assert (Stream.step cfg None Stream.WriterCreate (Stream.spawn cfg None fileLines)
          = Some s0) as E0.
  { unfold Stream.step. cbn [Stream.writer Stream.spawn].
    now destruct (String.eqb (Stream.OutputPath cfg) ""). }
  assert (Flow.Idle fileLines [] s0) as H0.
  { unfold Flow.Idle.
    change (Stream.cap (Stream.urlChan s0)) with (Go.int_mul (Stream.numWorkers cfg) 100).
    change (Stream.cap (Stream.resultsChan s0)) with (Go.int_mul (Stream.numWorkers cfg) 10).
    unfold Go.int_mul. rewrite !wrap_small by (unfold Go.MinInt, Go.MaxInt in *; lia).
    repeat match goal with |- _ /\ _ => split end; try reflexivity; try lia.
    exists (Z.to_nat (Stream.numWorkers cfg) - 1)%nat.
    change (Stream.pool s0)
      with (replicate (Z.to_nat (Stream.numWorkers cfg)) Stream.Receiving).
    f_equal. lia. }
  destruct (stream_serve_all fileLines [] s0 H0) as (s1 & E1 & H1).
  cbn [app] in H1.
  destruct H1 as (Hctx & Hl & Hr & Hub & Huc & _ & Hrb & Hrc & _ & Hwr & Hwn & k & Hpool).
  set (s2 := Stream.setReader Stream.ReaderReturned s1).
  assert (Stream.step cfg None Stream.ReaderScan s1 = Some s2) as E2.
  { unfold Stream.step. now rewrite Hr, Hl. }
  set (s3 := Stream.setURLChan (Stream.close (Stream.urlChan s2)) s2).
  assert (Stream.step cfg None Stream.CloseURLs s2 = Some s3) as E3.
  { unfold Stream.step.
    change (Stream.reader s2) with Stream.ReaderReturned. cbv iota.
    change (Stream.closed (Stream.urlChan s2)) with (Stream.closed (Stream.urlChan s1)).
    now rewrite Huc. }
  assert (S k = Z.to_nat (Stream.numWorkers cfg)) as Hk.
  { pose proof (stream_run_pool cfg None _ _ _ E1) as Hlen.
    rewrite Hpool in Hlen.
    change (Stream.pool s0)
      with (replicate (Z.to_nat (Stream.numWorkers cfg)) Stream.Receiving) in Hlen.
    now rewrite !length_replicate in Hlen. }
  destruct (stream_close_all (S k) [] s3) as (s4 & E4 & Hpool4 & Hrc4 & Hwr4 & Hwn4).
  { exact Hpool. }
  { exact Hub. }
  { reflexivity. }
  cbn [List.length app] in E4, Hpool4. rewrite Hk in E4.
  change (Stream.resultsChan s3) with (Stream.resultsChan s1) in Hrc4.
  change (Stream.writer s3) with (Stream.writer s1) in Hwr4.
  change (Stream.written s3) with (Stream.written s1) in Hwn4.
  set (s5 := Stream.setResultsChan (Stream.close (Stream.resultsChan s4)) s4).
  assert (Stream.step cfg None Stream.CloseResults s4 = Some s5) as E5.
  { unfold Stream.step. rewrite Hpool4, forallb_isReturned.
    assert (Stream.closed (Stream.resultsChan s4) = false) as -> by now rewrite Hrc4.
    reflexivity. }
  set (s6 := Stream.setWriter (Stream.WriterReturned None) s5).
  assert (Stream.step cfg None Stream.WriterClosed s5 = Some s6) as E6.
  { unfold Stream.step.
    change (Stream.writer s5) with (Stream.writer s4).
    change (Stream.buf (Stream.resultsChan s5)) with (Stream.buf (Stream.resultsChan s4)).
    change (Stream.closed (Stream.resultsChan s5)) with true.
    now rewrite Hwr4, Hwr, Hrc4, Hrb. }
  exists s6. split; [| split].
  - unfold Flow.sequential. cbn [Stream.run]. rewrite E0.
    rewrite stream_run_app, E1. cbn [app Stream.run]. rewrite E2, E3.
    rewrite stream_run_app, E4. cbn [Stream.run]. now rewrite E5, E6.
  - reflexivity.
  - change (Stream.written s6) with (Stream.written s4). now rewrite Hwn4, Hwn.
Qed.

End StreamCompleting.

(** X21.  [ProcessFile] of package [processor] can always finish: for
    every file, with at least one worker, channel sizes that are [int]s
    and an output that can be created, the schedule in which the lines
    go through the pipeline one after the other is a complete run
    without error, and it writes the results of the unskipped lines in
    the order of the file. *)
Theorem ProcessFile_can_complete (L : Go.Lib) (cfg : Stream.Config)
    (fileLines : list string) :
  1 <= Stream.numWorkers cfg -> Stream.numWorkers cfg * 100 <= Go.MaxInt ->
  exists stats,
    Stream.ProcessFile cfg None None None fileLines (Flow.sequential cfg fileLines)
    = Some (None,
            map (Processor.formatResult (Stream.Verbose cfg))
              (Flow.expected cfg (Flow.unskipped fileLines)),
            stats).
Proof.
  intros Hw Hmax. unfold Stream.ProcessFile, Go.int_mul.
  rewrite !wrap_small by (unfold Go.MinInt, Go.MaxInt in *; lia).
  destruct (Z.leb_spec (Stream.numWorkers cfg * 100) 0); [lia |].
  destruct (Z.leb_spec (Stream.numWorkers cfg * 10) 0); [lia |].
  cbn [orb].
  destruct (stream_sequential_run cfg fileLines Hw Hmax) as (s & -> & Hwr & Hwn).
  unfold Stream.returned. rewrite Hwr, Hwn. now eexists.
Qed.

(** The file of seven lines, with one worker. *)
Lemma ProcessFile_can_complete_witness :
  exists stats,
    Stream.ProcessFile Inputs.streamConfig None None None Inputs.streamLines
      (Flow.sequential Inputs.streamConfig Inputs.streamLines)
    = Some (None,
            map (Processor.formatResult true)
              (Flow.expected Inputs.streamConfig (Flow.unskipped Inputs.streamLines)),
            stats).
Proof.
  apply (ProcessFile_can_complete AsciiLib.lib Inputs.streamConfig Inputs.streamLines);
    vm_compute; discriminate.
Defined.
